(** * qiankun sandbox subsystem: a shallow embedding and its specification

    The development follows the TypeScript sources:
    - [sandbox/proxySandbox.ts]     multi-instance [ProxySandbox]
    - [sandbox/legacy/sandbox.ts]   single-instance [SingularProxySandbox]
    - [sandbox/index.ts]            [createSandboxContainer]
    - [sandbox/patchers/dynamicAppend/forStrictSandbox.ts]
    - [loader.ts]                   [getAppWrapperGetter], [getRender],
                                    [getLifecyclesFromExports], [execHooksChain]
    - [apis.ts]                     [registerMicroApps], [start]
    - [prefetch.ts]                 [doPrefetchStrategy]
    - [addons/engineFlag.ts]        the engine-flag lifecycle hooks

    Part I holds the model, Part II the theorems.

    Modelling conventions.
    - A JavaScript object is the finite map of its own properties (each a
      data or an accessor descriptor), a flattened view of the properties it
      inherits through its prototype chain, and its [[Extensible]] flag.
    - The sources are ES modules, hence strict-mode code: a failed
      assignment or [delete] raises a TypeError.
    - A getter is represented by the value it currently returns.
    - Foreign code is code that is not in the sources: a setter behind a
      property, or a function other than the built-in one that an object
      holds as its [hasOwnProperty].  The host says what a call of it does:
      a setter throws or changes what the accessor properties of the shared
      window read; a [hasOwnProperty] throws or answers.  Foreign code that
      adds or removes properties, that changes the prototype of an object
      (the setter of [__proto__]), or that reaches into the private objects
      of a sandbox, is outside the model.
    - [o.hasOwnProperty(p)] is a method call: the function is looked up on
      [o], so that a property of that name shadows the built-in one.
    - The built-ins the sources call through a name of their own
      ([Object.defineProperty], [Object.getOwnPropertyDescriptor],
      [Reflect.defineProperty], [Reflect.ownKeys]) are the original ones.
    - Of a Proxy the handler is modelled, each trap as a function of the
      sandbox and of the shared window; where the sources themselves go
      through a facade, the invariants that the Proxy enforces on the
      answer of the trap are modelled with it. *)

From Stdlib Require Import ZArith Lia.
From stdpp Require Import base option gmap sets list strings.

(* ===================================================================== *)
(** * Part I: the model                                                   *)
(* ===================================================================== *)

(** ** JavaScript values, property keys and descriptors *)

Module JS.

(** Object identities that the sandbox code hands out or compares. *)
Inductive Ref :=
| RefWindow                  (* the shared global object, [window] *)
| RefProxy (id : nat)        (* the facade of sandbox number [id] *)
| RefFakeWindow (id : nat)   (* the overlay of sandbox number [id], the target of its facade *)
| RefUnscopables             (* the module-level [unscopables] table *)
| RefHasOwnProperty (id : nat)  (* the merged [hasOwnProperty] closure of a sandbox *)
| RefObjectPrototypeHasOwnProperty  (* the built-in [Object.prototype.hasOwnProperty] *)
| RefHost (n : nat).         (* any other host or application object *)

Inductive Value :=
| VUndefined
| VNull
| VBool (b : bool)
| VNumber (z : Z)
| VString (s : string)
| VObject (r : Ref)
| VFunction (r : Ref).

(** [PropertyKey = string | number | symbol]; a number key is its decimal
    string. *)
Inductive PropertyKey :=
| PString (s : string)
| PSymbol (description : string).

Inductive PropertyDescriptor :=
| DataDesc (value : Value) (writable enumerable configurable : bool)
| AccessorDesc (get : option Value) (set : option Ref)
               (enumerable configurable : bool).

#[global] Instance Ref_eq_dec : EqDecision Ref.
Proof. solve_decision. Defined.

#[global] Instance Value_eq_dec : EqDecision Value.
Proof. solve_decision. Defined.

#[global] Instance PropertyKey_eq_dec : EqDecision PropertyKey.
Proof. solve_decision. Defined.

#[global] Instance PropertyDescriptor_eq_dec : EqDecision PropertyDescriptor.
Proof. solve_decision. Defined.

#[global] Instance PropertyKey_countable : Countable PropertyKey.
Proof.
  refine (inj_countable'
            (λ k, match k with PString s => inl s | PSymbol s => inr s end)
            (λ x, match x with inl s => PString s | inr s => PSymbol s end) _).
  by intros [].
Defined.

Coercion PString : string >-> PropertyKey.

Definition isSymbol (p : PropertyKey) : bool :=
  match p with PSymbol _ => true | PString _ => false end.

Definition configurable (d : PropertyDescriptor) : bool :=
  match d with DataDesc _ _ _ c => c | AccessorDesc _ _ _ c => c end.

Definition enumerable (d : PropertyDescriptor) : bool :=
  match d with DataDesc _ _ e _ => e | AccessorDesc _ _ e _ => e end.

(** [descriptor.writable]: [undefined] (falsy) on an accessor descriptor. *)
Definition writable (d : PropertyDescriptor) : bool :=
  match d with DataDesc _ w _ _ => w | AccessorDesc _ _ _ _ => false end.

(** [hasOwnProperty.call(descriptor, 'get')] *)
Definition hasGetter (d : PropertyDescriptor) : bool :=
  match d with DataDesc _ _ _ _ => false | AccessorDesc _ _ _ _ => true end.

(** The value a read of the property yields. *)
Definition read (d : PropertyDescriptor) : Value :=
  match d with
  | DataDesc v _ _ _ => v
  | AccessorDesc g _ _ _ => default VUndefined g
  end.

(** ** Objects *)

Record JSObject := mkObject {
  own : gmap PropertyKey PropertyDescriptor;
  inherited : gmap PropertyKey PropertyDescriptor;
  extensible : bool;
}.

Definition withOwn (o : JSObject) (m : gmap PropertyKey PropertyDescriptor) : JSObject :=
  {| own := m; inherited := inherited o; extensible := extensible o |}.

(** What is thrown: a TypeError, raised by the language or by the code
    modelled here, or whatever the foreign function [f] throws. *)
Inductive Exception :=
| TypeErrorException
| Thrown (f : Ref).

(** How a piece of strict-mode code ends. *)
Inductive Completion (A : Type) :=
| Normal (a : A)
| Throw (e : Exception).

Arguments Normal {A} a.
Arguments Throw {A} e.

Abbreviation ThrowTypeError := (Throw TypeErrorException).

(** [Object.prototype.hasOwnProperty.call(o, p)]: the answer of the
    built-in function. *)
Definition hasOwnProperty (o : JSObject) (p : PropertyKey) : bool :=
  bool_decide (is_Some (own o !! p)).

(** [Object.getOwnPropertyDescriptor(o, p)] *)
Definition getOwnPropertyDescriptor (o : JSObject) (p : PropertyKey)
  : option PropertyDescriptor :=
  own o !! p.

(** [p in o] *)
Definition hasProperty (o : JSObject) (p : PropertyKey) : bool :=
  bool_decide (is_Some (own o !! p)) || bool_decide (is_Some (inherited o !! p)).

(** [o[p]] *)
Definition getProp (o : JSObject) (p : PropertyKey) : Value :=
  match own o !! p with
  | Some d => read d
  | None => match inherited o !! p with
            | Some d => read d
            | None => VUndefined
            end
  end.

(** What [o[p] = v] comes down to (OrdinarySet with the object as
    receiver): the object with a new own data property or with a new value
    of one, a failure, or the call of the setter that stands behind [p]. *)
Inductive Assignment :=
| Stores (o' : JSObject)
| Fails
| Calls (setter : Ref).

Definition assignment (o : JSObject) (p : PropertyKey) (v : Value) : Assignment :=
  match own o !! p with
  | Some (DataDesc _ w e c) =>
      if w then Stores (withOwn o (<[p := DataDesc v w e c]> (own o)))
      else Fails
  | Some (AccessorDesc _ (Some f) _ _) => Calls f
  | Some (AccessorDesc _ None _ _) => Fails
  | None =>
      match inherited o !! p with
      | Some (DataDesc _ false _ _) => Fails
      | Some (AccessorDesc _ (Some f) _ _) => Calls f
      | Some (AccessorDesc _ None _ _) => Fails
      | Some (DataDesc _ true _ _) | None =>
          if extensible o
          then Stores (withOwn o (<[p := DataDesc v true true true]> (own o)))
          else Fails
      end
  end.

(** The setter an assignment to [o[p]] calls, if it calls one. *)
Definition setterOf (o : JSObject) (p : PropertyKey) : option Ref :=
  match own o !! p with
  | Some (AccessorDesc _ s _ _) => s
  | Some (DataDesc _ _ _ _) => None
  | None =>
      match inherited o !! p with
      | Some (AccessorDesc _ s _ _) => s
      | _ => None
      end
  end.

(** [delete o[p]] in strict mode. *)
Definition deleteProp (o : JSObject) (p : PropertyKey) : Completion JSObject :=
  match own o !! p with
  | None => Normal o
  | Some d =>
      if configurable d then Normal (withOwn o (delete p (own o)))
      else ThrowTypeError
  end.

(** The attributes object handed to [Object.defineProperty]; the sources
    only ever pass data or generic descriptors (no [get]/[set] field). *)
Record Attributes := mkAttributes {
  a_value : option Value;
  a_writable : option bool;
  a_enumerable : option bool;
  a_configurable : option bool;
}.

Definition isDataAttributes (a : Attributes) : bool :=
  bool_decide (is_Some (a_value a)) || bool_decide (is_Some (a_writable a)).

Definition differs {A} `{EqDecision A} (x : option A) (y : A) : bool :=
  match x with Some x' => bool_decide (x' ≠ y) | None => false end.

(** ValidateAndApplyPropertyDescriptor, for data and generic attributes. *)
Definition validateAndApply (o : JSObject) (p : PropertyKey) (a : Attributes)
  : option JSObject :=
  match own o !! p with
  | None =>
      if extensible o
      then Some (withOwn o (<[p := DataDesc (default VUndefined (a_value a))
                                           (default false (a_writable a))
                                           (default false (a_enumerable a))
                                           (default false (a_configurable a))]> (own o)))
      else None
  | Some cur =>
      if negb (configurable cur)
         && (bool_decide (a_configurable a = Some true)
             || differs (a_enumerable a) (enumerable cur))
      then None
      else
        match cur with
        | AccessorDesc g s e c =>
            if isDataAttributes a then
              if c
              then Some (withOwn o (<[p := DataDesc (default VUndefined (a_value a))
                                                   (default false (a_writable a))
                                                   (default e (a_enumerable a))
                                                   (default c (a_configurable a))]> (own o)))
              else None
            else Some (withOwn o (<[p := AccessorDesc g s
                                           (default e (a_enumerable a))
                                           (default c (a_configurable a))]> (own o)))
        | DataDesc v w e c =>
            if negb c && negb w
               && (bool_decide (a_writable a = Some true) || differs (a_value a) v)
            then None
            else Some (withOwn o (<[p := DataDesc (default v (a_value a))
                                                 (default w (a_writable a))
                                                 (default e (a_enumerable a))
                                                 (default c (a_configurable a))]> (own o)))
        end
  end.

(** [Object.defineProperty(o, p, a)]: throws where the validation fails. *)
Definition defineProperty (o : JSObject) (p : PropertyKey) (a : Attributes)
  : Completion JSObject :=
  match validateAndApply o p a with
  | Some o' => Normal o'
  | None => ThrowTypeError
  end.

(** *** The invariants of a Proxy

    After a trap has answered, the Proxy compares the answer with its
    target and throws a TypeError where they disagree. *)

(** [[Get]]: the value reported for a non-configurable, non-writable data
    property of the target is its value; for a non-configurable accessor
    without getter it is [undefined]. *)
Definition getInvariant (target : JSObject) (p : PropertyKey) (trapResult : Value)
  : bool :=
  match own target !! p with
  | Some (DataDesc v false _ false) => bool_decide (trapResult = v)
  | Some (AccessorDesc None _ _ false) => bool_decide (trapResult = VUndefined)
  | _ => true
  end.

(** [[Set]], where the trap has answered [true]: a non-configurable,
    non-writable data property of the target holds the value already; a
    non-configurable accessor of the target has a setter. *)
Definition setInvariant (target : JSObject) (p : PropertyKey) (v : Value) : bool :=
  match own target !! p with
  | Some (DataDesc v0 false _ false) => bool_decide (v = v0)
  | Some (AccessorDesc _ None _ false) => false
  | _ => true
  end.

(** [[Delete]], where the trap has answered [true]: the target does not
    have the property, or has it as a configurable one and is extensible. *)
Definition deleteInvariant (target : JSObject) (p : PropertyKey) : bool :=
  match own target !! p with
  | Some d => configurable d && extensible target
  | None => true
  end.

End JS.

Export JS.

(** [Array.prototype.forEach] / [Map.prototype.forEach] with a callback that
    may end abruptly: the state reached so far is kept. *)
Fixpoint forEach {A S : Type} (f : A → S → S * Completion ()) (l : list A) (s : S)
  : S * Completion () :=
  match l with
  | [] => (s, Normal ())
  | x :: l' =>
      match f x s with
      | (s', Normal _) => forEach f l' s'
      | (s', c) => (s', c)
      end
  end.

(** A step that only produces the next state or ends abruptly without one. *)
Definition step {S : Type} (c : Completion S) (s : S) : S * Completion () :=
  match c with
  | Normal s' => (s', Normal ())
  | Throw e => (s, Throw e)
  end.

(** [process.env.NODE_ENV] *)
Inductive NodeEnv := Development | Test | Production.

#[global] Instance NodeEnv_eq_dec : EqDecision NodeEnv.
Proof. solve_decision. Defined.

(** What the modules read from their surroundings when they are loaded. *)
Record Host := mkHost {
  NODE_ENV : NodeEnv;
  (** [window.__QIANKUN_DEVELOPMENT__] is truthy *)
  QIANKUN_DEVELOPMENT : bool;
  (** [getTargetValue] of [sandbox/common.ts] (binds a native function read
      from the window to the window; the file is not part of this model) *)
  getTargetValue : Ref → Value → Value;
  (** Foreign code: the setter [f], called on the object [this] with the
      value [v] while the shared window is [W].  [callSetter f this v W] is
      [None] when the call throws, and otherwise the values that accessor
      properties of the shared window read from then on. *)
  callSetter : Ref → Ref → Value → JSObject → option (gmap PropertyKey Value);
  (** Foreign code: a function [f] other than the built-in one, called as
      [o.hasOwnProperty(p)] on the object [this] with the own properties
      [o].  [callFunction f this o p] is [None] when the call throws, and
      otherwise the truth value of the answer. *)
  callFunction : Ref → Ref → JSObject → PropertyKey → option bool;
}.

(** ** Calls that may run foreign code *)

(** The descriptor [d] of the key [k] once the getters read [m]. *)
Definition reading (m : gmap PropertyKey Value) (k : PropertyKey)
    (d : PropertyDescriptor) : PropertyDescriptor :=
  match d with
  | AccessorDesc (Some g) s e c => AccessorDesc (Some (default g (m !! k))) s e c
  | _ => d
  end.

(** The shared window after a setter has run. *)
Definition afterSetter (W : JSObject) (m : gmap PropertyKey Value) : JSObject :=
  {| own := map_imap (λ k d, Some (reading m k d)) (own W);
     inherited := map_imap (λ k d, Some (reading m k d)) (inherited W);
     extensible := extensible W |}.

(** [o.hasOwnProperty(p)], [this] being the identity of [o]. *)
Definition call_hasOwnProperty (h : Host) (this : Ref) (o : JSObject)
    (p : PropertyKey) : Completion bool :=
  match getProp o (PString "hasOwnProperty") with
  | VFunction f =>
      if bool_decide (f = RefObjectPrototypeHasOwnProperty)
      then Normal (hasOwnProperty o p)
      else match callFunction h f this o p with
           | Some answer => Normal answer
           | None => Throw (Thrown f)
           end
  | _ => ThrowTypeError
  end.

(** [o.hasOwnProperty] is the built-in function. *)
Definition builtinHasOwnProperty (o : JSObject) : Prop :=
  getProp o (PString "hasOwnProperty") = VFunction RefObjectPrototypeHasOwnProperty.

(** [window[p] = v] in strict mode, on the shared window. *)
Definition assignWindow (h : Host) (W : JSObject) (p : PropertyKey) (v : Value)
  : Completion JSObject :=
  match assignment W p v with
  | Stores W' => Normal W'
  | Fails => ThrowTypeError
  | Calls f =>
      match callSetter h f RefWindow v W with
      | Some m => Normal (afterSetter W m)
      | None => Throw (Thrown f)
      end
  end.

(** [target[p] = v] in strict mode, on the overlay of sandbox [id]: the
    overlay and the shared window afterwards. *)
Definition assignOverlay (h : Host) (id : nat) (target W : JSObject)
    (p : PropertyKey) (v : Value) : Completion (JSObject * JSObject) :=
  match assignment target p v with
  | Stores target' => Normal (target', W)
  | Fails => ThrowTypeError
  | Calls f =>
      match callSetter h f (RefFakeWindow id) v W with
      | Some m => Normal (target, afterSetter W m)
      | None => Throw (Thrown f)
      end
  end.

(** ** sandbox/proxySandbox.ts

    Here the traps [set], [get] and [deleteProperty] of the proxy handler,
    with the constructor, [active] and [inactive]; the traps [has],
    [getOwnPropertyDescriptor], [ownKeys] and [defineProperty] follow
    further down. *)

Module ProxySandbox.

Definition variableWhiteListInDev (h : Host) : list PropertyKey :=
  if bool_decide (NODE_ENV h = Development) || QIANKUN_DEVELOPMENT h
  then [PString "__REACT_ERROR_OVERLAY_GLOBAL_HOOK__"]
  else [].

(** who could escape the sandbox *)
Definition variableWhiteList (h : Host) : list PropertyKey :=
  [PString "System"; PString "__cjsWrapper"] ++ variableWhiteListInDev h.

(** [Symbol.unscopables] *)
Definition Symbol_unscopables : PropertyKey := PSymbol "Symbol.unscopables".

Definition isTestMock (h : Host) (p : PropertyKey) : bool :=
  bool_decide (NODE_ENV h = Test)
  && (bool_decide (p = PString "mockTop") || bool_decide (p = PString "mockSafariTop")).

(** The descriptor [createFakeWindow] defines on the fake window for the
    own property [p] of the global, or [None] where [p] is filtered out. *)
Definition fakeDescriptor (h : Host) (p : PropertyKey) (d : PropertyDescriptor)
  : option PropertyDescriptor :=
  if isSymbol p || configurable d then None
  else if bool_decide (p = PString "top") || bool_decide (p = PString "parent")
          || bool_decide (p = PString "self") || bool_decide (p = PString "window")
          || isTestMock h p
       then Some match d with
                 | DataDesc v _ e _ => DataDesc v true e true
                 | AccessorDesc g s e _ => AccessorDesc g s e true
                 end
       else Some d.

Record FakeWindow := mkFakeWindow {
  fw_fakeWindow : JSObject;
  fw_propertiesWithGetter : gset PropertyKey;
}.

(** [createFakeWindow(global)]; [objectPrototype] is what the literal [{}]
    inherits from [Object.prototype]. *)
Definition createFakeWindow (h : Host)
    (objectPrototype : gmap PropertyKey PropertyDescriptor) (global : JSObject)
  : FakeWindow :=
  {| fw_fakeWindow :=
       {| own := map_imap (fakeDescriptor h) (own global);
          inherited := objectPrototype;
          extensible := true |};
     fw_propertiesWithGetter :=
       dom (filter (λ kd, isSymbol kd.1 = false ∧ configurable kd.2 = false
                          ∧ hasGetter kd.2 = true) (own global)) |}.

Record ProxySandbox := mkProxySandbox {
  name : string;
  ident : nat;
  fakeWindow : JSObject;
  propertiesWithGetter : gset PropertyKey;
  (** window 值变更记录 *)
  updatedValueSet : gset PropertyKey;
  sandboxRunning : bool;
  latestSetProp : option PropertyKey;
}.

(** [this.proxy] *)
Definition proxy (sb : ProxySandbox) : Ref := RefProxy (ident sb).

Definition withFakeWindow (sb : ProxySandbox) (o : JSObject) : ProxySandbox :=
  {| name := name sb; ident := ident sb; fakeWindow := o;
     propertiesWithGetter := propertiesWithGetter sb;
     updatedValueSet := updatedValueSet sb;
     sandboxRunning := sandboxRunning sb;
     latestSetProp := latestSetProp sb |}.

Definition withUpdatedValueSet (sb : ProxySandbox) (s : gset PropertyKey) : ProxySandbox :=
  {| name := name sb; ident := ident sb; fakeWindow := fakeWindow sb;
     propertiesWithGetter := propertiesWithGetter sb;
     updatedValueSet := s;
     sandboxRunning := sandboxRunning sb;
     latestSetProp := latestSetProp sb |}.

Definition withLatestSetProp (sb : ProxySandbox) (p : option PropertyKey) : ProxySandbox :=
  {| name := name sb; ident := ident sb; fakeWindow := fakeWindow sb;
     propertiesWithGetter := propertiesWithGetter sb;
     updatedValueSet := updatedValueSet sb;
     sandboxRunning := sandboxRunning sb;
     latestSetProp := p |}.

Definition withSandboxRunning (sb : ProxySandbox) (b : bool) : ProxySandbox :=
  {| name := name sb; ident := ident sb; fakeWindow := fakeWindow sb;
     propertiesWithGetter := propertiesWithGetter sb;
     updatedValueSet := updatedValueSet sb;
     sandboxRunning := b;
     latestSetProp := latestSetProp sb |}.

(** The sandbox, the shared [window] and how the call ended. *)
Record Outcome (A : Type) := mkOutcome {
  sandbox : ProxySandbox;
  window : JSObject;
  completion : Completion A;
}.

Arguments mkOutcome {A} _ _ _.
Arguments sandbox {A} _.
Arguments window {A} _.
Arguments completion {A} _.

(** The [constructor]: [id] is the identity of the new proxy; the second
    component is [activeSandboxCount] after [activeSandboxCount++]. *)
Definition new (h : Host) (objectPrototype : gmap PropertyKey PropertyDescriptor)
    (name : string) (id : nat) (rawWindow : JSObject) (activeSandboxCount : Z)
  : ProxySandbox * Z :=
  let fw := createFakeWindow h objectPrototype rawWindow in
  ({| name := name; ident := id;
      fakeWindow := fw_fakeWindow fw;
      propertiesWithGetter := fw_propertiesWithGetter fw;
      updatedValueSet := ∅;
      sandboxRunning := true;
      latestSetProp := None |},
   (activeSandboxCount + 1)%Z).

(** The [set] trap of the proxy handler. *)
Definition set (h : Host) (sb : ProxySandbox) (rawWindow : JSObject)
    (p : PropertyKey) (value : Value) : Outcome bool :=
  if sandboxRunning sb then
    let target := fakeWindow sb in
    (* [!target.hasOwnProperty(p) && rawWindow.hasOwnProperty(p)] *)
    let existedInRawWindowOnly : Completion bool :=
      match call_hasOwnProperty h (RefFakeWindow (ident sb)) target p with
      | Normal true => Normal false
      | Normal false => call_hasOwnProperty h RefWindow rawWindow p
      | Throw e => Throw e
      end in
    match existedInRawWindowOnly with
    | Normal copies =>
        let written : Completion (JSObject * JSObject) :=
          if copies then
            match getOwnPropertyDescriptor rawWindow p with
            | Some descriptor =>
                if writable descriptor
                then match defineProperty target p
                             {| a_configurable := Some (configurable descriptor);
                                a_enumerable := Some (enumerable descriptor);
                                a_writable := Some (writable descriptor);
                                a_value := Some value |} with
                     | Normal target' => Normal (target', rawWindow)
                     | Throw e => Throw e
                     end
                else Normal (target, rawWindow)
            | None => ThrowTypeError (* destructuring [undefined] *)
            end
          else assignOverlay h (ident sb) target rawWindow p value in
        match written with
        | Normal (target', rawWindow1) =>
            let sb1 := withFakeWindow sb target' in
            let escaped : Completion JSObject :=
              if bool_decide (p ∈ variableWhiteList h)
              then assignWindow h rawWindow1 p value
              else Normal rawWindow1 in
            match escaped with
            | Normal rawWindow' =>
                mkOutcome
                  (withLatestSetProp
                     (withUpdatedValueSet sb1 ({[p]} ∪ updatedValueSet sb1)) (Some p))
                  rawWindow' (Normal true)
            | Throw e => mkOutcome sb1 rawWindow1 (Throw e)
            end
        | Throw e => mkOutcome sb rawWindow (Throw e)
        end
    | Throw e => mkOutcome sb rawWindow (Throw e)
    end
  else mkOutcome sb rawWindow (Normal true).

(** The [get] trap.  [document] and [eval] are the globals of those names,
    that is the properties of the shared window.  (The trap also marks the
    facade as the currently running sandbox until the next task; that
    marker is not part of this model.) *)
Definition get (h : Host) (sb : ProxySandbox) (rawWindow : JSObject)
    (p : PropertyKey) : Value :=
  if bool_decide (p = Symbol_unscopables) then VObject RefUnscopables
  else if bool_decide (p = PString "window") || bool_decide (p = PString "self")
  then VObject (proxy sb)
  else if bool_decide (p = PString "globalThis")
  then VObject (proxy sb)
  else if bool_decide (p = PString "top") || bool_decide (p = PString "parent")
          || isTestMock h p
  then
    if bool_decide (VObject RefWindow = getProp rawWindow (PString "parent"))
    then VObject (proxy sb)
    else getProp rawWindow p
  else if bool_decide (p = PString "hasOwnProperty")
  then VFunction (RefHasOwnProperty (ident sb))
  else if bool_decide (p = PString "document") || bool_decide (p = PString "eval")
  then getProp rawWindow p
  else
    let target := fakeWindow sb in
    let value :=
      if bool_decide (p ∈ propertiesWithGetter sb) then getProp rawWindow p
      else if hasProperty target p then getProp target p
      else getProp rawWindow p in
    getTargetValue h RefWindow value.

(** The [deleteProperty] trap. *)
Definition deleteProperty (h : Host) (sb : ProxySandbox) (rawWindow : JSObject)
    (p : PropertyKey) : Outcome bool :=
  let target := fakeWindow sb in
  match call_hasOwnProperty h (RefFakeWindow (ident sb)) target p with
  | Normal true =>
      match deleteProp target p with
      | Normal target' =>
          mkOutcome
            (withUpdatedValueSet (withFakeWindow sb target') (updatedValueSet sb ∖ {[p]}))
            rawWindow (Normal true)
      | Throw e => mkOutcome sb rawWindow (Throw e)
      end
  | Normal false => mkOutcome sb rawWindow (Normal true)
  | Throw e => mkOutcome sb rawWindow (Throw e)
  end.

(** The merged [hasOwnProperty] closure of the constructor:
    [fakeWindow.hasOwnProperty(key) || rawWindow.hasOwnProperty(key)]. *)
Definition mergedHasOwnProperty (h : Host) (sb : ProxySandbox)
    (rawWindow : JSObject) (key : PropertyKey) : Completion bool :=
  match call_hasOwnProperty h (RefFakeWindow (ident sb)) (fakeWindow sb) key with
  | Normal true => Normal true
  | Normal false => call_hasOwnProperty h RefWindow rawWindow key
  | Throw e => Throw e
  end.

(** [this.proxy.hasOwnProperty(key)]: the method is read through the
    facade, where the [get] trap answers with the merged closure and the
    Proxy checks the answer against the overlay; then it is called. *)
Definition proxy_hasOwnProperty (h : Host) (sb : ProxySandbox)
    (rawWindow : JSObject) (key : PropertyKey) : Completion bool :=
  let method := get h sb rawWindow (PString "hasOwnProperty") in
  if getInvariant (fakeWindow sb) (PString "hasOwnProperty") method
  then mergedHasOwnProperty h sb rawWindow key
  else ThrowTypeError.

(** [active()]; the second component is [activeSandboxCount]. *)
Definition active (sb : ProxySandbox) (activeSandboxCount : Z) : ProxySandbox * Z :=
  (withSandboxRunning sb true,
   if sandboxRunning sb then activeSandboxCount else (activeSandboxCount + 1)%Z).

(** [inactive()]: when the count drops to zero the allow-listed keys this
    facade owns are deleted from the shared window. *)
Definition inactive (h : Host) (sb : ProxySandbox) (rawWindow : JSObject)
    (activeSandboxCount : Z) : Outcome () * Z :=
  let count := (activeSandboxCount - 1)%Z in
  let '(rawWindow', c) :=
    if bool_decide (count = 0%Z) then
      forEach (λ p w, match proxy_hasOwnProperty h sb w p with
                      | Normal true => step (deleteProp w p) w
                      | Normal false => (w, Normal ())
                      | Throw e => (w, Throw e)
                      end)
              (variableWhiteList h) rawWindow
    else (rawWindow, Normal ()) in
  match c with
  | Normal _ => (mkOutcome (withSandboxRunning sb false) rawWindow' (Normal ()), count)
  | _ => (mkOutcome sb rawWindow' c, count)
  end.

(** *** Going through the facade

    [proxy[p] = value] in strict mode: the [set] trap, then the invariant
    of the Proxy; an answer [false] of the trap is a TypeError. *)
Definition assignThroughProxy (h : Host) (sb : ProxySandbox) (rawWindow : JSObject)
    (p : PropertyKey) (value : Value) : Outcome () :=
  let o := set h sb rawWindow p value in
  mkOutcome (sandbox o) (window o)
    match completion o with
    | Normal true =>
        if setInvariant (fakeWindow (sandbox o)) p value then Normal ()
        else ThrowTypeError
    | Normal false => ThrowTypeError
    | Throw e => Throw e
    end.

(** [delete proxy[p]] in strict mode. *)
Definition deleteThroughProxy (h : Host) (sb : ProxySandbox) (rawWindow : JSObject)
    (p : PropertyKey) : Outcome () :=
  let o := deleteProperty h sb rawWindow p in
  mkOutcome (sandbox o) (window o)
    match completion o with
    | Normal true =>
        if deleteInvariant (fakeWindow (sandbox o)) p then Normal ()
        else ThrowTypeError
    | Normal false => ThrowTypeError
    | Throw e => Throw e
    end.

End ProxySandbox.

(** ** sandbox/legacy/sandbox.ts *)

Module SingularProxySandbox.

(** A JavaScript [Map<PropertyKey, any>]: the entries in insertion order;
    [set] on a key that is present keeps its position. *)
Definition JSMap : Type := list (PropertyKey * Value).

Definition Map_has (m : JSMap) (p : PropertyKey) : bool :=
  bool_decide (p ∈ m.*1).

Fixpoint Map_set (m : JSMap) (p : PropertyKey) (v : Value) : JSMap :=
  match m with
  | [] => [(p, v)]
  | (q, w) :: m' => if bool_decide (q = p) then (q, v) :: m' else (q, w) :: Map_set m' p v
  end.

Fixpoint Map_get (m : JSMap) (p : PropertyKey) : option Value :=
  match m with
  | [] => None
  | (q, w) :: m' => if bool_decide (q = p) then Some w else Map_get m' p
  end.

Definition isPropConfigurable (target : JSObject) (prop : PropertyKey) : bool :=
  match getOwnPropertyDescriptor target prop with
  | Some descriptor => configurable descriptor
  | None => true
  end.

(** [setWindowProp(prop, value, toDelete)] on the shared window. *)
Definition setWindowProp (h : Host) (prop : PropertyKey) (value : Value)
    (toDelete : bool) (window : JSObject) : JSObject * Completion () :=
  if bool_decide (value = VUndefined) && toDelete then
    step (deleteProp window prop) window
  else if isPropConfigurable window prop && negb (isSymbol prop) then
    match defineProperty window prop
            {| a_value := None; a_writable := Some true;
               a_enumerable := None; a_configurable := Some true |} with
    | Normal window1 => step (assignWindow h window1 prop value) window1
    | Throw e => (window, Throw e)
    end
  else (window, Normal ()).

Record SingularProxySandbox := mkSandbox {
  (** 沙箱期间新增的全局变量 *)
  addedPropsMapInSandbox : JSMap;
  (** 沙箱期间更新的全局变量 *)
  modifiedPropsOriginalValueMapInSandbox : JSMap;
  (** 持续记录更新的(新增和修改的)全局变量的 map *)
  currentUpdatedPropsValueMap : JSMap;
  name : string;
  ident : nat;
  sandboxRunning : bool;
  latestSetProp : option PropertyKey;
}.

Definition proxy (sb : SingularProxySandbox) : Ref := RefProxy (ident sb).

Record Outcome (A : Type) := mkOutcome {
  sandbox : SingularProxySandbox;
  window : JSObject;
  completion : Completion A;
}.

Arguments mkOutcome {A} _ _ _.
Arguments sandbox {A} _.
Arguments window {A} _.
Arguments completion {A} _.

(** The [constructor]. *)
Definition new (name : string) (id : nat) : SingularProxySandbox :=
  {| addedPropsMapInSandbox := [];
     modifiedPropsOriginalValueMapInSandbox := [];
     currentUpdatedPropsValueMap := [];
     name := name; ident := id;
     sandboxRunning := true;
     latestSetProp := None |}.

Definition withSandboxRunning (sb : SingularProxySandbox) (b : bool) : SingularProxySandbox :=
  {| addedPropsMapInSandbox := addedPropsMapInSandbox sb;
     modifiedPropsOriginalValueMapInSandbox := modifiedPropsOriginalValueMapInSandbox sb;
     currentUpdatedPropsValueMap := currentUpdatedPropsValueMap sb;
     name := name sb; ident := ident sb;
     sandboxRunning := b;
     latestSetProp := latestSetProp sb |}.

Definition withLatestSetProp (sb : SingularProxySandbox) (p : option PropertyKey)
  : SingularProxySandbox :=
  {| addedPropsMapInSandbox := addedPropsMapInSandbox sb;
     modifiedPropsOriginalValueMapInSandbox := modifiedPropsOriginalValueMapInSandbox sb;
     currentUpdatedPropsValueMap := currentUpdatedPropsValueMap sb;
     name := name sb; ident := ident sb;
     sandboxRunning := sandboxRunning sb;
     latestSetProp := p |}.

(** The bookkeeping of [setTrap]: the three maps after the write of [p];
    [inRawWindow] is the answer of [rawWindow.hasOwnProperty(p)]. *)
Definition record (sb : SingularProxySandbox) (inRawWindow : bool)
    (p : PropertyKey) (value originalValue : Value) : SingularProxySandbox :=
  let added :=
    if negb inRawWindow
    then Map_set (addedPropsMapInSandbox sb) p value
    else addedPropsMapInSandbox sb in
  let modified :=
    if negb inRawWindow then modifiedPropsOriginalValueMapInSandbox sb
    else if negb (Map_has (modifiedPropsOriginalValueMapInSandbox sb) p)
         then Map_set (modifiedPropsOriginalValueMapInSandbox sb) p originalValue
         else modifiedPropsOriginalValueMapInSandbox sb in
  {| addedPropsMapInSandbox := added;
     modifiedPropsOriginalValueMapInSandbox := modified;
     currentUpdatedPropsValueMap := Map_set (currentUpdatedPropsValueMap sb) p value;
     name := name sb; ident := ident sb;
     sandboxRunning := sandboxRunning sb;
     latestSetProp := latestSetProp sb |}.

(** [setTrap(p, value, originalValue, sync2Window)] *)
Definition setTrap (h : Host) (sb : SingularProxySandbox) (rawWindow : JSObject)
    (p : PropertyKey) (value originalValue : Value) (sync2Window : bool)
  : Outcome bool :=
  if sandboxRunning sb then
    match call_hasOwnProperty h RefWindow rawWindow p with
    | Normal inRawWindow =>
        let sb1 := record sb inRawWindow p value originalValue in
        let synced : Completion JSObject :=
          if sync2Window then assignWindow h rawWindow p value
          else Normal rawWindow in
        match synced with
        | Normal rawWindow' =>
            mkOutcome (withLatestSetProp sb1 (Some p)) rawWindow' (Normal true)
        | Throw e => mkOutcome sb1 rawWindow (Throw e)
        end
    | Throw e => mkOutcome sb rawWindow (Throw e)
    end
  else mkOutcome sb rawWindow (Normal true).

(** The [set] trap. *)
Definition set (h : Host) (sb : SingularProxySandbox) (rawWindow : JSObject)
    (p : PropertyKey) (value : Value) : Outcome bool :=
  let originalValue := getProp rawWindow p in
  setTrap h sb rawWindow p value originalValue true.

(** The [get] trap. *)
Definition get (h : Host) (sb : SingularProxySandbox) (rawWindow : JSObject)
    (p : PropertyKey) : Value :=
  if bool_decide (p = PString "top") || bool_decide (p = PString "parent")
     || bool_decide (p = PString "window") || bool_decide (p = PString "self")
  then VObject (proxy sb)
  else getTargetValue h RefWindow (getProp rawWindow p).


(** [active()] *)
Definition active (h : Host) (sb : SingularProxySandbox) (rawWindow : JSObject)
  : Outcome () :=
  let '(rawWindow', c) :=
    if negb (sandboxRunning sb)
    then forEach (λ pv, setWindowProp h pv.1 pv.2 false)
                 (currentUpdatedPropsValueMap sb) rawWindow
    else (rawWindow, Normal ()) in
  match c with
  | Normal _ => mkOutcome (withSandboxRunning sb true) rawWindow' (Normal ())
  | _ => mkOutcome sb rawWindow' c
  end.

(** [inactive()] *)
Definition inactive (h : Host) (sb : SingularProxySandbox) (rawWindow : JSObject)
  : Outcome () :=
  match forEach (λ pv, setWindowProp h pv.1 pv.2 false)
                (modifiedPropsOriginalValueMapInSandbox sb) rawWindow with
  | (rawWindow1, Normal _) =>
      match forEach (λ pv, setWindowProp h pv.1 VUndefined true)
                    (addedPropsMapInSandbox sb) rawWindow1 with
      | (rawWindow2, Normal _) =>
          mkOutcome (withSandboxRunning sb false) rawWindow2 (Normal ())
      | (rawWindow2, c) => mkOutcome sb rawWindow2 c
      end
  | (rawWindow1, c) => mkOutcome sb rawWindow1 c
  end.

(** A run of facade writes, stopping at the first one that ends abruptly. *)
Fixpoint writes (h : Host) (sb : SingularProxySandbox) (rawWindow : JSObject)
    (l : list (PropertyKey * Value)) : Outcome bool :=
  match l with
  | [] => mkOutcome sb rawWindow (Normal true)
  | (p, v) :: l' =>
      let o := set h sb rawWindow p v in
      match completion o with
      | Normal _ => writes h (sandbox o) (window o) l'
      | _ => o
      end
  end.

End SingularProxySandbox.

(** ** sandbox/index.ts *)

Module SandboxContainer.

Section Container.

(** Everything the sandbox and the patchers act on (the window, the
    document, the patch layer's module state). *)
Context {S : Type}.

(** [type Rebuilder = () => void] *)
Inductive Rebuilder := mkRebuilder (rebuild : S → S).

(** [type Freer = () => Rebuilder] *)
Inductive Freer := mkFreer (free : S → Rebuilder * S).

Definition runRebuilder (r : Rebuilder) : S → S :=
  match r with mkRebuilder f => f end.

Definition runFreer (f : Freer) : S → Rebuilder * S :=
  match f with mkFreer g => g end.

(** The sandbox instance and the two patch phases of [./patchers], closed
    over the arguments [createSandboxContainer] passes to them. *)
Record Parts := mkParts {
  sandbox_active : S → S;
  sandbox_inactive : S → S;
  patchAtBootstrapping : S → list Freer * S;
  patchAtMounting : S → list Freer * S;
}.

(** The variables the returned [mount] and [unmount] close over. *)
Record Container := mkContainer {
  bootstrappingFreers : list Freer;
  mountingFreers : list Freer;
  sideEffectsRebuilders : list Rebuilder;
}.

(** [createSandboxContainer(...)], after the sandbox has been constructed. *)
Definition createSandboxContainer (parts : Parts) (s : S) : Container * S :=
  let '(freers, s') := patchAtBootstrapping parts s in
  ({| bootstrappingFreers := freers;
      mountingFreers := [];
      sideEffectsRebuilders := [] |}, s').

(** [rebuilders.forEach((rebuild) => rebuild())] *)
Definition rebuildAll (rs : list Rebuilder) (s : S) : S :=
  foldl (λ s r, runRebuilder r s) s rs.

(** [freers.map((free) => free())] *)
Fixpoint freeAll (fs : list Freer) (s : S) : list Rebuilder * S :=
  match fs with
  | [] => ([], s)
  | f :: fs' =>
      let '(r, s1) := runFreer f s in
      let '(rs, s2) := freeAll fs' s1 in
      (r :: rs, s2)
  end.

(** [mount()]; the [async] body has no [await] and runs in one go. *)
Definition mount (parts : Parts) (c : Container) (s : S) : Container * S :=
  let s := sandbox_active parts s in
  let sideEffectsRebuildersAtBootstrapping :=
    take (length (bootstrappingFreers c)) (sideEffectsRebuilders c) in
  let sideEffectsRebuildersAtMounting :=
    drop (length (bootstrappingFreers c)) (sideEffectsRebuilders c) in
  let s := rebuildAll sideEffectsRebuildersAtBootstrapping s in
  let '(freers, s) := patchAtMounting parts s in
  let s := rebuildAll sideEffectsRebuildersAtMounting s in
  ({| bootstrappingFreers := bootstrappingFreers c;
      mountingFreers := freers;
      sideEffectsRebuilders := [] |}, s).

(** [unmount()] *)
Definition unmount (parts : Parts) (c : Container) (s : S) : Container * S :=
  let '(rebuilders, s) := freeAll (bootstrappingFreers c ++ mountingFreers c) s in
  ({| bootstrappingFreers := bootstrappingFreers c;
      mountingFreers := mountingFreers c;
      sideEffectsRebuilders := rebuilders |},
   sandbox_inactive parts s).

End Container.

Arguments Rebuilder : clear implicits.
Arguments Freer : clear implicits.
Arguments Parts : clear implicits.
Arguments Container : clear implicits.

(** *** An instrumented instance: every effect leaves an event in a log. *)

Inductive Phase := Bootstrapping | Mounting.

Inductive Event :=
| Active
| Inactive
| PatchAtMounting
| Free (ph : Phase) (i : nat)
| Rebuild (ph : Phase) (i : nat).

#[global] Instance Phase_eq_dec : EqDecision Phase.
Proof. solve_decision. Defined.

#[global] Instance Event_eq_dec : EqDecision Event.
Proof. solve_decision. Defined.

(** The [i]-th freer of a phase: logs its call, returns a logging rebuilder. *)
Definition loggingFreer (ph : Phase) (i : nat) : Freer (list Event) :=
  mkFreer (λ log, (mkRebuilder (λ log, log ++ [Rebuild ph i]), log ++ [Free ph i])).

Definition loggingFreers (ph : Phase) (n : nat) : list (Freer (list Event)) :=
  loggingFreer ph <$> seq 0 n.

(** A sandbox with [n] bootstrap patches and [m] patches per mount. *)
Definition loggingParts (n m : nat) : Parts (list Event) :=
  {| sandbox_active := λ log, log ++ [Active];
     sandbox_inactive := λ log, log ++ [Inactive];
     patchAtBootstrapping := λ log, (loggingFreers Bootstrapping n, log);
     patchAtMounting := λ log, (loggingFreers Mounting m, log ++ [PatchAtMounting]) |}.

End SandboxContainer.

(** ** sandbox/patchers/dynamicAppend/forStrictSandbox.ts *)

Module StrictSandboxPatcher.

(** What a patched prototype slot holds. *)
Inductive Method := Raw | Intercepting.

#[global] Instance Method_eq_dec : EqDecision Method.
Proof. solve_decision. Defined.

(** A DOM node is a number; of the document only the elements each wrapper
    node contains are kept. *)
Abbreviation Dom := (gmap nat (list nat)).

(** [ContainerConfig], without its two function-valued fields
    ([appWrapperGetter], [excludeAssetFilter]). *)
Record ContainerConfig := mkContainerConfig {
  appName : string;
  proxy : nat;
  dynamicStyleSheetElements : list nat;
  strictGlobal : bool;
  scopedCSS : bool;
}.

(** The module state, [Document.prototype.createElement], the head and body
    prototype methods and the document.  [createElementInstalls] and the
    three counters after it are ghost counters of the physical installations
    and restorations; no code reads them. *)
Record State := mkState {
  createElement : Method;
  dynamicAppend : Method;
  bootstrappingPatchCount : Z;
  mountingPatchCount : Z;
  proxyAttachContainerConfigMap : gmap nat ContainerConfig;
  dom : Dom;
  createElementInstalls : nat;
  createElementRestores : nat;
  dynamicAppendInstalls : nat;
  dynamicAppendRestores : nat;
}.

(** The state when the module has just been loaded. *)
Definition initial (d : Dom) : State :=
  {| createElement := Raw; dynamicAppend := Raw;
     bootstrappingPatchCount := 0; mountingPatchCount := 0;
     proxyAttachContainerConfigMap := ∅; dom := d;
     createElementInstalls := 0; createElementRestores := 0;
     dynamicAppendInstalls := 0; dynamicAppendRestores := 0 |}.

(** [patchDocumentCreateElement()], up to the returned [unpatch]. *)
Definition patchDocumentCreateElement (s : State) : State :=
  if bool_decide (createElement s = Raw) then
    {| createElement := Intercepting; dynamicAppend := dynamicAppend s;
       bootstrappingPatchCount := bootstrappingPatchCount s;
       mountingPatchCount := mountingPatchCount s;
       proxyAttachContainerConfigMap := proxyAttachContainerConfigMap s;
       dom := dom s;
       createElementInstalls := Datatypes.S (createElementInstalls s);
       createElementRestores := createElementRestores s;
       dynamicAppendInstalls := dynamicAppendInstalls s;
       dynamicAppendRestores := dynamicAppendRestores s |}
  else s.

(** The [unpatch] that [patchDocumentCreateElement] returns. *)
Definition unpatchDocumentCreate (s : State) : State :=
  {| createElement := Raw; dynamicAppend := dynamicAppend s;
     bootstrappingPatchCount := bootstrappingPatchCount s;
     mountingPatchCount := mountingPatchCount s;
     proxyAttachContainerConfigMap := proxyAttachContainerConfigMap s;
     dom := dom s;
     createElementInstalls := createElementInstalls s;
     createElementRestores := Datatypes.S (createElementRestores s);
     dynamicAppendInstalls := dynamicAppendInstalls s;
     dynamicAppendRestores := dynamicAppendRestores s |}.

(** Modelled from the spec: [patchHTMLDynamicAppendPrototypeFunctions] of
    [./common] is not among the sources. "Patch installation is
    reference-counted across concurrently-active applications: the
    underlying interception is installed once"; the head/body
    append/insert/remove methods are therefore overwritten only while they
    still are the original ones. *)
Definition patchHTMLDynamicAppendPrototypeFunctions (s : State) : State :=
  if bool_decide (dynamicAppend s = Raw) then
    {| createElement := createElement s; dynamicAppend := Intercepting;
       bootstrappingPatchCount := bootstrappingPatchCount s;
       mountingPatchCount := mountingPatchCount s;
       proxyAttachContainerConfigMap := proxyAttachContainerConfigMap s;
       dom := dom s;
       createElementInstalls := createElementInstalls s;
       createElementRestores := createElementRestores s;
       dynamicAppendInstalls := Datatypes.S (dynamicAppendInstalls s);
       dynamicAppendRestores := dynamicAppendRestores s |}
  else s.

(** Modelled from the spec: the [unpatch] returned by
    [patchHTMLDynamicAppendPrototypeFunctions], which "physically restore[s]
    the original creation/mutation behavior". *)
Definition unpatchDynamicAppendPrototypeFunctions (s : State) : State :=
  {| createElement := createElement s; dynamicAppend := Raw;
     bootstrappingPatchCount := bootstrappingPatchCount s;
     mountingPatchCount := mountingPatchCount s;
     proxyAttachContainerConfigMap := proxyAttachContainerConfigMap s;
     dom := dom s;
     createElementInstalls := createElementInstalls s;
     createElementRestores := createElementRestores s;
     dynamicAppendInstalls := dynamicAppendInstalls s;
     dynamicAppendRestores := Datatypes.S (dynamicAppendRestores s) |}.

Definition withCounts (s : State) (b m : Z) : State :=
  {| createElement := createElement s; dynamicAppend := dynamicAppend s;
     bootstrappingPatchCount := b;
     mountingPatchCount := m;
     proxyAttachContainerConfigMap := proxyAttachContainerConfigMap s;
     dom := dom s;
     createElementInstalls := createElementInstalls s;
     createElementRestores := createElementRestores s;
     dynamicAppendInstalls := dynamicAppendInstalls s;
     dynamicAppendRestores := dynamicAppendRestores s |}.

Definition withConfigMap (s : State) (m : gmap nat ContainerConfig) : State :=
  {| createElement := createElement s; dynamicAppend := dynamicAppend s;
     bootstrappingPatchCount := bootstrappingPatchCount s;
     mountingPatchCount := mountingPatchCount s;
     proxyAttachContainerConfigMap := m;
     dom := dom s;
     createElementInstalls := createElementInstalls s;
     createElementRestores := createElementRestores s;
     dynamicAppendInstalls := dynamicAppendInstalls s;
     dynamicAppendRestores := dynamicAppendRestores s |}.

Definition withDom (s : State) (d : Dom) : State :=
  {| createElement := createElement s; dynamicAppend := dynamicAppend s;
     bootstrappingPatchCount := bootstrappingPatchCount s;
     mountingPatchCount := mountingPatchCount s;
     proxyAttachContainerConfigMap := proxyAttachContainerConfigMap s;
     dom := d;
     createElementInstalls := createElementInstalls s;
     createElementRestores := createElementRestores s;
     dynamicAppendInstalls := dynamicAppendInstalls s;
     dynamicAppendRestores := dynamicAppendRestores s |}.

(** [patchStrictSandbox(appName, appWrapperGetter, proxy, mounting,
    scopedCSS, excludeAssetFilter)], up to the returned [free]. *)
Definition patchStrictSandbox (appName : string) (proxy : nat)
    (mounting : bool) (scopedCSS : bool) (s : State) : State :=
  let s :=
    match proxyAttachContainerConfigMap s !! proxy with
    | Some _ => s
    | None =>
        withConfigMap s
          (<[proxy := {| appName := appName; proxy := proxy;
                         dynamicStyleSheetElements := [];
                         strictGlobal := true; scopedCSS := scopedCSS |}]>
             (proxyAttachContainerConfigMap s))
    end in
  let s := patchDocumentCreateElement s in
  let s := patchHTMLDynamicAppendPrototypeFunctions s in
  let s := if negb mounting
           then withCounts s (bootstrappingPatchCount s + 1) (mountingPatchCount s)
           else s in
  if mounting
  then withCounts s (bootstrappingPatchCount s) (mountingPatchCount s + 1)
  else s.

(** [appWrapper.contains(element)] *)
Definition contains (d : Dom) (appWrapper element : nat) : bool :=
  bool_decide (element = appWrapper) || bool_decide (element ∈ d !!! appWrapper).

(** [rawHeadAppendChild.call(appWrapper, element)]: the element leaves the
    place it was in and becomes the last child of the wrapper. *)
Definition appendChild (d : Dom) (appWrapper element : nat) : Dom :=
  let d' := (λ l, filter (λ e, e ≠ element) l) <$> d in
  <[appWrapper := (d' !!! appWrapper) ++ [element]]> d'.

(** The callback [rebuild] hands to [rebuildCSSRules]; the second component
    is the boolean it returns. *)
Definition reAppendElement (appWrapperGetter : Dom → nat) (d : Dom)
    (stylesheetElement : nat) : Dom * bool :=
  let appWrapper := appWrapperGetter d in
  if negb (contains d appWrapper stylesheetElement)
  then (appendChild d appWrapper stylesheetElement, true)
  else (d, false).

(** Modelled from the spec: [rebuildCSSRules] of [./common] is not among the
    sources. The Rebuilder "re-attaches any style/link elements recorded by
    this application that are no longer present under its mounting
    element": the callback is called on each recorded element in turn. *)
Definition rebuildCSSRules (styleSheetElements : list nat)
    (reAppend : Dom → nat → Dom * bool) (d : Dom) : Dom :=
  foldl (λ d e, (reAppend d e).1) d styleSheetElements.

(** The [rebuild] that [free] returns; [proxy] names the container config
    whose [dynamicStyleSheetElements] array the closure holds. *)
Definition rebuild (appWrapperGetter : Dom → nat) (proxy : nat) (s : State) : State :=
  match proxyAttachContainerConfigMap s !! proxy with
  | Some config =>
      withDom s (rebuildCSSRules (dynamicStyleSheetElements config)
                   (reAppendElement appWrapperGetter) (dom s))
  | None => s
  end.

(** The [free] that [patchStrictSandbox] returns.  (Its call of
    [recordStyledComponentsCSSRules] snapshots the CSS rules of the recorded
    elements in a side table and changes nothing of this state.) *)
Definition free (mounting : bool) (s : State) : State :=
  let s :=
    if negb mounting && bool_decide (bootstrappingPatchCount s ≠ 0%Z)
    then withCounts s (bootstrappingPatchCount s - 1) (mountingPatchCount s)
    else s in
  let s :=
    if mounting
    then withCounts s (bootstrappingPatchCount s) (mountingPatchCount s - 1)
    else s in
  let allMicroAppUnmounted :=
    bool_decide (mountingPatchCount s = 0%Z)
    && bool_decide (bootstrappingPatchCount s = 0%Z) in
  if allMicroAppUnmounted
  then unpatchDocumentCreate (unpatchDynamicAppendPrototypeFunctions s)
  else s.

(** The calls the sandbox containers make on this module. *)
Inductive Op :=
| Patch (appName : string) (proxy : nat) (mounting scopedCSS : bool)
| FreeOp (mounting : bool)
| RebuildOp (appWrapperGetter : Dom → nat) (proxy : nat).

Definition run (s : State) (op : Op) : State :=
  match op with
  | Patch a p m c => patchStrictSandbox a p m c s
  | FreeOp m => free m s
  | RebuildOp g p => rebuild g p s
  end.

End StrictSandboxPatcher.

(** ** loader.ts *)

Module Loader.

Local Open Scope string_scope.

(** A DOM node. *)
Definition Element : Type := nat.

Inductive Error :=
| QiankunError (message : string)
| TypeError
| HierarchyRequestError.  (* the DOMException of that name *)

Inductive Result (A : Type) :=
| Returns (a : A)
| Throws (e : Error).

Arguments Returns {A} a.
Arguments Throws {A} e.

(** The document as the loader sees it. *)
Record Page := mkPage {
  getElementById : string → option Element;
  querySelector : string → option Element;
  (** [element.shadowRoot] *)
  shadowRoot : Element → option Element;
  (** the nodes each node contains *)
  childNodes : gmap Element (list Element);
}.

(** [container?: string | HTMLElement] *)
Inductive Container :=
| Selector (s : string)
| ContainerElement (e : Element).

(** What [loader.ts] imports from [./utils] and reads from the browser. *)
Record Env := mkEnv {
  getWrapperId : string → string;
  getContainer : Page → option Container → option Element;
  (** [document.head.attachShadow || document.head.createShadowRoot] *)
  supportShadowDOM : bool;
  (** [String(element)] *)
  elementToString : Element → string;
}.

(** The DOM queries a call makes, in order. *)
Inductive Lookup :=
| GetElementById (id : string)
| ElementGetter.

Definition assertElementExist (element : option Element) (msg : option string)
  : Result () :=
  match element with
  | Some _ => Returns ()
  | None =>
      match msg with
      | Some m =>
          if bool_decide (m = "") then Throws (QiankunError "element not existed!")
          else Throws (QiankunError m)
      | None => Throws (QiankunError "element not existed!")
      end
  end.

Definition wrapperMissing (appName appInstanceId : string) : string :=
  "Wrapper element for " +:+ appName +:+ " with instance " +:+ appInstanceId
  +:+ " is not existed!".

(** [getAppWrapperGetter(...)]: the getter it returns, as a function of the
    page it is invoked on; the first component lists the DOM queries made. *)
Definition getAppWrapperGetter (env : Env) (appName appInstanceId : string)
    (useLegacyRender strictStyleIsolation scopedCSS : bool)
    (elementGetter : Page → option Element)
  : Page → list Lookup * Result (option Element) :=
  λ page,
    if useLegacyRender then
      if strictStyleIsolation
      then ([], Throws (QiankunError "strictStyleIsolation can not be used with legacy render!"))
      else if scopedCSS
      then ([], Throws (QiankunError "experimentalStyleIsolation can not be used with legacy render!"))
      else
        let id := getWrapperId env appInstanceId in
        let appWrapper := getElementById page id in
        match assertElementExist appWrapper (Some (wrapperMissing appName appInstanceId)) with
        | Throws e => ([GetElementById id], Throws e)
        | Returns _ => ([GetElementById id], Returns appWrapper)
        end
    else
      let element := elementGetter page in
      match assertElementExist element (Some (wrapperMissing appName appInstanceId)) with
      | Throws e => ([ElementGetter], Throws e)
      | Returns _ =>
          if strictStyleIsolation && supportShadowDOM env then
            match element with
            | Some e => ([ElementGetter], Returns (shadowRoot page e))
            | None => ([ElementGetter], Throws TypeError)
            end
          else ([ElementGetter], Returns element)
      end.

(** [phase: 'loading' | 'mounting' | 'mounted' | 'unmounted'] *)
Inductive Phase := loading | mounting | mounted | unmounted.

#[global] Instance Phase_eq_dec : EqDecision Phase.
Proof. solve_decision. Defined.

Definition phaseText (phase : Phase) : string :=
  match phase with
  | loading => "loading"
  | mounting => "mounting"
  | mounted => "mounted"
  | unmounted => "unmounted"
  end.

(** [`${container}`] *)
Definition containerText (env : Env) (container : option Container) : string :=
  match container with
  | None => "undefined"
  | Some (Selector s) => s
  | Some (ContainerElement e) => elementToString env e
  end.

(** The first argument of [render]. *)
Record Props := mkProps {
  element : option Element;
  isLoading : bool;
  container : option Container;
}.

(** [type HTMLContentRender]: the custom render function of an application,
    given [loading] and [appContent]. *)
Definition HTMLContentRender : Type := bool → string → Page → Page * Result ().

(** The message [render] computes for a phase other than ['unmounted']; the
    [default] arm of its [switch] is out of reach of the four phases. *)
Definition errorMsg (env : Env) (appName : string) (container : option Container)
    (phase : Phase) : string :=
  match phase with
  | loading | mounting =>
      "Target container with " +:+ containerText env container
      +:+ " not existed while " +:+ appName +:+ " " +:+ phaseText phase +:+ "!"
  | mounted =>
      "Target container with " +:+ containerText env container
      +:+ " not existed after " +:+ appName +:+ " " +:+ phaseText phase +:+ "!"
  | unmounted =>
      "Target container with " +:+ containerText env container
      +:+ " not existed while " +:+ appName +:+ " rendering!"
  end.

(** [node.contains(other)]: [other] is [node] or one of its descendants.
    A descendant is at most as many levels down as there are nodes with
    children. *)
Fixpoint containsWithin (levels : nat) (page : Page) (node other : Element) : bool :=
  bool_decide (other = node)
  || match levels with
     | 0 => false
     | S levels' =>
         existsb (λ child, containsWithin levels' page child other)
                 (childNodes page !!! node)
     end.

(** [containerElement.contains(element)]; [false] for [null]. *)
Definition contains (page : Page) (containerElement : Element)
    (element : option Element) : bool :=
  match element with
  | None => false
  | Some e => containsWithin (size (childNodes page)) page containerElement e
  end.

(** The child lists once [element] has left its parent. *)
Definition detach (element : Element) (m : gmap Element (list Element))
  : gmap Element (list Element) :=
  filter (λ node, node ≠ element) <$> m.

Definition withChildNodes (page : Page) (m : gmap Element (list Element)) : Page :=
  {| getElementById := getElementById page;
     querySelector := querySelector page;
     shadowRoot := shadowRoot page;
     childNodes := m |}.

(** [getRender(appName, appContent, legacyRender)]: the [render] it returns.
    [appendChild] takes the element away from the parent it had, and throws
    a HierarchyRequestError for an element that contains the container. *)
Definition getRender (env : Env) (appName appContent : string)
    (legacyRender : option HTMLContentRender)
  : Props → Phase → Page → Page * Result () :=
  λ props phase page,
    match legacyRender with
    | Some legacy =>
        legacy (isLoading props)
               match element props with Some _ => appContent | None => "" end
               page
    | None =>
        let containerElement := getContainer env page (container props) in
        let asserted :=
          if bool_decide (phase ≠ unmounted)
          then assertElementExist containerElement
                 (Some (errorMsg env appName (container props) phase))
          else Returns () in
        match asserted with
        | Throws e => (page, Throws e)
        | Returns _ =>
            match containerElement with
            | Some c =>
                if negb (contains page c (element props)) then
                  (* clear the container *)
                  let cleared := <[c := []]> (childNodes page) in
                  (* append the element to container if it exist *)
                  match element props with
                  | Some e =>
                      if contains page e (Some c)
                      then (withChildNodes page cleared, Throws HierarchyRequestError)
                      else (withChildNodes page (<[c := [e]]> (detach e cleared)),
                            Returns ())
                  | None => (withChildNodes page cleared, Returns ())
                  end
                else (page, Returns ())
            | None => (page, Returns ())
            end
        end
    end.

End Loader.

(** ** Concrete pages, used to run the model *)

Module Examples.

(** The setters of the page store what they are given: afterwards the
    accessor properties behind which the setter stands read that value. *)
Definition hasSetter (f : Ref) (d : PropertyDescriptor) : bool :=
  match d with
  | AccessorDesc _ (Some f') _ _ => bool_decide (f' = f)
  | _ => false
  end.

Definition storing (f : Ref) (v : Value) (W : JSObject) : gmap PropertyKey Value :=
  (λ _ : PropertyDescriptor, v) <$> filter (λ kd, hasSetter f kd.2 = true) (own W).

(** The setter of [location] (the host function 3) navigates, and throws
    when it is called on anything but the window. *)
Definition host : Host :=
  {| NODE_ENV := Production; QIANKUN_DEVELOPMENT := false;
     getTargetValue := λ _ v, v;
     callSetter := λ f this v W,
       if bool_decide (f = RefHost 3)
       then (if bool_decide (this = RefWindow) then Some ∅ else None)
       else Some (storing f v W);
     callFunction := λ _ _ _ _, None |}.

(** A few of the properties an object literal inherits from
    [Object.prototype]. *)
Definition objectPrototype : gmap PropertyKey PropertyDescriptor :=
  {[ PString "toString" := DataDesc (VFunction (RefHost 100)) true false true;
     PString "hasOwnProperty" :=
       DataDesc (VFunction RefObjectPrototypeHasOwnProperty) true false true;
     PString "__proto__" :=
       AccessorDesc (Some (VObject (RefHost 102))) (Some (RefHost 103)) false true ]}.

(** A top-level browser window, with the descriptors Chrome reports, a
    global [counter] declared with [var] by the host page (hence not
    configurable), a configurable global [title], and a symbol-keyed
    property. *)
Definition browserWindow : JSObject :=
  {| own :=
       {[ PString "window" := AccessorDesc (Some (VObject RefWindow)) None true false;
          PString "document" := AccessorDesc (Some (VObject (RefHost 1))) None true false;
          PString "location" :=
            AccessorDesc (Some (VObject (RefHost 2))) (Some (RefHost 3)) true false;
          PString "top" := AccessorDesc (Some (VObject RefWindow)) None true false;
          PString "parent" :=
            AccessorDesc (Some (VObject RefWindow)) (Some (RefHost 4)) true true;
          PString "self" :=
            AccessorDesc (Some (VObject RefWindow)) (Some (RefHost 5)) true true;
          PString "globalThis" := DataDesc (VObject RefWindow) true false true;
          PString "name" :=
            AccessorDesc (Some (VString "")) (Some (RefHost 6)) true true;
          PString "counter" := DataDesc (VNumber 0) true true false;
          PString "title" := DataDesc (VString "host") true true true;
          PSymbol "tag" := DataDesc (VNumber 0) true true true ]};
     inherited := objectPrototype;
     extensible := true |}.

(** The same window inside a frame: [parent] and [top] are another window. *)
Definition framedWindow : JSObject :=
  withOwn browserWindow
    (<[PString "parent" := AccessorDesc (Some (VObject (RefHost 7))) (Some (RefHost 4)) true true]>
       (<[PString "top" := AccessorDesc (Some (VObject (RefHost 8))) None true false]>
          (own browserWindow))).

(** Sandboxes "A" and "B" constructed on [browserWindow]. *)
Definition sandboxA : ProxySandbox.ProxySandbox :=
  (ProxySandbox.new host objectPrototype "A" 1 browserWindow 0).1.

Definition sandboxB : ProxySandbox.ProxySandbox :=
  (ProxySandbox.new host objectPrototype "B" 2 browserWindow 1).1.

(** A page without any container or wrapper element in it. *)
Definition emptyPage : Loader.Page :=
  {| Loader.getElementById := λ _, None;
     Loader.querySelector := λ _, None;
     Loader.shadowRoot := λ _, None;
     Loader.childNodes := ∅ |}.

Definition loaderEnv : Loader.Env :=
  {| Loader.getWrapperId := λ id, String.append "__qiankun_microapp_wrapper_for_" id;
     Loader.getContainer :=
       λ page container,
         match container with
         | Some (Loader.Selector s) => Loader.querySelector page s
         | Some (Loader.ContainerElement e) => Some e
         | None => None
         end;
     Loader.supportShadowDOM := true;
     Loader.elementToString := λ _, "[object HTMLDivElement]" |}.

(** A custom render function that draws nothing and succeeds. *)
Definition customRender : Loader.HTMLContentRender :=
  λ _ _ page, (page, Loader.Returns ()).

End Examples.

(** ** sandbox/proxySandbox.ts: the other traps of the handler *)

Module ProxySandboxHandler.

Import ProxySandbox.

(** [uniq(array)]: [filter] with a null-prototype object as the record of
    the elements met so far. *)
Fixpoint uniqFrom (this : gset PropertyKey) (array : list PropertyKey)
  : list PropertyKey :=
  match array with
  | [] => []
  | element :: rest =>
      if bool_decide (element ∈ this) then uniqFrom this rest
      else element :: uniqFrom ({[element]} ∪ this) rest
  end.

Definition uniq (array : list PropertyKey) : list PropertyKey :=
  uniqFrom ∅ array.

(** The module-level [unscopables] table, an object literal. *)
Definition unscopables (objectPrototype : gmap PropertyKey PropertyDescriptor)
  : JSObject :=
  {| own :=
       list_to_map
         ((λ k : string, (PString k, DataDesc (VBool true) true true true))
            <$> ["undefined"; "Array"; "Object"; "String"; "Boolean"; "Math";
                 "Number"; "Symbol"; "parseFloat"; "Float32Array"]);
     inherited := objectPrototype;
     extensible := true |}.

(** The [has] trap. *)
Definition has (objectPrototype : gmap PropertyKey PropertyDescriptor)
    (sb : ProxySandbox) (rawWindow : JSObject) (p : PropertyKey) : bool :=
  hasProperty (unscopables objectPrototype) p
  || hasProperty (fakeWindow sb) p
  || hasProperty rawWindow p.

(** [type SymbolTarget = 'target' | 'rawWindow'] *)
Inductive SymbolTarget := FromTarget | FromRawWindow.

#[global] Instance SymbolTarget_eq_dec : EqDecision SymbolTarget.
Proof. solve_decision. Defined.

Definition withConfigurable (d : PropertyDescriptor) (c : bool) : PropertyDescriptor :=
  match d with
  | DataDesc v w e _ => DataDesc v w e c
  | AccessorDesc g s e _ => AccessorDesc g s e c
  end.

(** The [getOwnPropertyDescriptor] trap: the descriptor it reports and the
    [descriptorTargetMap] of the sandbox afterwards. *)
Definition getOwnPropertyDescriptor (h : Host) (sb : ProxySandbox)
    (rawWindow : JSObject) (descriptorTargetMap : gmap PropertyKey SymbolTarget)
    (p : PropertyKey)
  : Completion (option PropertyDescriptor) * gmap PropertyKey SymbolTarget :=
  let target := fakeWindow sb in
  match call_hasOwnProperty h (RefFakeWindow (ident sb)) target p with
  | Normal true =>
      (Normal (JS.getOwnPropertyDescriptor target p),
       <[p := FromTarget]> descriptorTargetMap)
  | Normal false =>
      match call_hasOwnProperty h RefWindow rawWindow p with
      | Normal true =>
          (Normal match JS.getOwnPropertyDescriptor rawWindow p with
                  | Some descriptor =>
                      if negb (configurable descriptor)
                      then Some (withConfigurable descriptor true)
                      else Some descriptor
                  | None => None
                  end,
           <[p := FromRawWindow]> descriptorTargetMap)
      | Normal false => (Normal None, descriptorTargetMap)
      | Throw e => (Throw e, descriptorTargetMap)
      end
  | Throw e => (Throw e, descriptorTargetMap)
  end.

(** [Reflect.ownKeys(o)]: the own keys, each once (in the enumeration order
    of the map that holds them, which need not be the engine's order). *)
Definition Reflect_ownKeys (o : JSObject) : list PropertyKey :=
  (map_to_list (own o)).*1.

(** The [ownKeys] trap. *)
Definition ownKeys (sb : ProxySandbox) (rawWindow : JSObject) : list PropertyKey :=
  uniq (Reflect_ownKeys rawWindow ++ Reflect_ownKeys (fakeWindow sb)).

(** [Reflect.defineProperty(o, p, attributes)], for data and generic
    attributes: the object afterwards and the boolean reported. *)
Definition Reflect_defineProperty (o : JSObject) (p : PropertyKey)
    (attributes : Attributes) : JSObject * bool :=
  match validateAndApply o p attributes with
  | Some o' => (o', true)
  | None => (o, false)
  end.

(** The [defineProperty] trap, for data and generic attributes. *)
Definition defineProperty (sb : ProxySandbox) (rawWindow : JSObject)
    (descriptorTargetMap : gmap PropertyKey SymbolTarget) (p : PropertyKey)
    (attributes : Attributes) : Outcome bool :=
  match descriptorTargetMap !! p with
  | Some FromRawWindow =>
      let '(rawWindow', done) := Reflect_defineProperty rawWindow p attributes in
      mkOutcome sb rawWindow' (Normal done)
  | _ =>
      let '(target', done) := Reflect_defineProperty (fakeWindow sb) p attributes in
      mkOutcome (withFakeWindow sb target') rawWindow (Normal done)
  end.

End ProxySandboxHandler.

(** ** addons/engineFlag.ts, with the facade of a [ProxySandbox] as [global] *)

Module EngineFlag.

Definition POWERED_BY_QIANKUN : PropertyKey := PString "__POWERED_BY_QIANKUN__".

(** [global.__POWERED_BY_QIANKUN__ = true] *)
Definition assignFlag (h : Host) (sb : ProxySandbox.ProxySandbox)
    (rawWindow : JSObject) : ProxySandbox.Outcome () :=
  ProxySandbox.assignThroughProxy h sb rawWindow POWERED_BY_QIANKUN (VBool true).

Definition beforeLoad := assignFlag.

Definition beforeMount := assignFlag.

(** [delete global.__POWERED_BY_QIANKUN__] *)
Definition beforeUnmount (h : Host) (sb : ProxySandbox.ProxySandbox)
    (rawWindow : JSObject) : ProxySandbox.Outcome () :=
  ProxySandbox.deleteThroughProxy h sb rawWindow POWERED_BY_QIANKUN.

End EngineFlag.

(** ** prefetch.ts *)

Module Prefetch.

(** [AppMetadata] *)
Record AppMetadata := mkAppMetadata {
  name : string;
  entry : string;
}.

(** [timeRemaining()] of the [requestIdleCallback] shim, [start] and [now]
    being values of [Date.now()]. *)
Definition timeRemaining (start now : Z) : Z :=
  Z.max 0 (50 - (now - start)).

(** What [doPrefetchStrategy] sets going. *)
Inductive Action :=
| prefetchImmediately (apps : list AppMetadata)
| prefetchAfterFirstMounted (apps : list AppMetadata).

(** [PrefetchStrategy]; for a function, what the promise it returns
    resolves to ([criticalAppNames], [minorAppsName], each possibly
    missing). *)
Inductive PrefetchStrategy :=
| StrategyBool (b : bool)
| StrategyString (s : string)
| StrategyNames (names : list string)
| StrategyFunction
    (f : list AppMetadata → option (list string) * option (list string)).

Definition appsName2Apps (apps : list AppMetadata) (names : list string)
  : list AppMetadata :=
  filter (λ app, name app ∈ names) apps.

(** [doPrefetchStrategy(apps, prefetchStrategy, importEntryOpts)], once the
    promise of a function strategy has resolved. *)
Definition doPrefetchStrategy (apps : list AppMetadata)
    (prefetchStrategy : PrefetchStrategy) : list Action :=
  match prefetchStrategy with
  | StrategyNames names => [prefetchAfterFirstMounted (appsName2Apps apps names)]
  | StrategyFunction f =>
      let '(criticalAppNames, minorAppsName) := f apps in
      [prefetchImmediately (appsName2Apps apps (default [] criticalAppNames));
       prefetchAfterFirstMounted (appsName2Apps apps (default [] minorAppsName))]
  | StrategyBool true => [prefetchAfterFirstMounted apps]
  | StrategyString s =>
      if bool_decide (s = "all") then [prefetchImmediately apps] else []
  | StrategyBool false => []
  end.

(** The applications an action names. *)
Definition scheduled (a : Action) : list AppMetadata :=
  match a with
  | prefetchImmediately apps => apps
  | prefetchAfterFirstMounted apps => apps
  end.

End Prefetch.

(** ** apis.ts *)

Module Apis.

(** [RegistrableApp], without its function-valued fields. *)
Record RegistrableApp := mkApp {
  name : string;
  entry : string;
  container : string;
  activeRule : string;
}.

(** [registerMicroApps(apps, lifeCycles)]: the module's [microApps]
    afterwards, and the applications handed to [registerApplication], in
    order. *)
Definition registerMicroApps (microApps apps : list RegistrableApp)
  : list RegistrableApp * list RegistrableApp :=
  let unregisteredApps :=
    filter (λ app, ¬ Exists (λ registeredApp, name registeredApp = name app) microApps)
           apps in
  (microApps ++ unregisteredApps, unregisteredApps).

(** [sandbox?: boolean | { strictStyleIsolation?, experimentalStyleIsolation?,
    loose? }] *)
Inductive SandboxOption :=
| SandboxFlag (b : bool)
| SandboxObject (strictStyleIsolation experimentalStyleIsolation loose : option bool).

(** [singular?: boolean | ((app) => Promise<boolean>)], the function seen
    as a test on the name of the application. *)
Inductive SingularOption :=
| SingularFlag (b : bool)
| SingularFunction (validate : string → bool).

(** The fields of [FrameworkConfiguration] that [start] reads; [None] is a
    key the object does not have. *)
Record FrameworkConfiguration := mkConfiguration {
  prefetch : option Prefetch.PrefetchStrategy;
  singular : option SingularOption;
  sandbox : option SandboxOption;
  urlRerouteOnly : option bool;
}.

(** [{ prefetch: true, singular: true, sandbox: true, ...opts }] *)
Definition withDefaults (opts : FrameworkConfiguration) : FrameworkConfiguration :=
  {| prefetch := Some (default (Prefetch.StrategyBool true) (prefetch opts));
     singular := Some (default (SingularFlag true) (singular opts));
     sandbox := Some (default (SandboxFlag true) (sandbox opts));
     urlRerouteOnly := urlRerouteOnly opts |}.

(** Truthiness of the [sandbox] option. *)
Definition sandboxEnabled (s : option SandboxOption) : bool :=
  match s with
  | Some (SandboxFlag b) => b
  | Some (SandboxObject _ _ _) => true
  | None => false
  end.

(** [start(opts)]: the [frameworkConfiguration] it leaves; [hasProxy] is
    the truthiness of [window.Proxy]. *)
Definition start (hasProxy : bool) (opts : FrameworkConfiguration)
  : FrameworkConfiguration :=
  let frameworkConfiguration := withDefaults opts in
  if sandboxEnabled (sandbox frameworkConfiguration) && negb hasProxy then
    {| prefetch := prefetch frameworkConfiguration;
       singular := singular frameworkConfiguration;
       sandbox :=
         Some match sandbox frameworkConfiguration with
              | Some (SandboxObject s e _) => SandboxObject s e (Some true)
              | _ => SandboxObject None None (Some true)
              end;
       urlRerouteOnly := urlRerouteOnly frameworkConfiguration |}
  else frameworkConfiguration.

(** In [loadApp]: [typeof sandbox === 'object' && !!sandbox.loose], with
    [sandbox = true] when the configuration has no such key. *)
Definition useLooseSandbox (configuration : FrameworkConfiguration) : bool :=
  match default (SandboxFlag true) (sandbox configuration) with
  | SandboxObject _ _ (Some true) => true
  | _ => false
  end.

(** In [loadApp]: [typeof sandbox === 'object' &&
    !!sandbox.strictStyleIsolation]. *)
Definition strictStyleIsolation (configuration : FrameworkConfiguration) : bool :=
  match default (SandboxFlag true) (sandbox configuration) with
  | SandboxObject (Some true) _ _ => true
  | _ => false
  end.

(** The three sandbox classes. *)
Inductive SandBoxType := Proxy | Snapshot | LegacyProxy.

(** In [createSandboxContainer]: the class that is instantiated. *)
Definition sandboxType (hasProxy useLooseSandbox : bool) : SandBoxType :=
  if hasProxy then (if useLooseSandbox then LegacyProxy else Proxy)
  else Snapshot.

End Apis.

(** ** loader.ts: the lifecycles of an entry *)

Module LoaderExports.

Import Loader.

Local Open Scope string_scope.

(** Truthiness of [globalLatestSetProp: PropertyKey | null]. *)
Definition truthyKey (p : option PropertyKey) : bool :=
  match p with
  | None => false
  | Some (PString s) => negb (bool_decide (s = ""))
  | Some (PSymbol _) => true
  end.

(** [getLifecyclesFromExports(scriptExports, appName, global,
    globalLatestSetProp)]; [validateExportLifecycle] is the test of
    [./utils], and [global] is read through [get]. *)
Definition getLifecyclesFromExports (validateExportLifecycle : Value → bool)
    (scriptExports : Value) (appName : string) (get : PropertyKey → Value)
    (globalLatestSetProp : option PropertyKey) : Result Value :=
  if validateExportLifecycle scriptExports then Returns scriptExports
  else
    let fallback :=
      let globalVariableExports := get (PString appName) in
      if validateExportLifecycle globalVariableExports
      then Returns globalVariableExports
      else Throws (QiankunError
                     ("You need to export lifecycle functions in "
                      +:+ appName +:+ " entry")) in
    match globalLatestSetProp with
    | Some p =>
        if truthyKey globalLatestSetProp then
          let lifecycles := get p in
          if validateExportLifecycle lifecycles then Returns lifecycles
          else fallback
        else fallback
    | None => fallback
    end.

End LoaderExports.

(** ** loader.ts: the chain of lifecycle hooks *)

Module LoaderHooks.

Import Loader.

Section Hooks.

(** What the hooks act on: the application's global object and the page. *)
Context {World : Type}.

(** [LifeCycleFn]: an asynchronous hook, by the world it leaves and whether
    its promise is fulfilled or rejected. *)
Definition LifeCycleFn : Type := World → World * Result ().

(** [chain.then(() => hook(app, global))] *)
Definition andThen (chain : World * Result ()) (hook : LifeCycleFn)
  : World * Result () :=
  match chain.2 with
  | Returns _ => hook chain.1
  | Throws e => (chain.1, Throws e)
  end.

(** [execHooksChain(hooks, app, global)]: [reduce] from [Promise.resolve()];
    an empty array gives [Promise.resolve()] on either path. *)
Definition execHooksChain (hooks : list LifeCycleFn) (w : World)
  : World * Result () :=
  if bool_decide (length hooks ≠ 0)
  then foldl andThen (w, Returns ()) hooks
  else (w, Returns ()).

End Hooks.

End LoaderHooks.

(** ** loader.ts: [loadApp] around the wrapper getter *)

Module LoadApp.

Import Loader LoaderHooks.

(** What [loadApp] has at hand once the entry has been imported. *)
Record App := mkApp {
  appName : string;
  appInstanceId : string;
  (** the template in its wrapper *)
  appContent : string;
  (** [app.render], when the application brings one *)
  legacyRender : option HTMLContentRender;
  (** [app.container] *)
  initialContainer : option Container;
  strictStyleIsolation : bool;
  scopedCSS : bool;
  (** the element [createElement] returns *)
  initialAppWrapperElement : Element;
}.

(** The wrapper getter of an application (l.334 and l.424). *)
Definition appWrapperGetter (env : Env) (app : App)
  : Page → list Lookup * Result (option Element) :=
  getAppWrapperGetter env (appName app) (appInstanceId app)
    (bool_decide (is_Some (legacyRender app)))
    (strictStyleIsolation app) (scopedCSS app)
    (λ _, Some (initialAppWrapperElement app)).

(** [loadApp], from the creation of the wrapper element (l.316) to the
    creation of the wrapper getter (l.334): the first render, then the
    getter is built and not yet invoked.  The result is the page afterwards
    with the getter, or with what was thrown. *)
Definition loadApp (env : Env) (app : App) (page : Page)
  : Page * Result (Page → list Lookup * Result (option Element)) :=
  let render := getRender env (appName app) (appContent app) (legacyRender app) in
  let rendered :=
    render {| element := Some (initialAppWrapperElement app);
              isLoading := true;
              container := initialContainer app |} loading page in
  match rendered.2 with
  | Returns _ => (rendered.1, Returns (appWrapperGetter env app))
  | Throws e => (rendered.1, Throws e)
  end.

(** The [mount] chain of the parcel config at the first mount into the
    initial container, from the render of the ['mounting'] phase (l.443) to
    the evaluation of the argument of the application's [mount] (l.451):
    the render, then [mountSandbox], then the [beforeMount] hooks, then the
    call of the wrapper getter.  The result is the page afterwards with the
    container handed to the application, or with what was thrown. *)
Definition mount (env : Env) (app : App) (mountSandbox : @LifeCycleFn Page)
    (beforeMount : list (@LifeCycleFn Page)) (page : Page)
  : Page * Result (option Element) :=
  let render := getRender env (appName app) (appContent app) (legacyRender app) in
  let steps : list (@LifeCycleFn Page) :=
    [render {| element := Some (initialAppWrapperElement app);
               isLoading := true;
               container := initialContainer app |} mounting;
     mountSandbox;
     execHooksChain beforeMount] in
  let before := execHooksChain steps page in
  match before.2 with
  | Returns _ => (before.1, (appWrapperGetter env app before.1).2)
  | Throws e => (before.1, Throws e)
  end.

End LoadApp.

(** ** sandbox/legacy/sandbox.ts: mount cycles *)

Module SingularProxySandboxCycles.

Import SingularProxySandbox.

(** The life of a sandbox between two mounts: the facade writes of the
    application, then [inactive()], then [active()]; one such round after
    the other, stopping at the first call that ends abruptly. *)
Fixpoint remounts (h : Host) (sb : SingularProxySandbox) (rawWindow : JSObject)
    (rounds : list (list (PropertyKey * Value))) : Outcome () :=
  match rounds with
  | [] => mkOutcome sb rawWindow (Normal ())
  | ws :: rest =>
      let run := writes h sb rawWindow ws in
      match completion run with
      | Normal _ =>
          let off := inactive h (sandbox run) (window run) in
          match completion off with
          | Normal _ =>
              let on := active h (sandbox off) (window off) in
              match completion on with
              | Normal _ => remounts h (sandbox on) (window on) rest
              | _ => on
              end
          | _ => off
          end
      | Throw e => mkOutcome (sandbox run) (window run) (Throw e)
      end
  end.

End SingularProxySandboxCycles.

(** ** More concrete inputs *)

Module MoreExamples.

Import Examples.

(** The shared window after sandbox "A" has set [System]. *)
Definition windowWithSystem : JSObject :=
  Eval vm_compute in
    ProxySandbox.window
      (ProxySandbox.set host sandboxA browserWindow (PString "System") (VNumber 1)).

(** An application that brings a legacy render function and sets the
    scoped-CSS flag; [createElement] gave it the element 7. *)
Definition misconfigured : LoadApp.App :=
  {| LoadApp.appName := "app";
     LoadApp.appInstanceId := "app_1";
     LoadApp.appContent := "<div></div>";
     LoadApp.legacyRender := Some customRender;
     LoadApp.initialContainer := None;
     LoadApp.strictStyleIsolation := false;
     LoadApp.scopedCSS := true;
     LoadApp.initialAppWrapperElement := 7 |}.





(** Sandbox "A" of [browserWindow] after the application has run
    [window.hasOwnProperty = 1] in it. *)
Definition shadowedSandboxA : ProxySandbox.ProxySandbox :=
  Eval vm_compute in
    ProxySandbox.sandbox
      (ProxySandbox.set host sandboxA browserWindow (PString "hasOwnProperty")
         (VNumber 1)).

End MoreExamples.

(* ===================================================================== *)
(** * Part II: the theorems                                               *)
(* ===================================================================== *)

(** ** The object model *)

Module JSFacts.

Lemma hasOwnProperty_true o p :
  hasOwnProperty o p = true ↔ is_Some (own o !! p).
Proof. unfold hasOwnProperty. by rewrite bool_decide_eq_true. Qed.

Lemma hasOwnProperty_false o p :
  hasOwnProperty o p = false ↔ own o !! p = None.
Proof.
  unfold hasOwnProperty. rewrite bool_decide_eq_false.
  by rewrite eq_None_not_Some.
Qed.

Lemma hasOwnProperty_Some o p d :
  own o !! p = Some d → hasOwnProperty o p = true.
Proof. intros H. apply hasOwnProperty_true. eauto. Qed.





(** *** Method calls and assignments *)

(** Where [o.hasOwnProperty] is the built-in function, the call answers as
    the built-in does. *)
Lemma call_hasOwnProperty_builtin h this o p :
  builtinHasOwnProperty o →
  call_hasOwnProperty h this o p = Normal (hasOwnProperty o p).
Proof.
  unfold builtinHasOwnProperty, call_hasOwnProperty. intros ->.
  by rewrite bool_decide_eq_true_2.
Qed.

(** Where [o.hasOwnProperty] is not a function, the call is a TypeError. *)
Lemma call_hasOwnProperty_shadowed h this o p :
  (∀ f, getProp o (PString "hasOwnProperty") ≠ VFunction f) →
  call_hasOwnProperty h this o p = ThrowTypeError.
Proof.
  unfold call_hasOwnProperty. intros H.
  destruct (getProp o (PString "hasOwnProperty")) as [| | | | | |f]; try done.
  by destruct (H f).
Qed.

Lemma assignment_Calls o p v f :
  assignment o p v = Calls f ↔ setterOf o p = Some f.
Proof.
  unfold assignment, setterOf.
  destruct (own o !! p) as [[v0 [] e c|g [f'|] e c]|]; try (split; congruence).
  destruct (inherited o !! p) as [[v0 [] e c|g [f'|] e c]|];
    destruct (extensible o); split; congruence.
Qed.

Lemma assignment_no_setter o p v :
  setterOf o p = None →
  assignment o p v = Fails ∨ ∃ o', assignment o p v = Stores o'.
Proof.
  intros H. destruct (assignment o p v) as [o'| |f] eqn:E; eauto.
  apply assignment_Calls in E. congruence.
Qed.

(** A stored value is an own, writable data property that holds it; all
    else is as it was. *)
Lemma assignment_Stores o o' p v :
  assignment o p v = Stores o' →
  ∃ e c, o' = withOwn o (<[p := DataDesc v true e c]> (own o)).
Proof.
  unfold assignment. intros H.
  destruct (own o !! p) as [[v0 [] e c|g [f|] e c]|]; simplify_eq; eauto.
  destruct (inherited o !! p) as [[v0 [] e c|g [f|] e c]|];
    destruct (extensible o); simplify_eq; eauto.
Qed.

Lemma assignment_fresh o o' p v :
  own o !! p = None → assignment o p v = Stores o' →
  o' = withOwn o (<[p := DataDesc v true true true]> (own o)).
Proof.
  unfold assignment. intros -> H.
  destruct (inherited o !! p) as [[v0 [] e c|g [f|] e c]|];
    destruct (extensible o); by simplify_eq.
Qed.

(** An assignment on the shared window that reaches no setter. *)
Lemma assignWindow_no_setter h W p v :
  setterOf W p = None →
  assignWindow h W p v
  = match assignment W p v with
    | Stores W' => Normal W'
    | _ => ThrowTypeError
    end.
Proof.
  intros H. unfold assignWindow.
  destruct (assignment W p v) as [W'| |f] eqn:E; try done.
  apply assignment_Calls in E. congruence.
Qed.

(** An assignment on an overlay that reaches no setter leaves the shared
    window alone. *)
Lemma assignOverlay_no_setter h id target W p v :
  setterOf target p = None →
  assignOverlay h id target W p v
  = match assignment target p v with
    | Stores target' => Normal (target', W)
    | _ => ThrowTypeError
    end.
Proof.
  intros H. unfold assignOverlay.
  destruct (assignment target p v) as [t'| |f] eqn:E; try done.
  apply assignment_Calls in E. congruence.
Qed.

(** A setter leaves the overlay it is called on as it was. *)
Lemma assignOverlay_setter h id target W p v f r :
  setterOf target p = Some f →
  assignOverlay h id target W p v = Normal r →
  r.1 = target.
Proof.
  intros H. unfold assignOverlay. apply assignment_Calls with (v := v) in H.
  rewrite H. destruct (callSetter h f _ v W); by intros [= <-].
Qed.

(** What a setter leaves of the shared window: the same keys, with the
    same descriptors but for what the getters read. *)
Lemma afterSetter_own W m p :
  own (afterSetter W m) !! p = reading m p <$> own W !! p.
Proof.
  unfold afterSetter. simpl. rewrite map_lookup_imap.
  by destruct (own W !! p).
Qed.

Lemma afterSetter_inherited W m p :
  inherited (afterSetter W m) !! p = reading m p <$> inherited W !! p.
Proof.
  unfold afterSetter. simpl. rewrite map_lookup_imap.
  by destruct (inherited W !! p).
Qed.

Lemma afterSetter_hasProperty W m p :
  hasProperty (afterSetter W m) p = hasProperty W p.
Proof.
  unfold hasProperty. rewrite afterSetter_own, afterSetter_inherited.
  f_equal; apply bool_decide_ext; by rewrite fmap_is_Some.
Qed.

End JSFacts.

Import JSFacts.

(** ** The multi-instance sandbox *)

Module ProxySandboxSpec.

Import ProxySandbox Examples MoreExamples.

(** The keys the [get] trap answers before it looks at either object. *)
Definition shortCircuited (h : Host) (p : PropertyKey) : bool :=
  bool_decide (p = Symbol_unscopables)
  || bool_decide (p = PString "window") || bool_decide (p = PString "self")
  || bool_decide (p = PString "globalThis")
  || bool_decide (p = PString "top") || bool_decide (p = PString "parent")
  || isTestMock h p
  || bool_decide (p = PString "hasOwnProperty")
  || bool_decide (p = PString "document") || bool_decide (p = PString "eval").


(** The [get] trap on a key it does not short-circuit. *)
Lemma get_plain h sb W p :
  shortCircuited h p = false →
  get h sb W p =
    getTargetValue h RefWindow
      (if bool_decide (p ∈ propertiesWithGetter sb) then getProp W p
       else if hasProperty (fakeWindow sb) p then getProp (fakeWindow sb) p
       else getProp W p).
Proof.
  unfold shortCircuited, get. intros H.
  repeat (apply orb_false_elim in H as [H ?]).
  repeat match goal with Hx : _ = false |- _ => rewrite Hx; clear Hx end.
  done.
Qed.






(** C2, as amended.  While [sandboxRunning] is false the [set] trap, for
    any key and value, returns [true] and changes nothing: the overlay,
    [updatedValueSet], [latestSetProp] and the shared window are what they
    were.  The assignment through the facade changes nothing either, but
    it does not always complete: after the trap has answered, the Proxy
    throws a TypeError when the overlay holds the key as a non-configurable
    accessor without setter, or as a non-configurable, non-writable data
    property with another value. *)
Theorem set_while_inactive_is_dropped (h : Host) (sb : ProxySandbox)
    (W : JSObject) (p : PropertyKey) (v : Value) :
  sandboxRunning sb = false →
  let o := set h sb W p v in
  let a := assignThroughProxy h sb W p v in
  completion o = Normal true
  ∧ fakeWindow (sandbox o) = fakeWindow sb
  ∧ updatedValueSet (sandbox o) = updatedValueSet sb
  ∧ latestSetProp (sandbox o) = latestSetProp sb
  ∧ sandbox o = sb
  ∧ window o = W
  ∧ sandbox a = sb
  ∧ window a = W
  ∧ completion a
    = match own (fakeWindow sb) !! p with
      | Some (DataDesc v0 false _ false) =>
          if bool_decide (v = v0) then Normal () else ThrowTypeError
      | Some (AccessorDesc _ None _ false) => ThrowTypeError
      | _ => Normal ()
      end.
Proof.
  intros Hr. unfold assignThroughProxy, set. rewrite Hr. simpl.
  repeat split; try done.
  unfold setInvariant.
  destruct (own (fakeWindow sb) !! p) as [[v0 [] e []|g [f|] e []]|]; try done.
Qed.

Lemma set_while_inactive_is_dropped_witness :
  let sb := withSandboxRunning sandboxA false in
  sandboxRunning sb = false
  ∧ (let o := set host sb browserWindow (PString "foo") (VNumber 1) in
     let a := assignThroughProxy host sb browserWindow (PString "foo") (VNumber 1) in
     completion o = Normal true
     ∧ sandbox o = sb
     ∧ window o = browserWindow
     ∧ sandbox a = sb
     ∧ window a = browserWindow
     ∧ completion a = Normal ()).
Proof.
  split; [reflexivity|].
  destruct (set_while_inactive_is_dropped host (withSandboxRunning sandboxA false)
              browserWindow (PString "foo") (VNumber 1) eq_refl)
    as (H1 & _ & _ & _ & H2 & H3 & H4 & H5 & H6).
  split; [exact H1|]. split; [exact H2|]. split; [exact H3|].
  split; [exact H4|]. split; [exact H5|exact H6].
Defined.

(** C2 as stated fails at [document], which every overlay holds as a
    non-configurable accessor without setter: the trap of the inactive
    sandbox returns [true], and the assignment through the facade throws a
    TypeError. *)
Lemma set_while_inactive_is_dropped_counterexample :
  let sb := withSandboxRunning sandboxA false in
  sandboxRunning sb = false
  ∧ own (fakeWindow sb) !! PString "document"
    = Some (AccessorDesc (Some (VObject (RefHost 1))) None true false)
  ∧ completion (set host sb browserWindow (PString "document") (VNumber 1))
    = Normal true
  ∧ completion (assignThroughProxy host sb browserWindow (PString "document")
                  (VNumber 1))
    = ThrowTypeError.
Proof. repeat split; vm_compute; reflexivity. Qed.

(** C3, as amended.  In an active sandbox whose overlay is extensible,
    where [hasOwnProperty] is the built-in function on the overlay and on
    the shared window, a [set] of a key [p] that the overlay does not have
    as an own property:
    - where the shared window has [p] as a writable data property, defines
      [p] in the overlay with the new value and the shared descriptor's
      enumerable and configurable attributes (and writable);
    - where the shared window has [p] but not as a writable data property,
      leaves the overlay as it was;
    - where the shared window does not have [p] either, and the overlay
      does not inherit [p] as a read-only or accessor property, writes [p]
      straight into the overlay as a writable, enumerable, configurable
      data property;
    and in each of these cases, when [p] is not allow-listed or its
    write-back to the shared window completes, the trap returns [true], [p]
    is added to [updatedValueSet] and becomes [latestSetProp]. *)
Theorem set_active_writes_overlay (h : Host) (sb : ProxySandbox)
    (W : JSObject) (p : PropertyKey) (v : Value) :
  sandboxRunning sb = true →
  builtinHasOwnProperty (fakeWindow sb) →
  builtinHasOwnProperty W →
  extensible (fakeWindow sb) = true →
  own (fakeWindow sb) !! p = None →
  (p ∉ variableWhiteList h ∨ ∃ W', assignWindow h W p v = Normal W') →
  match inherited (fakeWindow sb) !! p with
  | Some (DataDesc _ false _ _) | Some (AccessorDesc _ _ _ _) => is_Some (own W !! p)
  | _ => True
  end →
  let o := set h sb W p v in
  own (fakeWindow (sandbox o)) =
    match own W !! p with
    | Some d =>
        if writable d
        then <[p := DataDesc v true (enumerable d) (configurable d)]> (own (fakeWindow sb))
        else own (fakeWindow sb)
    | None => <[p := DataDesc v true true true]> (own (fakeWindow sb))
    end
  ∧ completion o = Normal true
  ∧ updatedValueSet (sandbox o) = {[p]} ∪ updatedValueSet sb
  ∧ latestSetProp (sandbox o) = Some p.
Proof.
  intros Hr Hbt HbW Hext Hown Hback Hinh. unfold set. rewrite Hr.
  rewrite !call_hasOwnProperty_builtin by done.
  rewrite (proj2 (hasOwnProperty_false _ _) Hown).
  assert (Hesc : ∃ W', (if bool_decide (p ∈ variableWhiteList h)
                        then assignWindow h W p v else Normal W) = Normal W').
  { destruct Hback as [Hn|[W' HW']].
    - rewrite (bool_decide_eq_false_2 _ Hn). eauto.
    - rewrite HW'. destruct (bool_decide _); eauto. }
  destruct Hesc as [W' HW'].
  destruct (own W !! p) as [d|] eqn:HWp.
  - rewrite (hasOwnProperty_Some _ _ _ HWp).
    unfold getOwnPropertyDescriptor. rewrite HWp.
    destruct (writable d) eqn:Hw.
    + unfold defineProperty, validateAndApply. rewrite Hown, Hext.
      cbn [a_value a_writable a_enumerable a_configurable default].
      rewrite HW'. done.
    + rewrite HW'. done.
  - rewrite (proj2 (hasOwnProperty_false _ _) HWp).
    unfold assignOverlay, assignment. rewrite Hown.
    destruct (inherited (fakeWindow sb) !! p) as [[? [] ? ?|]|];
      try (by destruct Hinh); rewrite Hext, HW'; done.
Qed.

Lemma set_active_writes_overlay_witness :
  sandboxRunning sandboxA = true
  ∧ builtinHasOwnProperty (fakeWindow sandboxA)
  ∧ builtinHasOwnProperty browserWindow
  ∧ extensible (fakeWindow sandboxA) = true
  ∧ own (fakeWindow sandboxA) !! PString "title" = None
  ∧ (let o := set host sandboxA browserWindow (PString "title") (VString "app") in
    own (fakeWindow (sandbox o)) =
      match own browserWindow !! PString "title" with
      | Some d =>
          if writable d
          then <[PString "title" := DataDesc (VString "app") true (enumerable d)
                                     (configurable d)]> (own (fakeWindow sandboxA))
          else own (fakeWindow sandboxA)
      | None => <[PString "title" := DataDesc (VString "app") true true true]>
                  (own (fakeWindow sandboxA))
      end
    ∧ completion o = Normal true
    ∧ updatedValueSet (sandbox o) = {[PString "title"]} ∪ updatedValueSet sandboxA
    ∧ latestSetProp (sandbox o) = Some (PString "title")).
Proof.
  split; [reflexivity|]. split; [vm_compute; reflexivity|].
  split; [vm_compute; reflexivity|]. split; [reflexivity|].
  split; [vm_compute; reflexivity|].
  apply (set_active_writes_overlay host sandboxA browserWindow (PString "title")
           (VString "app")).
  - reflexivity.
  - vm_compute; reflexivity.
  - vm_compute; reflexivity.
  - reflexivity.
  - vm_compute; reflexivity.
  - left. apply (bool_decide_unpack _). vm_compute. exact I.
  - vm_compute. exact I.
Defined.

(** C3 as stated fails on an accessor-backed property of the shared window
    such as [name]: the key exists on the shared window and not in the
    overlay, the trap returns [true] and records the key, but nothing is
    copied into the overlay and the new value is applied nowhere.  It fails
    as well once the application has stored a value under [hasOwnProperty]:
    from then on a [set] of a key that is in neither object throws a
    TypeError and records nothing. *)
Lemma set_active_writes_overlay_counterexample :
  (let o := set host sandboxA browserWindow (PString "name") (VString "app") in
   sandboxRunning sandboxA = true
   ∧ is_Some (own browserWindow !! PString "name")
   ∧ own (fakeWindow sandboxA) !! PString "name" = None
   ∧ completion o = Normal true
   ∧ own (fakeWindow (sandbox o)) !! PString "name" = None
   ∧ fakeWindow (sandbox o) = fakeWindow sandboxA
   ∧ get host (sandbox o) (window o) (PString "name") = VString "")
  ∧ (let shadowed :=
       set host sandboxA browserWindow (PString "hasOwnProperty") (VNumber 1) in
     let o := set host (sandbox shadowed) (window shadowed) (PString "foo")
                (VNumber 2) in
     completion shadowed = Normal true
     ∧ sandboxRunning (sandbox shadowed) = true
     ∧ own (fakeWindow (sandbox shadowed)) !! PString "foo" = None
     ∧ own (window shadowed) !! PString "foo" = None
     ∧ completion o = ThrowTypeError
     ∧ sandbox o = sandbox shadowed).
Proof.
  split.
  - repeat split; try (vm_compute; reflexivity).
    vm_compute. eauto.
  - repeat split; vm_compute; reflexivity.
Qed.


(** C10, as amended.  The [deleteProperty] trap never changes the shared
    window.  Where [hasOwnProperty] is the built-in function on the
    overlay: for a key that is not an own property of the overlay the trap
    returns [true] and changes nothing; for a configurable own property of
    the overlay it removes the key from the overlay and from
    [updatedValueSet], nothing else, and returns [true]; for a
    non-configurable own property of the overlay the strict-mode [delete]
    raises a TypeError and nothing is changed.  Where the overlay holds or
    inherits something that is not a function as its [hasOwnProperty], the
    trap raises a TypeError for every key and nothing is changed. *)
Theorem deleteProperty_frame (h : Host) (sb : ProxySandbox) (W : JSObject)
    (p : PropertyKey) :
  let o := deleteProperty h sb W p in
  window o = W
  ∧ (builtinHasOwnProperty (fakeWindow sb) →
     match own (fakeWindow sb) !! p with
     | None => completion o = Normal true ∧ sandbox o = sb
     | Some d =>
         if configurable d
         then completion o = Normal true
              ∧ sandbox o =
                  withUpdatedValueSet
                    (withFakeWindow sb
                       (withOwn (fakeWindow sb) (delete p (own (fakeWindow sb)))))
                    (updatedValueSet sb ∖ {[p]})
         else completion o = ThrowTypeError ∧ sandbox o = sb
     end)
  ∧ ((∀ f, getProp (fakeWindow sb) (PString "hasOwnProperty") ≠ VFunction f) →
     completion o = ThrowTypeError ∧ sandbox o = sb).
Proof.
  split; [|split].
  - unfold deleteProperty. repeat case_match; done.
  - intros Hb. unfold deleteProperty.
    rewrite call_hasOwnProperty_builtin by done.
    unfold deleteProp, hasOwnProperty.
    destruct (own (fakeWindow sb) !! p) as [d|] eqn:E.
    + rewrite bool_decide_eq_true_2 by eauto.
      by destruct (configurable d).
    + rewrite bool_decide_eq_false_2 by (by apply is_Some_None). done.
  - intros Hs. unfold deleteProperty.
    by rewrite call_hasOwnProperty_shadowed.
Qed.

(** C10 as stated fails on [document], which every overlay holds as a
    non-configurable own property: the trap does not return [true].  It
    fails as well once the application has stored a value under
    [hasOwnProperty]: the trap then throws for every key, that one
    included. *)
Lemma deleteProperty_frame_counterexample :
  (own (fakeWindow sandboxA) !! PString "document"
   = Some (AccessorDesc (Some (VObject (RefHost 1))) None true false)
   ∧ completion (deleteProperty host sandboxA browserWindow (PString "document"))
     = ThrowTypeError)
  ∧ (own (fakeWindow shadowedSandboxA) !! PString "hasOwnProperty"
     = Some (DataDesc (VNumber 1) true true true)
     ∧ completion (deleteProperty host shadowedSandboxA browserWindow (PString "foo"))
       = ThrowTypeError
     ∧ completion (deleteProperty host shadowedSandboxA browserWindow
                     (PString "hasOwnProperty"))
       = ThrowTypeError).
Proof. repeat split; vm_compute; reflexivity. Qed.

End ProxySandboxSpec.

(** ** The single-instance (legacy) sandbox *)

Module SingularProxySandboxSpec.

Import SingularProxySandbox Examples.

(** *** The insertion-ordered maps *)

Lemma Map_set_keys (m : JSMap) p v q :
  q ∈ (Map_set m p v).*1 ↔ q = p ∨ q ∈ m.*1.
Proof.
  induction m as [|[r w] m IH]; simpl.
  - rewrite list_elem_of_singleton. split; [by left|].
    intros [->|H]; [done|]. by apply elem_of_nil in H.
  - case_bool_decide as E; simpl; rewrite !elem_of_cons.
    + subst r. tauto.
    + rewrite IH. tauto.
Qed.

Lemma Map_set_NoDup (m : JSMap) p v :
  NoDup m.*1 → NoDup (Map_set m p v).*1.
Proof.
  induction m as [|[r w] m IH]; simpl; intros Hnd.
  - apply NoDup_singleton.
  - apply NoDup_cons in Hnd as [Hr Hnd].
    case_bool_decide as E; simpl; apply NoDup_cons; split; auto.
    rewrite Map_set_keys. intros [->|H]; done.
Qed.

Lemma elem_of_Map_set (m : JSMap) p v q x :
  NoDup m.*1 →
  (q, x) ∈ Map_set m p v ↔ (q = p ∧ x = v) ∨ (q ≠ p ∧ (q, x) ∈ m).
Proof.
  induction m as [|[r w] m IH]; simpl; intros Hnd.
  - rewrite list_elem_of_singleton. split.
    + intros [= -> ->]. by left.
    + intros [[-> ->]|[_ H]]; [done|]. by apply elem_of_nil in H.
  - apply NoDup_cons in Hnd as [Hr Hnd].
    case_bool_decide as E; rewrite !elem_of_cons.
    + subst r. split.
      * intros [[= -> ->]|H]; [by left|].
        right. split; [|by right].
        intros ->. apply Hr. apply list_elem_of_fmap. by exists (p, x).
      * intros [[-> ->]|[Hne [[= -> ->]|H]]]; [by left|done|by right].
    + rewrite IH by done. split.
      * intros [[= -> ->]|[[-> ->]|[Hne H]]]; [right|left|right]; auto.
      * intros [[-> ->]|[Hne [[= -> ->]|H]]]; [right; by left|by left|right; right; auto].
Qed.

Lemma Map_has_true (m : JSMap) p : Map_has m p = true ↔ p ∈ m.*1.
Proof. unfold Map_has. by rewrite bool_decide_eq_true. Qed.

Lemma Map_has_false (m : JSMap) p : Map_has m p = false ↔ p ∉ m.*1.
Proof. unfold Map_has. by rewrite bool_decide_eq_false. Qed.

Lemma elem_of_keys (m : JSMap) p : p ∈ m.*1 ↔ ∃ v, (p, v) ∈ m.
Proof.
  rewrite list_elem_of_fmap. split.
  - intros [[q v] [-> H]]. by exists v.
  - intros [v H]. by exists (p, v).
Qed.

Section WithHost.

Context (h : Host).

(** *** One call of [setWindowProp] *)

Lemma setWindowProp_restore W p x v e :
  isSymbol p = false →
  own W !! p = Some (DataDesc v true e true) →
  setWindowProp h p x false W
  = (withOwn W (<[p := DataDesc x true e true]> (own W)), Normal ()).
Proof.
  intros Hs Hp. unfold setWindowProp.
  rewrite andb_false_r.
  unfold isPropConfigurable, getOwnPropertyDescriptor. rewrite Hp, Hs. simpl.
  unfold defineProperty, validateAndApply. rewrite Hp. simpl.
  unfold assignWindow, assignment. simpl. rewrite lookup_insert_eq. simpl.
  unfold withOwn. simpl. by rewrite insert_insert_eq.
Qed.

Lemma setWindowProp_create W p x :
  isSymbol p = false →
  own W !! p = None →
  extensible W = true →
  setWindowProp h p x false W
  = (withOwn W (<[p := DataDesc x true false true]> (own W)), Normal ()).
Proof.
  intros Hs Hp He. unfold setWindowProp.
  rewrite andb_false_r.
  unfold isPropConfigurable, getOwnPropertyDescriptor. rewrite Hp, Hs. simpl.
  unfold defineProperty, validateAndApply. rewrite Hp, He. simpl.
  unfold assignWindow, assignment. simpl. rewrite lookup_insert_eq. simpl.
  unfold withOwn. simpl. by rewrite insert_insert_eq.
Qed.

Lemma setWindowProp_delete W p :
  (∀ d, own W !! p = Some d → configurable d = true) →
  ∃ W', setWindowProp h p VUndefined true W = (W', Normal ())
        ∧ inherited W' = inherited W ∧ extensible W' = extensible W
        ∧ own W' = delete p (own W).
Proof.
  intros Hc. unfold setWindowProp. simpl. unfold deleteProp.
  destruct (own W !! p) as [d|] eqn:E.
  - rewrite (Hc d eq_refl). simpl. eauto.
  - simpl. exists W. repeat split. symmetry. by apply delete_id.
Qed.

(** *** The three loops of [inactive] and [active] *)

(** Restoring: every listed key is a writable, configurable data property. *)
Lemma restore_loop (l : JSMap) W :
  (∀ p x, (p, x) ∈ l →
     isSymbol p = false ∧ ∃ v e, own W !! p = Some (DataDesc v true e true)) →
  ∃ W', forEach (λ pv, setWindowProp h pv.1 pv.2 false) l W = (W', Normal ())
        ∧ inherited W' = inherited W ∧ extensible W' = extensible W
        ∧ (∀ q, q ∉ l.*1 → own W' !! q = own W !! q)
        ∧ (∀ q, q ∈ l.*1 → ∃ x v e, (q, x) ∈ l
              ∧ own W !! q = Some (DataDesc v true e true)
              ∧ own W' !! q = Some (DataDesc x true e true)).
Proof.
  revert W. induction l as [|[p x] l IH]; intros W Hl.
  - exists W. simpl. repeat split; try done.
    intros q Hq. by apply elem_of_nil in Hq.
  - destruct (Hl p x) as [Hs (v & e & Hp)]; [by left|].
    simpl. rewrite (setWindowProp_restore W p x v e Hs Hp).
    set (W1 := withOwn W (<[p := DataDesc x true e true]> (own W))).
    destruct (IH W1) as (W' & Hrun & Hi & He & Hout & Hin).
    { intros q y Hq. destruct (Hl q y) as [Hqs (v' & e' & Hq')]; [by right|].
      split; [done|]. simpl.
      destruct (decide (p = q)) as [->|Hne].
      - rewrite lookup_insert_eq. eauto.
      - rewrite lookup_insert_ne by done. eauto. }
    exists W'. split; [done|]. split; [done|]. split; [done|]. split.
    + intros q Hq. simpl in Hq. apply not_elem_of_cons in Hq as [Hne Hq].
      rewrite Hout by done. simpl. by rewrite lookup_insert_ne.
    + intros q Hq. simpl in Hq.
      destruct (decide (q ∈ l.*1)) as [Hql|Hql].
      * destruct (Hin q Hql) as (y & v' & e' & Hy & H1 & H2).
        exists y. simpl in H1.
        destruct (decide (p = q)) as [->|Hne].
        -- rewrite lookup_insert_eq in H1. simplify_eq.
           exists v, e'. split; [by right|]. done.
        -- rewrite lookup_insert_ne in H1 by done.
           exists v', e'. split; [by right|]. done.
      * apply elem_of_cons in Hq as [->|Hq]; [|done].
        exists x, v, e. split; [by left|]. split; [done|].
        rewrite Hout by done. simpl. by rewrite lookup_insert_eq.
Qed.

(** Deleting: every listed key is absent or configurable. *)
Lemma delete_loop (l : JSMap) W :
  (∀ p d, p ∈ l.*1 → own W !! p = Some d → configurable d = true) →
  ∃ W', forEach (λ pv, setWindowProp h pv.1 VUndefined true) l W = (W', Normal ())
        ∧ inherited W' = inherited W ∧ extensible W' = extensible W
        ∧ (∀ q, q ∉ l.*1 → own W' !! q = own W !! q)
        ∧ (∀ q, q ∈ l.*1 → own W' !! q = None).
Proof.
  revert W. induction l as [|[p x] l IH]; intros W Hl.
  - exists W. simpl. repeat split; try done.
    intros q Hq. by apply elem_of_nil in Hq.
  - destruct (setWindowProp_delete W p) as (W1 & Hrun1 & Hi1 & He1 & Ho1).
    { intros d. apply Hl. by left. }
    simpl. rewrite Hrun1.
    destruct (IH W1) as (W' & Hrun & Hi & He & Hout & Hin).
    { intros q d Hq. rewrite Ho1.
      destruct (decide (p = q)) as [->|Hne].
      - by rewrite lookup_delete_eq.
      - rewrite lookup_delete_ne by done. apply Hl. by right. }
    exists W'. split; [done|]. split; [congruence|]. split; [congruence|]. split.
    + intros q Hq. simpl in Hq. apply not_elem_of_cons in Hq as [Hne Hq].
      rewrite Hout by done. rewrite Ho1. by rewrite lookup_delete_ne.
    + intros q Hq. simpl in Hq.
      destruct (decide (q ∈ l.*1)) as [Hql|Hql]; [by apply Hin|].
      apply elem_of_cons in Hq as [->|Hq]; [|done].
      rewrite Hout by done. rewrite Ho1. by rewrite lookup_delete_eq.
Qed.

(** Replaying: every listed key is absent from an extensible window, or a
    writable, configurable data property. *)
Lemma replay_loop (l : JSMap) W :
  NoDup l.*1 →
  (∀ p x, (p, x) ∈ l →
     isSymbol p = false
     ∧ ((own W !! p = None ∧ extensible W = true)
        ∨ ∃ v e, own W !! p = Some (DataDesc v true e true))) →
  ∃ W', forEach (λ pv, setWindowProp h pv.1 pv.2 false) l W = (W', Normal ())
        ∧ inherited W' = inherited W ∧ extensible W' = extensible W
        ∧ (∀ q, q ∉ l.*1 → own W' !! q = own W !! q)
        ∧ (∀ q x, (q, x) ∈ l → ∃ e, own W' !! q = Some (DataDesc x true e true)).
Proof.
  revert W. induction l as [|[p x] l IH]; intros W Hnd Hl.
  - exists W. simpl. repeat split; try done.
    intros q y Hq. by apply elem_of_nil in Hq.
  - simpl in Hnd. apply NoDup_cons in Hnd as [Hp Hnd].
    destruct (Hl p x) as [Hs Hshape]; [by left|].
    assert (∃ e, setWindowProp h p x false W
                 = (withOwn W (<[p := DataDesc x true e true]> (own W)), Normal ()))
      as [e Hstep].
    { destruct Hshape as [[Hn He]|(v & e & Hv)].
      - exists false. by apply setWindowProp_create.
      - exists e. by eapply setWindowProp_restore. }
    simpl. rewrite Hstep.
    set (W1 := withOwn W (<[p := DataDesc x true e true]> (own W))).
    destruct (IH W1 Hnd) as (W' & Hrun & Hi & He & Hout & Hin).
    { intros q y Hq. destruct (Hl q y) as [Hqs Hq']; [by right|].
      split; [done|]. simpl.
      assert (p ≠ q) as Hne.
      { intros ->. apply Hp. apply elem_of_keys. eauto. }
      by rewrite lookup_insert_ne. }
    exists W'. split; [done|]. split; [done|]. split; [done|]. split.
    + intros q Hq. simpl in Hq. apply not_elem_of_cons in Hq as [Hne Hq].
      rewrite Hout by done. simpl. by rewrite lookup_insert_ne.
    + intros q y Hq. apply elem_of_cons in Hq as [[= -> ->]|Hq]; [|by eapply Hin].
      exists e. rewrite Hout by done. simpl. by rewrite lookup_insert_eq.
Qed.

(** *** A run of facade writes *)

(** The keys the undo and replay machinery handles: string keys other
    than [hasOwnProperty] that the shared window either lacks (on an
    extensible window, and not inherited as read-only or accessor
    properties) or holds as writable, configurable data properties. *)
Definition assignable (W0 : JSObject) (p : PropertyKey) : bool :=
  negb (isSymbol p)
  && negb (bool_decide (p = PString "hasOwnProperty"))
  && match own W0 !! p with
     | Some (DataDesc _ true _ true) => true
     | Some _ => false
     | None =>
         extensible W0
         && match inherited W0 !! p with
            | None | Some (DataDesc _ true _ _) => true
            | _ => false
            end
     end.

(** What holds between the window [W0] the sandbox was constructed on, the
    records of the sandbox and the window [W] during the run. *)
Record Inv (W0 : JSObject) (sb : SingularProxySandbox) (W : JSObject) : Prop := {
  inv_builtin : builtinHasOwnProperty W0;
  inv_inherited : inherited W = inherited W0;
  inv_extensible : extensible W = extensible W0;
  inv_running : sandboxRunning sb = true;
  inv_nodup_added : NoDup (addedPropsMapInSandbox sb).*1;
  inv_nodup_modified : NoDup (modifiedPropsOriginalValueMapInSandbox sb).*1;
  inv_nodup_current : NoDup (currentUpdatedPropsValueMap sb).*1;
  inv_untracked :
    ∀ p, p ∉ (currentUpdatedPropsValueMap sb).*1 → own W !! p = own W0 !! p;
  inv_tracked :
    ∀ p v, (p, v) ∈ currentUpdatedPropsValueMap sb →
      assignable W0 p = true
      ∧ ∃ e, own W !! p = Some (DataDesc v true e true)
             ∧ (own W0 !! p = None ∨ ∃ v0, own W0 !! p = Some (DataDesc v0 true e true));
  inv_modified :
    ∀ p v0, (p, v0) ∈ modifiedPropsOriginalValueMapInSandbox sb →
      p ∈ (currentUpdatedPropsValueMap sb).*1
      ∧ (own W0 !! p = None ∨ ∃ e, own W0 !! p = Some (DataDesc v0 true e true));
  inv_added :
    ∀ p, p ∈ (addedPropsMapInSandbox sb).*1
         ↔ p ∈ (currentUpdatedPropsValueMap sb).*1 ∧ own W0 !! p = None;
  inv_preexisting :
    ∀ p, p ∈ (currentUpdatedPropsValueMap sb).*1 → is_Some (own W0 !! p) →
         p ∈ (modifiedPropsOriginalValueMapInSandbox sb).*1;
}.

Lemma Inv_new name id W0 :
  builtinHasOwnProperty W0 → Inv W0 (new name id) W0.
Proof.
  intros Hb.
  split; simpl; try done; try apply NoDup_nil_2.
  all: intros p; try (intros v H; by apply elem_of_nil in H).
  all: try (intros H; by apply elem_of_nil in H).
  all: split; [intros H|intros [H _]]; by apply elem_of_nil in H.
Qed.

Lemma assignable_string W0 p : assignable W0 p = true → isSymbol p = false.
Proof.
  unfold assignable. intros H. apply andb_true_iff in H as [H _].
  apply andb_true_iff in H as [H _].
  by apply negb_true_iff in H.
Qed.

Lemma assignable_not_hasOwnProperty W0 p :
  assignable W0 p = true → p ≠ PString "hasOwnProperty".
Proof.
  unfold assignable. intros H. apply andb_true_iff in H as [H _].
  apply andb_true_iff in H as [_ H].
  apply negb_true_iff in H. by apply bool_decide_eq_false in H.
Qed.

Lemma assignable_absent W0 p :
  assignable W0 p = true → own W0 !! p = None →
  extensible W0 = true
  ∧ match inherited W0 !! p with
    | None | Some (DataDesc _ true _ _) => True
    | _ => False
    end.
Proof.
  unfold assignable. intros H Hn. rewrite Hn in H.
  apply andb_true_iff in H as [_ H]. apply andb_true_iff in H as [He H].
  split; [done|].
  destruct (inherited W0 !! p) as [[? [] ? ?|]|]; done.
Qed.

Lemma assignable_present W0 p d :
  assignable W0 p = true → own W0 !! p = Some d →
  ∃ v0 e, d = DataDesc v0 true e true.
Proof.
  unfold assignable. intros H Hd. rewrite Hd in H.
  apply andb_true_iff in H as [_ H].
  destruct d as [v0 [] e []|]; try done. eauto.
Qed.

(** One facade write of an assignable key keeps the invariant. *)
Lemma set_Inv W0 sb W p v :
  Inv W0 sb W → assignable W0 p = true →
  completion (set h sb W p v) = Normal true
  ∧ Inv W0 (sandbox (set h sb W p v)) (window (set h sb W p v)).
Proof.
  intros [Hb Hinh Hext Hrun HndA HndM HndC Hun Htr Hmod Hadd Hpre] Hp.
  assert (HbW : builtinHasOwnProperty W).
  { unfold builtinHasOwnProperty, getProp in *. rewrite Hinh, Hun; [done|].
    intros Hin. apply elem_of_keys in Hin as [x Hx].
    destruct (Htr _ x Hx) as [Ha _].
    by apply assignable_not_hasOwnProperty in Ha. }
  unfold set, setTrap. rewrite Hrun.
  rewrite call_hasOwnProperty_builtin by done.
  destruct (decide (p ∈ (currentUpdatedPropsValueMap sb).*1)) as [HpC|HpC].
  - (* the key has been written before *)
    pose proof HpC as HpC'. apply elem_of_keys in HpC' as [v' Hv'].
    destruct (Htr p v' Hv') as (_ & e & HWp & HW0p).
    unfold assignWindow, assignment. rewrite HWp. simpl. split; [done|].
    unfold record. rewrite (hasOwnProperty_Some _ _ _ HWp). simpl.
    assert (Hget : getProp W p = v') by (unfold getProp; by rewrite HWp).
    rewrite Hget.
    split; simpl; try done.
    + destruct (Map_has _ p); simpl; [done|]. by apply Map_set_NoDup.
    + by apply Map_set_NoDup.
    + intros q Hq. rewrite Map_set_keys in Hq.
      rewrite lookup_insert_ne by (intros ->; apply Hq; by left).
      apply Hun. intros ?. apply Hq. by right.
    + intros q x Hq. apply elem_of_Map_set in Hq as [[-> ->]|[Hne Hq]]; [| |done].
      * split; [done|]. exists e. by rewrite lookup_insert_eq.
      * rewrite lookup_insert_ne by done. by apply Htr.
    + intros q x Hq. rewrite Map_set_keys.
      destruct (Map_has (modifiedPropsOriginalValueMapInSandbox sb) p) eqn:Hhas;
        simpl in Hq.
      * destruct (Hmod q x Hq) as [? ?]. split; [by right|done].
      * apply elem_of_Map_set in Hq as [[-> ->]|[Hne Hq]]; [| |done].
        -- split; [by left|]. left.
           apply Map_has_false in Hhas.
           destruct (own W0 !! p) eqn:E; [|done].
           exfalso. apply Hhas. apply Hpre; eauto.
        -- destruct (Hmod q x Hq) as [? ?]. split; [by right|done].
    + intros q. rewrite Map_set_keys, Hadd. split; [intros [? ?]; split; [by right|done]|].
      intros [[->|?] ?]; done.
    + intros q Hq Hsome. rewrite Map_set_keys in Hq.
      assert (q ∈ (currentUpdatedPropsValueMap sb).*1) as Hq' by (by destruct Hq as [->|]).
      specialize (Hpre q Hq' Hsome).
      destruct (Map_has _ p); simpl; [done|]. rewrite Map_set_keys. by right.
  - (* first write of the key *)
    pose proof (Hun p HpC) as HWp.
    assert (HpM : p ∉ (modifiedPropsOriginalValueMapInSandbox sb).*1).
    { intros H. apply elem_of_keys in H as [x Hx]. by destruct (Hmod p x Hx). }
    destruct (own W0 !! p) as [d|] eqn:HW0p.
    + (* present on the window before the run *)
      destruct (assignable_present W0 p d Hp HW0p) as (v0 & e & ->).
      unfold assignWindow, assignment. rewrite HWp. simpl. split; [done|].
      unfold record. rewrite (hasOwnProperty_Some _ _ _ HWp). simpl.
      rewrite (proj2 (Map_has_false _ _) HpM). simpl.
      assert (Hget : getProp W p = v0) by (unfold getProp; by rewrite HWp).
      rewrite Hget.
      split; simpl; try done.
      * by apply Map_set_NoDup.
      * by apply Map_set_NoDup.
      * intros q Hq. rewrite Map_set_keys in Hq.
        rewrite lookup_insert_ne by (intros ->; apply Hq; by left).
        apply Hun. intros ?. apply Hq. by right.
      * intros q x Hq. apply elem_of_Map_set in Hq as [[-> ->]|[Hne Hq]]; [| |done].
        -- split; [done|]. exists e. rewrite lookup_insert_eq, HW0p. eauto.
        -- rewrite lookup_insert_ne by done. by apply Htr.
      * intros q x Hq. rewrite Map_set_keys.
        apply elem_of_Map_set in Hq as [[-> ->]|[Hne Hq]]; [| |done].
        -- split; [by left|]. right. rewrite HW0p. eauto.
        -- destruct (Hmod q x Hq) as [? ?]. split; [by right|done].
      * intros q. rewrite Map_set_keys, Hadd. split; [intros [? ?]; split; [by right|done]|].
        intros [[->|?] ?]; [congruence|done].
      * intros q Hq Hsome. rewrite Map_set_keys in Hq. rewrite Map_set_keys.
        destruct Hq as [->|Hq]; [by left|]. right. by apply Hpre.
    + (* absent from the window before the run *)
      destruct (assignable_absent W0 p Hp HW0p) as [HextW0 Hinh0].
      assert (Hassign : assignWindow h W p v
                = Normal (withOwn W (<[p := DataDesc v true true true]> (own W)))).
      { unfold assignWindow, assignment. rewrite HWp, Hinh, Hext, HextW0.
        destruct (inherited W0 !! p) as [[? [] ? ?|]|]; done. }
      rewrite Hassign. simpl. split; [done|].
      unfold record. rewrite (proj2 (hasOwnProperty_false _ _) HWp). simpl.
      split; simpl; try done.
      * by apply Map_set_NoDup.
      * by apply Map_set_NoDup.
      * intros q Hq. rewrite Map_set_keys in Hq.
        rewrite lookup_insert_ne by (intros ->; apply Hq; by left).
        apply Hun. intros ?. apply Hq. by right.
      * intros q x Hq. apply elem_of_Map_set in Hq as [[-> ->]|[Hne Hq]]; [| |done].
        -- split; [done|]. exists true. rewrite lookup_insert_eq. auto.
        -- rewrite lookup_insert_ne by done. by apply Htr.
      * intros q x Hq. rewrite Map_set_keys.
        destruct (Hmod q x Hq) as [? ?]. split; [by right|done].
      * intros q. rewrite !Map_set_keys, Hadd. split.
        -- intros [->|[? ?]]; [split; [by left|done]|split; [by right|done]].
        -- intros [[->|?] ?]; [by left|by right].
      * intros q Hq Hsome. rewrite Map_set_keys in Hq.
        destruct Hq as [->|Hq]; [|by apply Hpre].
        rewrite HW0p in Hsome. by destruct Hsome.
Qed.

Lemma writes_Inv W0 ws : ∀ sb W,
  Inv W0 sb W → Forall (λ pv, assignable W0 pv.1 = true) ws →
  completion (writes h sb W ws) = Normal true
  ∧ Inv W0 (sandbox (writes h sb W ws)) (window (writes h sb W ws)).
Proof.
  induction ws as [|[p v] ws IH]; intros sb W HI Hws; simpl; [done|].
  apply Forall_cons in Hws as [Hp Hws]. simpl in Hp.
  destruct (set_Inv W0 sb W p v HI Hp) as [Hc HI'].
  rewrite Hc. by apply IH.
Qed.

Lemma JSObject_eq (o1 o2 : JSObject) :
  own o1 = own o2 → inherited o1 = inherited o2 → extensible o1 = extensible o2 →
  o1 = o2.
Proof. destruct o1, o2. simpl. by intros -> -> ->. Qed.

(** [inactive()] after a run that kept the invariant gives back the window
    the sandbox was constructed on. *)
Lemma inactive_Inv W0 sb W :
  Inv W0 sb W →
  inactive h sb W = mkOutcome (withSandboxRunning sb false) W0 (Normal ()).
Proof.
  intros [Hb Hinh Hext Hrun HndA HndM HndC Hun Htr Hmod Hadd Hpre].
  destruct (restore_loop (modifiedPropsOriginalValueMapInSandbox sb) W)
    as (W1 & Hrun1 & Hi1 & He1 & Hout1 & Hin1).
  { intros p x Hpx. destruct (Hmod p x Hpx) as [HpC _].
    apply elem_of_keys in HpC as [v Hv].
    destruct (Htr p v Hv) as (Ha & e & HWp & _).
    split; [by eapply assignable_string|]. eauto. }
  assert (Hshape1 : ∀ p, p ∈ (currentUpdatedPropsValueMap sb).*1 →
            ∃ v e, own W1 !! p = Some (DataDesc v true e true)).
  { intros p HpC.
    destruct (decide (p ∈ (modifiedPropsOriginalValueMapInSandbox sb).*1)) as [HpM|HpM].
    - destruct (Hin1 p HpM) as (x & v & e & _ & _ & H). eauto.
    - rewrite Hout1 by done. apply elem_of_keys in HpC as [v Hv].
      destruct (Htr p v Hv) as (_ & e & HWp & _). eauto. }
  destruct (delete_loop (addedPropsMapInSandbox sb) W1)
    as (W2 & Hrun2 & Hi2 & He2 & Hout2 & Hin2).
  { intros p d HpA Hd. apply Hadd in HpA as [HpC _].
    destruct (Hshape1 p HpC) as (v & e & H). by simplify_eq. }
  unfold inactive. rewrite Hrun1, Hrun2. f_equal.
  apply JSObject_eq; [|congruence|congruence].
  apply map_eq. intros q.
  destruct (decide (q ∈ (addedPropsMapInSandbox sb).*1)) as [HqA|HqA].
  { rewrite Hin2 by done. apply Hadd in HqA as [_ ->]. done. }
  rewrite Hout2 by done.
  destruct (decide (q ∈ (modifiedPropsOriginalValueMapInSandbox sb).*1)) as [HqM|HqM].
  - destruct (Hin1 q HqM) as (x & v & e & Hx & HWq & ->).
    destruct (Hmod q x Hx) as [HqC [HW0|(e' & HW0)]].
    { exfalso. apply HqA. by apply Hadd. }
    apply elem_of_keys in HqC as [v' Hv'].
    destruct (Htr q v' Hv') as (_ & e2 & HWq' & [?|(v0 & HW0')]); [congruence|].
    rewrite HW0. congruence.
  - rewrite Hout1 by done.
    destruct (decide (q ∈ (currentUpdatedPropsValueMap sb).*1)) as [HqC|HqC];
      [|by apply Hun].
    exfalso. destruct (own W0 !! q) eqn:E.
    + apply HqM. apply Hpre; eauto.
    + apply HqA. by apply Hadd.
Qed.

(** [active()] after that [inactive()] gives every key the value it had
    during the run. *)
Lemma active_Inv W0 sb W :
  Inv W0 sb W →
  ∃ W', active h (withSandboxRunning sb false) W0
        = mkOutcome (withSandboxRunning sb true) W' (Normal ())
        ∧ (∀ p, getProp W' p = getProp W p).
Proof.
  intros [Hb Hinh Hext Hrun HndA HndM HndC Hun Htr Hmod Hadd Hpre].
  destruct (replay_loop (currentUpdatedPropsValueMap sb) W0 HndC)
    as (W' & Hrun' & Hi & He & Hout & Hin).
  { intros p x Hpx. destruct (Htr p x Hpx) as (Ha & e & _ & HW0).
    split; [by eapply assignable_string|].
    destruct HW0 as [HW0|(v0 & HW0)]; [left|right; eauto].
    split; [done|]. by apply assignable_absent in Ha as [? _]. }
  exists W'. split.
  - unfold active. simpl. by rewrite Hrun'.
  - intros p. unfold getProp. rewrite Hi, Hinh.
    destruct (decide (p ∈ (currentUpdatedPropsValueMap sb).*1)) as [HpC|HpC].
    + apply elem_of_keys in HpC as [v Hv].
      destruct (Hin p v Hv) as [e ->].
      destruct (Htr p v Hv) as (_ & e' & -> & _). done.
    + rewrite Hout by done. by rewrite Hun.
Qed.

End WithHost.

(** C5, as amended.  For the legacy sandbox constructed on a window [W0]
    whose [hasOwnProperty] is the built-in function, and every sequence of
    facade writes, performed while it is active, to string keys other than
    [hasOwnProperty] that [W0] lacks (being extensible, and not inheriting
    them as read-only or accessor properties) or holds as writable,
    configurable data properties: every write returns [true]; [inactive()]
    restores every pre-existing key to its pre-run original and deletes
    every added key, so that the shared window is [W0] again; and a
    subsequent [active()] replays the current-value map, so that every
    tracked key (and every other key) reads exactly the value it had at the
    moment of that [inactive()]. *)
Theorem inactive_active_round_trip (h : Host) (name : string) (id : nat)
    (W0 : JSObject) (ws : list (PropertyKey * Value)) :
  builtinHasOwnProperty W0 →
  Forall (λ pv, assignable W0 pv.1 = true) ws →
  let run := writes h (new name id) W0 ws in
  let off := inactive h (sandbox run) (window run) in
  let on := active h (sandbox off) (window off) in
  completion run = Normal true
  ∧ completion off = Normal () ∧ sandboxRunning (sandbox off) = false
  ∧ window off = W0
  ∧ completion on = Normal () ∧ sandboxRunning (sandbox on) = true
  ∧ (∀ p v, (p, v) ∈ currentUpdatedPropsValueMap (sandbox run) →
            getProp (window run) p = v ∧ getProp (window on) p = v)
  ∧ (∀ p, getProp (window on) p = getProp (window run) p).
Proof.
  intros Hb Hws run off on.
  destruct (writes_Inv h W0 ws (new name id) W0 (Inv_new name id W0 Hb) Hws)
    as [Hc HI].
  fold run in Hc, HI.
  assert (Hoff : off = mkOutcome (withSandboxRunning (sandbox run) false) W0 (Normal ()))
    by (by apply inactive_Inv).
  destruct (active_Inv h W0 (sandbox run) (window run) HI) as (W' & Hon & Hget).
  assert (Hon' : on = mkOutcome (withSandboxRunning (sandbox run) true) W' (Normal ())).
  { unfold on. rewrite Hoff. simpl. exact Hon. }
  rewrite Hoff, Hon'. simpl.
  repeat split; try done.
  - destruct (inv_tracked _ _ _ HI p v H) as (_ & e & HWp & _).
    unfold getProp. by rewrite HWp.
  - rewrite Hget.
    destruct (inv_tracked _ _ _ HI p v H) as (_ & e & HWp & _).
    unfold getProp. by rewrite HWp.
Qed.

Lemma inactive_active_round_trip_witness :
  let ws := [(PString "title", VString "app"); (PString "foo", VNumber 1);
             (PString "foo", VNumber 2)] in
  builtinHasOwnProperty browserWindow
  ∧ Forall (λ pv, assignable browserWindow pv.1 = true) ws
  ∧ (let run := writes host (new "app" 1) browserWindow ws in
     let off := inactive host (sandbox run) (window run) in
     let on := active host (sandbox off) (window off) in
     completion run = Normal true
     ∧ completion off = Normal () ∧ sandboxRunning (sandbox off) = false
     ∧ window off = browserWindow
     ∧ completion on = Normal () ∧ sandboxRunning (sandbox on) = true
     ∧ (∀ p v, (p, v) ∈ currentUpdatedPropsValueMap (sandbox run) →
               getProp (window run) p = v ∧ getProp (window on) p = v)
     ∧ (∀ p, getProp (window on) p = getProp (window run) p)).
Proof.
  assert (Hb : builtinHasOwnProperty browserWindow) by (vm_compute; reflexivity).
  assert (H : Forall (λ pv, assignable browserWindow pv.1 = true)
                [(PString "title", VString "app"); (PString "foo", VNumber 1);
                 (PString "foo", VNumber 2)]).
  { repeat constructor; vm_compute; reflexivity. }
  split; [exact Hb|]. split; [exact H|].
  exact (inactive_active_round_trip host "app" 1 browserWindow _ Hb H).
Defined.

(** C5 as stated fails on a global the host page declared with [var] (a
    writable but non-configurable property of the window): the facade write
    reaches the window and the original value is recorded, yet [inactive()]
    does not restore it.  It fails on symbol keys as well: an added symbol
    key is deleted by [inactive()] and not replayed by [active()].  And it
    fails once the application has written [hasOwnProperty]: the value is
    stored on the shared window, and the next facade write throws a
    TypeError. *)
Lemma inactive_active_round_trip_counterexample :
  (let run := writes host (new "app" 1) browserWindow [(PString "counter", VNumber 5)] in
   let off := inactive host (sandbox run) (window run) in
   getProp browserWindow (PString "counter") = VNumber 0
   ∧ completion run = Normal true
   ∧ modifiedPropsOriginalValueMapInSandbox (sandbox run)
     = [(PString "counter", VNumber 0)]
   ∧ completion off = Normal ()
   ∧ getProp (window off) (PString "counter") = VNumber 5)
  ∧ (let run := writes host (new "app" 1) browserWindow [(PSymbol "added", VNumber 5)] in
     let off := inactive host (sandbox run) (window run) in
     let on := active host (sandbox off) (window off) in
     completion run = Normal true
     ∧ currentUpdatedPropsValueMap (sandbox run) = [(PSymbol "added", VNumber 5)]
     ∧ getProp (window run) (PSymbol "added") = VNumber 5
     ∧ completion off = Normal () ∧ completion on = Normal ()
     ∧ getProp (window on) (PSymbol "added") = VUndefined)
  ∧ (let first := writes host (new "app" 1) browserWindow
                    [(PString "hasOwnProperty", VNumber 1)] in
     let run := writes host (new "app" 1) browserWindow
                  [(PString "hasOwnProperty", VNumber 1); (PString "foo", VNumber 2)] in
     completion first = Normal true
     ∧ own (window first) !! PString "hasOwnProperty"
       = Some (DataDesc (VNumber 1) true true true)
     ∧ completion run = ThrowTypeError
     ∧ own (window run) !! PString "foo" = None).
Proof. repeat split; vm_compute; reflexivity. Qed.

End SingularProxySandboxSpec.

(** ** The sandbox container *)

Module SandboxContainerSpec.

Import SandboxContainer.

Section Generic.

Context {S : Type}.
Implicit Types (fs : list (Freer S)) (rs : list (Rebuilder S)) (s : S).

Lemma freeAll_app fs1 fs2 s :
  freeAll (fs1 ++ fs2) s
  = ((freeAll fs1 s).1 ++ (freeAll fs2 (freeAll fs1 s).2).1,
     (freeAll fs2 (freeAll fs1 s).2).2).
Proof.
  revert s. induction fs1 as [|f fs1 IH]; intros s; simpl.
  - by destruct (freeAll fs2 s).
  - destruct (runFreer f s) as [r s1]. rewrite IH.
    destruct (freeAll fs1 s1) as [rs1 s2]. simpl.
    by destruct (freeAll fs2 s2).
Qed.

Lemma freeAll_length fs s : length (freeAll fs s).1 = length fs.
Proof.
  revert s. induction fs as [|f fs IH]; intros s; simpl; [done|].
  destruct (runFreer f s) as [r s1]. specialize (IH s1).
  destruct (freeAll fs s1) as [rs s2]. simpl in *. by rewrite IH.
Qed.



End Generic.

(** *** The instrumented container *)

Lemma rebuildAll_cons {S : Type} (r : Rebuilder S) rs (s : S) :
  rebuildAll (r :: rs) s = rebuildAll rs (runRebuilder r s).
Proof. done. Qed.

Lemma freeAll_logging ph (l : list nat) (log : list Event) :
  (freeAll (loggingFreer ph <$> l) log).2 = log ++ (Free ph <$> l)
  ∧ ∀ log', rebuildAll (freeAll (loggingFreer ph <$> l) log).1 log'
            = log' ++ (Rebuild ph <$> l).
Proof.
  revert log. induction l as [|i l IH]; intros log.
  - simpl. split; [by rewrite app_nil_r|]. intros log'. by rewrite app_nil_r.
  - rewrite !fmap_cons. cbn [freeAll runFreer loggingFreer].
    specialize (IH (log ++ [Free ph i])).
    destruct (freeAll (loggingFreer ph <$> l) (log ++ [Free ph i])) as [rs s2].
    cbn [fst snd] in *. destruct IH as [-> IH2]. split.
    + by rewrite <- app_assoc.
    + intros log'. rewrite rebuildAll_cons. cbn [runRebuilder].
      rewrite IH2. by rewrite <- app_assoc.
Qed.

(** What the log shows for a sandbox with [n] bootstrap patches and [m]
    mount patches: an [unmount()] frees the bootstrap patches, then the
    mount patches, then deactivates; the next [mount()] activates, rebuilds
    the [n] bootstrap effects, installs the mount patches, and only then
    rebuilds the [m] mount effects. *)
Lemma remount_log (n m : nat) :
  let parts := loggingParts n m in
  let created := createSandboxContainer parts [] in
  let first := mount parts created.1 created.2 in
  let unmounted := unmount parts first.1 [] in
  let mounted := mount parts unmounted.1 [] in
  unmounted.2
  = (Free Bootstrapping <$> seq 0 n) ++ (Free Mounting <$> seq 0 m) ++ [Inactive]
  ∧ mounted.2
    = [Active] ++ (Rebuild Bootstrapping <$> seq 0 n) ++ [PatchAtMounting]
      ++ (Rebuild Mounting <$> seq 0 m)
  ∧ sideEffectsRebuilders mounted.1 = [].
Proof.
  intros parts created first unmounted mounted.
  assert (Hfirst : first.1 = {| bootstrappingFreers := loggingFreers Bootstrapping n;
                                mountingFreers := loggingFreers Mounting m;
                                sideEffectsRebuilders := [] |}) by done.
  destruct (freeAll_logging Bootstrapping (seq 0 n) []) as [HB1 HB2].
  destruct (freeAll_logging Mounting (seq 0 m) (Free Bootstrapping <$> seq 0 n))
    as [HM1 HM2].
  assert (Hu : unmounted
           = ({| bootstrappingFreers := loggingFreers Bootstrapping n;
                 mountingFreers := loggingFreers Mounting m;
                 sideEffectsRebuilders :=
                   (freeAll (loggingFreers Bootstrapping n) []).1
                   ++ (freeAll (loggingFreers Mounting m)
                         (Free Bootstrapping <$> seq 0 n)).1 |},
              (Free Bootstrapping <$> seq 0 n) ++ (Free Mounting <$> seq 0 m)
              ++ [Inactive])).
  { unfold unmounted, unmount. rewrite Hfirst. simpl.
    rewrite freeAll_app. unfold loggingFreers. rewrite HB1. simpl. rewrite HM1.
    by rewrite <- app_assoc. }
  split; [by rewrite Hu|].
  unfold mounted, mount. rewrite Hu. simpl.
  assert (Hlen : length (loggingFreers Bootstrapping n)
                 = length (freeAll (loggingFreers Bootstrapping n) []).1)
    by (by rewrite freeAll_length).
  rewrite Hlen, take_app_length, drop_app_length.
  unfold loggingFreers. rewrite HB2. simpl. rewrite HM2.
  split; [|done]. simpl. f_equal. by rewrite <- app_assoc.
Qed.

End SandboxContainerSpec.

(** ** The strict-sandbox patcher *)

Module StrictSandboxPatcherSpec.

Import StrictSandboxPatcher.

Definition layer (m : Method) : nat :=
  match m with Raw => 0 | Intercepting => 1 end.

(** Every physical installation but possibly the last one has been undone. *)
Definition balanced (s : State) : Prop :=
  createElementInstalls s ≤ createElementRestores s + layer (createElement s)
  ∧ dynamicAppendInstalls s ≤ dynamicAppendRestores s + layer (dynamicAppend s).

Definition isPatch (op : Op) : bool :=
  match op with Patch _ _ _ _ => true | _ => false end.

Lemma patchStrictSandbox_methods a p m c s :
  let s' := patchStrictSandbox a p m c s in
  createElement s' = Intercepting ∧ dynamicAppend s' = Intercepting
  ∧ createElementInstalls s'
    = createElementInstalls s + (1 - layer (createElement s))
  ∧ dynamicAppendInstalls s'
    = dynamicAppendInstalls s + (1 - layer (dynamicAppend s))
  ∧ createElementRestores s' = createElementRestores s
  ∧ dynamicAppendRestores s' = dynamicAppendRestores s.
Proof.
  unfold patchStrictSandbox, patchHTMLDynamicAppendPrototypeFunctions,
    patchDocumentCreateElement.
  destruct (proxyAttachContainerConfigMap s !! p), (createElement s) eqn:E1,
    (dynamicAppend s) eqn:E2, m;
    repeat (progress (simpl; rewrite ?E1, ?E2));
    repeat split; try done; lia.
Qed.

Lemma free_methods m s :
  let s' := free m s in
  bootstrappingPatchCount s'
  = (if negb m && bool_decide (bootstrappingPatchCount s ≠ 0%Z)
     then bootstrappingPatchCount s - 1 else bootstrappingPatchCount s)%Z
  ∧ mountingPatchCount s'
    = (if m then mountingPatchCount s - 1 else mountingPatchCount s)%Z
  ∧ dom s' = dom s
  ∧ proxyAttachContainerConfigMap s' = proxyAttachContainerConfigMap s
  ∧ createElementInstalls s' = createElementInstalls s
  ∧ dynamicAppendInstalls s' = dynamicAppendInstalls s
  ∧ if bool_decide (mountingPatchCount s' = 0%Z)
       && bool_decide (bootstrappingPatchCount s' = 0%Z)
    then createElement s' = Raw ∧ dynamicAppend s' = Raw
         ∧ createElementRestores s' = Datatypes.S (createElementRestores s)
         ∧ dynamicAppendRestores s' = Datatypes.S (dynamicAppendRestores s)
    else createElement s' = createElement s ∧ dynamicAppend s' = dynamicAppend s
         ∧ createElementRestores s' = createElementRestores s
         ∧ dynamicAppendRestores s' = dynamicAppendRestores s.
Proof.
  unfold free.
  destruct m; simpl.
  - destruct (bool_decide (mountingPatchCount s - 1 = 0)%Z) eqn:E1; simpl;
      [destruct (bool_decide (bootstrappingPatchCount s = 0%Z)) eqn:E2|];
      simpl; rewrite ?E1, ?E2; simpl; done.
  - destruct (bool_decide (bootstrappingPatchCount s ≠ 0%Z)) eqn:E0; simpl;
      destruct (bool_decide (mountingPatchCount s = 0%Z)) eqn:E1; simpl;
      try destruct (bool_decide (bootstrappingPatchCount s - 1 = 0)%Z) eqn:E2;
      try destruct (bool_decide (bootstrappingPatchCount s = 0%Z)) eqn:E3;
      simpl; rewrite ?E1, ?E2, ?E3; simpl; done.
Qed.

Lemma rebuild_methods g p s :
  createElement (rebuild g p s) = createElement s
  ∧ dynamicAppend (rebuild g p s) = dynamicAppend s
  ∧ createElementInstalls (rebuild g p s) = createElementInstalls s
  ∧ dynamicAppendInstalls (rebuild g p s) = dynamicAppendInstalls s
  ∧ createElementRestores (rebuild g p s) = createElementRestores s
  ∧ dynamicAppendRestores (rebuild g p s) = dynamicAppendRestores s.
Proof. unfold rebuild. by destruct (_ !! p). Qed.

Lemma run_balanced s op : balanced s → balanced (run s op).
Proof.
  unfold balanced. intros [H1 H2]. destruct op as [a p m c|m|g p]; simpl.
  - destruct (patchStrictSandbox_methods a p m c s)
      as (-> & -> & -> & -> & -> & ->).
    simpl. destruct (createElement s), (dynamicAppend s); simpl in *; lia.
  - pose proof (free_methods m s) as (_ & _ & _ & _ & -> & -> & H).
    destruct (_ && _).
    + destruct H as (-> & -> & -> & ->). simpl.
      destruct (createElement s), (dynamicAppend s); simpl in *; lia.
    + by destruct H as (-> & -> & -> & ->).
  - by destruct (rebuild_methods g p s) as (-> & -> & -> & -> & -> & ->).
Qed.

Lemma runs_balanced ops s : balanced s → balanced (foldl run s ops).
Proof.
  revert s. induction ops as [|op ops IH]; intros s H; simpl; [done|].
  apply IH. by apply run_balanced.
Qed.

Lemma patches_install_once ops s :
  forallb isPatch ops = true →
  createElement s = Intercepting → dynamicAppend s = Intercepting →
  createElementInstalls (foldl run s ops) = createElementInstalls s
  ∧ dynamicAppendInstalls (foldl run s ops) = dynamicAppendInstalls s.
Proof.
  revert s. induction ops as [|op ops IH]; intros s Hops Hc Hd; simpl; [done|].
  simpl in Hops. apply andb_true_iff in Hops as [Hop Hops].
  destruct op as [a p m c| |]; try done. simpl.
  destruct (patchStrictSandbox_methods a p m c s) as (Hc' & Hd' & Hi1 & Hi2 & _).
  destruct (IH _ Hops Hc' Hd') as [-> ->].
  rewrite Hi1, Hi2, Hc, Hd. simpl. lia.
Qed.

(** *** The wrapper under [rebuild] *)

Lemma lookup_total_filter (d : Dom) (w e : nat) :
  ((λ l, filter (λ x, x ≠ e) l) <$> d) !!! w = filter (λ x, x ≠ e) (d !!! w).
Proof.
  unfold lookup_total, map_lookup_total. rewrite lookup_fmap.
  by destruct (d !! w).
Qed.

Lemma filter_absent (l : list nat) (e : nat) :
  e ∉ l → filter (λ x, x ≠ e) l = l.
Proof.
  induction l as [|x l IH]; intros H; [done|].
  apply not_elem_of_cons in H as [Hne H].
  rewrite filter_cons_True by done. by rewrite IH.
Qed.

Lemma reAppendElement_wrapper (w : nat) (d : Dom) (e : nat) :
  (reAppendElement (λ _, w) d e).1 !!! w
  = if contains d w e then d !!! w else (d !!! w) ++ [e].
Proof.
  unfold reAppendElement.
  destruct (contains d w e) eqn:E; simpl; [done|].
  unfold appendChild. rewrite lookup_total_insert_eq, lookup_total_filter.
  rewrite filter_absent; [done|].
  unfold contains in E. apply orb_false_elim in E as [_ E].
  by apply bool_decide_eq_false in E.
Qed.

Lemma rebuildCSSRules_wrapper (w : nat) (els : list nat) : ∀ d : Dom,
  let d' := rebuildCSSRules els (reAppendElement (λ _, w)) d in
  (∀ e, e ∈ els → contains d' w e = true)
  ∧ ∃ added, d' !!! w = (d !!! w) ++ added
             ∧ ∀ e, e ∈ added ↔ e ∈ els ∧ contains d w e = false.
Proof.
  induction els as [|e0 els IH]; intros d; simpl.
  - split; [intros e H; by apply elem_of_nil in H|].
    exists []. split; [by rewrite app_nil_r|].
    intros e. split; [intros H|intros [H _]]; by apply elem_of_nil in H.
  - set (d1 := (reAppendElement (λ _, w) d e0).1).
    destruct (IH d1) as (Hall & added & Hw & Hadded).
    fold (rebuildCSSRules els (reAppendElement (λ _, w)) d1) in *.
    set (d' := rebuildCSSRules els (reAppendElement (λ _, w)) d1) in *.
    pose proof (reAppendElement_wrapper w d e0) as Hstep. fold d1 in Hstep.
    assert (Hcont : ∀ e, contains d1 w e = contains d w e
                         || (negb (contains d w e0) && bool_decide (e = e0))).
    { intros e. unfold contains at 1. rewrite Hstep.
      destruct (contains d w e0) eqn:E0.
      - simpl. rewrite orb_false_r. done.
      - simpl. unfold contains.
        destruct (bool_decide (e = w)) eqn:E1; simpl; [done|].
        rewrite <- bool_decide_or. apply bool_decide_ext.
        by rewrite elem_of_app, list_elem_of_singleton. }
    split.
    + intros e He. apply elem_of_cons in He as [->|He]; [|by apply Hall].
      unfold contains. rewrite Hw. 
      specialize (Hcont e0). unfold contains at 1 in Hcont.
      apply orb_true_iff.
      destruct (bool_decide (e0 = w)) eqn:E1; [by left|right].
      simpl in Hcont. apply bool_decide_eq_true.
      apply elem_of_app. left.
      destruct (contains d w e0) eqn:E0.
      * rewrite Hstep in *.
        unfold contains in E0. rewrite E1 in E0. simpl in E0.
        by apply bool_decide_eq_true in E0.
      * rewrite Hstep. apply elem_of_app. right. by apply list_elem_of_singleton.
    + destruct (contains d w e0) eqn:E0.
      * exists added. rewrite Hw, Hstep. split; [done|].
        intros e. rewrite Hadded, Hcont. simpl. rewrite orb_false_r.
        rewrite elem_of_cons. split; [intros [? ?]; auto|].
        intros [[->|?] ?]; [congruence|done].
      * exists (e0 :: added). rewrite Hw, Hstep. split; [by rewrite <- app_assoc|].
        intros e. rewrite !elem_of_cons, Hadded, Hcont. simpl.
        rewrite orb_false_iff, bool_decide_eq_false. split.
        -- intros [->|[? [? ?]]]; auto.
        -- intros [[->|?] ?]; [by left|].
           destruct (decide (e = e0)) as [->|]; [by left|right; auto].
Qed.

(** C7.  However many times [patchStrictSandbox] is called, the
    interception of [Document.prototype.createElement] and of the head/body
    methods is installed at most once (a further installation only follows a
    restoration; calls without a [free] between them install exactly once);
    a Freer restores the original methods only when, after its decrement,
    the bootstrapping and the mounting patch counters are both zero, and
    leaves them alone otherwise; and whatever the counters, the Rebuilder it
    returns appends to the application's wrapper exactly the recorded
    style/link elements the wrapper does not contain, so that afterwards the
    wrapper contains every recorded element. *)
Theorem patch_reference_counted :
  (∀ (d : Dom) (ops : list Op), balanced (foldl run (initial d) ops))
  ∧ (∀ (d : Dom) (op : Op) (ops : list Op),
       forallb isPatch (op :: ops) = true →
       let s := foldl run (initial d) (op :: ops) in
       createElement s = Intercepting ∧ dynamicAppend s = Intercepting
       ∧ createElementInstalls s = 1 ∧ dynamicAppendInstalls s = 1)
  ∧ (∀ (s : State) (mounting : bool),
       let s' := free mounting s in
       if bool_decide (mountingPatchCount s' = 0%Z)
          && bool_decide (bootstrappingPatchCount s' = 0%Z)
       then createElement s' = Raw ∧ dynamicAppend s' = Raw
       else createElement s' = createElement s
            ∧ dynamicAppend s' = dynamicAppend s
            ∧ createElementRestores s' = createElementRestores s
            ∧ dynamicAppendRestores s' = dynamicAppendRestores s)
  ∧ (∀ (s : State) (mounting : bool) (appWrapper proxy : nat)
       (config : ContainerConfig),
       proxyAttachContainerConfigMap s !! proxy = Some config →
       let s' := rebuild (λ _, appWrapper) proxy (free mounting s) in
       (∀ e, e ∈ dynamicStyleSheetElements config →
             contains (dom s') appWrapper e = true)
       ∧ ∃ added,
           dom s' !!! appWrapper = (dom s !!! appWrapper) ++ added
           ∧ ∀ e, e ∈ added ↔ e ∈ dynamicStyleSheetElements config
                              ∧ contains (dom s) appWrapper e = false).
Proof.
  split; [|split; [|split]].
  - intros d ops. apply runs_balanced. unfold balanced, initial. simpl. lia.
  - intros d op ops Hops s.
    simpl in Hops. apply andb_true_iff in Hops as [Hop Hops].
    destruct op as [a p m c| |]; try done.
    unfold s. simpl.
    destruct (patchStrictSandbox_methods a p m c (initial d))
      as (Hc & Hd & Hi1 & Hi2 & _).
    destruct (patches_install_once ops _ Hops Hc Hd) as [H1 H2].
    assert (Hm : ∀ ops s0, forallb isPatch ops = true →
              createElement s0 = Intercepting → dynamicAppend s0 = Intercepting →
              createElement (foldl run s0 ops) = Intercepting
              ∧ dynamicAppend (foldl run s0 ops) = Intercepting).
    { clear. induction ops as [|op ops IH]; intros s0 Hops Hc Hd; simpl; [done|].
      simpl in Hops. apply andb_true_iff in Hops as [Hop Hops].
      destruct op as [a p m c| |]; try done. simpl.
      destruct (patchStrictSandbox_methods a p m c s0) as (Hc' & Hd' & _).
      by apply IH. }
    destruct (Hm ops _ Hops Hc Hd) as [-> ->].
    rewrite H1, H2, Hi1, Hi2. simpl. done.
  - intros s mounting s'.
    pose proof (free_methods mounting s) as (_ & _ & _ & _ & _ & _ & H).
    fold s' in H. destruct (_ && _); [by destruct H as (? & ? & _)|done].
  - intros s mounting w proxy config Hcfg s'.
    pose proof (free_methods mounting s) as (_ & _ & Hdom & Hmap & _).
    unfold s', rebuild. rewrite Hmap, Hcfg. simpl. rewrite Hdom.
    apply rebuildCSSRules_wrapper.
Qed.

End StrictSandboxPatcherSpec.

(** ** The loader *)

Module LoaderSpec.

Import Loader Examples MoreExamples.

Local Open Scope string_scope.

(** *** The chain of hooks, step by step *)

Lemma LoaderHooks_execHooksChain_nil {World : Type} (w : World) :
  LoaderHooks.execHooksChain [] w = (w, Returns ()).
Proof. done. Qed.

Lemma LoaderHooks_foldl_Throws {World : Type}
    (hooks : list (@LoaderHooks.LifeCycleFn World)) (w : World) (e : Error) :
  foldl LoaderHooks.andThen (w, Throws e) hooks = (w, Throws e).
Proof. induction hooks as [|hk hooks IH]; [done|]. simpl. apply IH. Qed.

Lemma LoaderHooks_execHooksChain_foldl {World : Type}
    (hooks : list (@LoaderHooks.LifeCycleFn World)) (w : World) :
  LoaderHooks.execHooksChain hooks w
  = foldl LoaderHooks.andThen (w, Returns ()) hooks.
Proof. unfold LoaderHooks.execHooksChain. by destruct hooks. Qed.

Lemma LoaderHooks_execHooksChain_cons {World : Type}
    (hook : @LoaderHooks.LifeCycleFn World) hooks (w : World) :
  LoaderHooks.execHooksChain (hook :: hooks) w
  = match (hook w).2 with
    | Returns _ => LoaderHooks.execHooksChain hooks (hook w).1
    | Throws e => ((hook w).1, Throws e)
    end.
Proof.
  rewrite !LoaderHooks_execHooksChain_foldl. simpl.
  unfold LoaderHooks.andThen at 2. simpl.
  destruct (hook w) as [w' [[]|e]]; simpl; [done|].
  apply LoaderHooks_foldl_Throws.
Qed.

(** C8, as amended.  With the legacy custom render, the
    strict-style-isolation flag or the scoped-CSS flag makes the wrapper
    getter throw a [QiankunError] at once, on every invocation, before any
    wrapper element is looked up.  But the flags are checked when the
    getter is invoked, not when it is built: the setup of [loadApp] calls
    the legacy render function and, when that returns, builds the getter
    and completes; and the first mount calls the legacy render function
    again, mounts the sandbox and runs the [beforeMount] hooks before the
    invocation of the getter throws. *)
Theorem legacy_render_rejects_isolation (env : Env) (app : LoadApp.App)
    (legacy : HTMLContentRender) (mountSandbox : @LoaderHooks.LifeCycleFn Page)
    (beforeMount : list (@LoaderHooks.LifeCycleFn Page))
    (elementGetter : Page → option Element) (page : Page) :
  LoadApp.legacyRender app = Some legacy →
  LoadApp.strictStyleIsolation app || LoadApp.scopedCSS app = true →
  let misuse :=
    QiankunError
      (if LoadApp.strictStyleIsolation app
       then "strictStyleIsolation can not be used with legacy render!"
       else "experimentalStyleIsolation can not be used with legacy render!") in
  let content :=
    LoadApp.appContent app in
  let setup := LoadApp.loadApp env app page in
  let mounted := LoadApp.mount env app mountSandbox beforeMount page in
  let rendered := legacy true content page in
  let sandboxed := mountSandbox rendered.1 in
  let hooked := LoaderHooks.execHooksChain beforeMount sandboxed.1 in
  getAppWrapperGetter env (LoadApp.appName app) (LoadApp.appInstanceId app) true
    (LoadApp.strictStyleIsolation app) (LoadApp.scopedCSS app) elementGetter page
  = ([], Throws misuse)
  ∧ LoadApp.appWrapperGetter env app page = ([], Throws misuse)
  ∧ setup.1 = rendered.1
  ∧ (rendered.2 = Returns () →
     setup.2 = Returns (LoadApp.appWrapperGetter env app))
  ∧ (rendered.2 = Returns () → sandboxed.2 = Returns () → hooked.2 = Returns () →
     mounted = (hooked.1, Throws misuse)).
Proof.
  intros Hl H misuse content setup mounted rendered sandboxed hooked.
  assert (Hg : ∀ elementGetter page,
            getAppWrapperGetter env (LoadApp.appName app) (LoadApp.appInstanceId app)
              true (LoadApp.strictStyleIsolation app) (LoadApp.scopedCSS app)
              elementGetter page
            = ([], Throws misuse)).
  { intros g pg. unfold getAppWrapperGetter, misuse.
    destruct (LoadApp.strictStyleIsolation app); [done|]. simpl in H. by rewrite H. }
  assert (Hw : ∀ page, LoadApp.appWrapperGetter env app page = ([], Throws misuse)).
  { intros pg. unfold LoadApp.appWrapperGetter. rewrite Hl.
    rewrite bool_decide_eq_true_2 by eauto. apply Hg. }
  assert (Hr : ∀ phase pg,
            getRender env (LoadApp.appName app) (LoadApp.appContent app)
              (LoadApp.legacyRender app)
              {| element := Some (LoadApp.initialAppWrapperElement app);
                 isLoading := true;
                 container := LoadApp.initialContainer app |} phase pg
            = legacy true content pg).
  { intros phase pg. unfold getRender. by rewrite Hl. }
  split; [apply Hg|]. split; [apply Hw|].
  unfold setup, LoadApp.loadApp. rewrite Hr. fold rendered.
  split; [by destruct (rendered.2)|]. split.
  - intros ->. done.
  - intros H1 H2 H3. unfold mounted, LoadApp.mount. cbv zeta.
    rewrite !(LoaderHooks_execHooksChain_cons (World:=Page)), Hr. fold rendered.
    rewrite H1. fold sandboxed. rewrite H2. fold hooked. rewrite H3.
    rewrite (LoaderHooks_execHooksChain_nil (World:=Page)). simpl. by rewrite Hw.
Qed.

Lemma legacy_render_rejects_isolation_witness :
  LoadApp.legacyRender misconfigured = Some customRender
  ∧ LoadApp.strictStyleIsolation misconfigured || LoadApp.scopedCSS misconfigured
    = true
  ∧ getAppWrapperGetter loaderEnv "app" "app_1" true false true (λ _, Some 7) emptyPage
    = ([], Throws (QiankunError
                     "experimentalStyleIsolation can not be used with legacy render!"))
  ∧ LoadApp.mount loaderEnv misconfigured (λ page, (page, Returns ())) [] emptyPage
    = (emptyPage,
       Throws (QiankunError
                 "experimentalStyleIsolation can not be used with legacy render!")).
Proof.
  split; [reflexivity|]. split; [reflexivity|].
  destruct (legacy_render_rejects_isolation loaderEnv misconfigured customRender
              (λ page, (page, Returns ())) [] (λ _, Some 7) emptyPage
              eq_refl eq_refl) as (H1 & _ & _ & _ & H5).
  split; [exact H1|]. exact (H5 eq_refl eq_refl eq_refl).
Defined.

(** C8 as stated fails: with a legacy render function and the scoped-CSS
    flag set, the setup of [loadApp] reports nothing; it has called the
    legacy render function and returns the getter, which throws only when
    it is invoked. *)
Lemma legacy_render_rejects_isolation_counterexample :
  LoadApp.legacyRender misconfigured = Some customRender
  ∧ LoadApp.scopedCSS misconfigured = true
  ∧ (LoadApp.loadApp loaderEnv misconfigured emptyPage).1 = emptyPage
  ∧ match (LoadApp.loadApp loaderEnv misconfigured emptyPage).2 with
    | Returns getter =>
        getter emptyPage
        = ([], Throws (QiankunError
                         "experimentalStyleIsolation can not be used with legacy render!"))
    | Throws _ => False
    end.
Proof. repeat split; vm_compute; reflexivity. Qed.

(** C9, as amended.  When no legacy custom render function is supplied,
    the render function throws a [QiankunError] whose message names the
    application and the lifecycle phase whenever the target container
    cannot be resolved in the ['loading'], ['mounting'] or ['mounted']
    phase; in the ['unmounted'] phase a missing container is tolerated:
    nothing is thrown and the page is left as it is. *)
Theorem render_asserts_container (env : Env) (appName appContent : string)
    (props : Props) (phase : Phase) (page : Page) :
  getContainer env page (container props) = None →
  getRender env appName appContent None props phase page
  = (page,
     if bool_decide (phase = unmounted) then Returns ()
     else Throws (QiankunError
            ("Target container with " +:+ containerText env (container props)
             +:+ (if bool_decide (phase = mounted)
                  then " not existed after " else " not existed while ")
             +:+ appName +:+ " " +:+ phaseText phase +:+ "!"))).
Proof.
  intros H. unfold getRender. rewrite H.
  destruct phase; simpl; try done.
  all: unfold errorMsg; simpl;
    destruct (bool_decide _) eqn:E; [by apply bool_decide_eq_true in E|done].
Qed.

Lemma render_asserts_container_witness :
  let props := {| element := Some 7; isLoading := true;
                  container := Some (Selector "#root") |} in
  getContainer loaderEnv emptyPage (container props) = None
  ∧ getRender loaderEnv "app" "<div></div>" None props mounting emptyPage
    = (emptyPage,
       Throws (QiankunError
                 "Target container with #root not existed while app mounting!")).
Proof.
  split; [reflexivity|].
  exact (render_asserts_container loaderEnv "app" "<div></div>"
           {| element := Some 7; isLoading := true;
              container := Some (Selector "#root") |}
           mounting emptyPage eq_refl).
Defined.

(** C9 as stated fails when the application brings a legacy custom render
    function: no container can be resolved in the ['loading'] phase, and the
    render function throws nothing. *)
Lemma render_asserts_container_counterexample :
  let props := {| element := Some 7; isLoading := true; container := None |} in
  getContainer loaderEnv emptyPage (container props) = None
  ∧ getRender loaderEnv "app" "<div></div>" (Some customRender) props loading emptyPage
    = (emptyPage, Returns ()).
Proof. split; reflexivity. Qed.

End LoaderSpec.


(** ** More on the object model *)

Module JSMore.

Lemma withOwn_own (o : JSObject) : withOwn o (own o) = o.
Proof. by destruct o. Qed.

Lemma setterOf_hasProperty o p f : setterOf o p = Some f → hasProperty o p = true.
Proof.
  unfold setterOf, hasProperty. intros H.
  destruct (own o !! p) as [d|].
  - rewrite bool_decide_eq_true_2 by eauto. done.
  - destruct (inherited o !! p) as [d|]; [|done].
    rewrite (bool_decide_eq_true_2 (is_Some (Some d))) by eauto.
    by rewrite orb_true_r.
Qed.

(** A setter that has run leaves every setter where it was. *)
Lemma setterOf_afterSetter W m p : setterOf (afterSetter W m) p = setterOf W p.
Proof.
  unfold setterOf. rewrite afterSetter_own, afterSetter_inherited.
  destruct (own W !! p) as [[v w e c|[g|] s e c]|]; try done.
  by destruct (inherited W !! p) as [[v w e c|[g|] s e c]|].
Qed.

Lemma assignment_hasProperty o o' p v :
  assignment o p v = Stores o' → hasProperty o' p = true.
Proof.
  intros H. apply assignment_Stores in H as (e & c & ->).
  unfold hasProperty. simpl. rewrite lookup_insert_eq.
  rewrite bool_decide_eq_true_2 by eauto. done.
Qed.

(** After [window[p] = v] has completed the window has [p], whether the
    value was stored or handed to a setter. *)
Lemma assignWindow_hasProperty h W W' p v :
  assignWindow h W p v = Normal W' → hasProperty W' p = true.
Proof.
  unfold assignWindow. intros H.
  destruct (assignment W p v) as [W1| |f] eqn:E; try done.
  - simplify_eq. eauto using assignment_hasProperty.
  - apply assignment_Calls in E. apply setterOf_hasProperty in E.
    destruct (callSetter h f RefWindow v W); simplify_eq.
    by rewrite afterSetter_hasProperty.
Qed.

(** Where no setter stands behind [p], the window reads the value
    afterwards, and nothing else has changed. *)
Lemma assignWindow_stored h W W' p v :
  setterOf W p = None → assignWindow h W p v = Normal W' →
  ∃ e c, W' = withOwn W (<[p := DataDesc v true e c]> (own W)).
Proof.
  intros Hs. rewrite assignWindow_no_setter by done. intros H.
  destruct (assignment W p v) as [W1| |f] eqn:E; simplify_eq.
  eauto using assignment_Stores.
Qed.

Lemma assignWindow_getProp h W W' p v :
  setterOf W p = None → assignWindow h W p v = Normal W' → getProp W' p = v.
Proof.
  intros Hs H. destruct (assignWindow_stored h W W' p v Hs H) as (e & c & ->).
  unfold getProp. simpl. by rewrite lookup_insert_eq.
Qed.

(** A property of another name does not change what [o.hasOwnProperty]
    is. *)
Lemma builtinHasOwnProperty_insert o p d :
  p ≠ PString "hasOwnProperty" → builtinHasOwnProperty o →
  builtinHasOwnProperty (withOwn o (<[p := d]> (own o))).
Proof.
  unfold builtinHasOwnProperty, getProp. intros Hp H. simpl.
  by rewrite lookup_insert_ne.
Qed.

Lemma builtinHasOwnProperty_delete o p :
  p ≠ PString "hasOwnProperty" → builtinHasOwnProperty o →
  builtinHasOwnProperty (withOwn o (delete p (own o))).
Proof.
  unfold builtinHasOwnProperty, getProp. intros Hp H. simpl.
  by rewrite lookup_delete_ne.
Qed.

End JSMore.

Import JSMore.

(** ** More on the multi-instance sandbox *)

Module ProxySandboxMore.

Import ProxySandbox ProxySandboxHandler ProxySandboxSpec Examples MoreExamples.

(** *** [uniq] *)

Lemma uniqFrom_spec (array : list PropertyKey) : ∀ this : gset PropertyKey,
  NoDup (uniqFrom this array)
  ∧ (∀ x, x ∈ uniqFrom this array ↔ x ∈ array ∧ x ∉ this)
  ∧ uniqFrom this array `sublist_of` array.
Proof.
  induction array as [|a array IH]; intros this; simpl.
  - split; [apply NoDup_nil_2|]. split; [|done].
    intros x. split; [intros H|intros [H _]]; by apply elem_of_nil in H.
  - case_bool_decide as Ha.
    + destruct (IH this) as (Hnd & Hin & Hsub). split; [done|]. split.
      * intros x. rewrite Hin, elem_of_cons. split; [intros [? ?]; auto|].
        intros [[->|?] ?]; done.
      * by apply sublist_cons.
    + destruct (IH ({[a]} ∪ this)) as (Hnd & Hin & Hsub). split; [|split].
      * apply NoDup_cons. split; [|done]. rewrite Hin. set_solver.
      * intros x. rewrite !elem_of_cons, Hin. split.
        -- intros [->|[? ?]]; [auto|]. split; [auto|set_solver].
        -- intros [[->|?] ?]; [by left|].
           destruct (decide (x = a)) as [->|]; [by left|right].
           split; [done|set_solver].
      * by apply sublist_skip.
Qed.

Lemma uniqFrom_NoDup (array : list PropertyKey) : ∀ this : gset PropertyKey,
  NoDup array → (∀ x, x ∈ array → x ∉ this) → uniqFrom this array = array.
Proof.
  induction array as [|a array IH]; intros this Hnd Hdisj; simpl; [done|].
  apply NoDup_cons in Hnd as [Ha Hnd].
  rewrite bool_decide_eq_false_2 by (apply Hdisj; by left).
  f_equal. apply IH; [done|].
  intros x Hx.
  assert (x ∉ this) by (apply Hdisj; by right).
  assert (x ≠ a) by (by intros ->). set_solver.
Qed.

(** An element that has been met is dropped from the rest of the array. *)
Lemma uniqFrom_met (element : PropertyKey) (array : list PropertyKey) :
  ∀ this : gset PropertyKey,
  uniqFrom ({[element]} ∪ this) array
  = filter (λ x, x ≠ element) (uniqFrom this array).
Proof.
  induction array as [|a array IH]; intros this; simpl; [done|].
  destruct (decide (a ∈ this)) as [Ha|Ha].
  - rewrite (bool_decide_eq_true_2 (a ∈ this)) by done.
    rewrite bool_decide_eq_true_2 by set_solver. apply IH.
  - rewrite (bool_decide_eq_false_2 (a ∈ this)) by done.
    destruct (decide (a = element)) as [->|Hne].
    + rewrite bool_decide_eq_true_2 by set_solver.
      rewrite filter_cons_False by (by intros H; apply H).
      rewrite <- IH.
      by assert ({[element]} ∪ ({[element]} ∪ this) = {[element]} ∪ this) as ->
        by set_solver.
    + rewrite bool_decide_eq_false_2 by set_solver.
      rewrite filter_cons_True by done. f_equal.
      rewrite <- IH.
      by assert ({[a]} ∪ ({[element]} ∪ this) = {[element]} ∪ ({[a]} ∪ this)) as ->
        by set_solver.
Qed.

(** X1.  [uniq] keeps the first occurrence of every element and drops the
    later ones: of the empty array it is the empty array, and of an array
    that starts with [element] it is [element] followed by [uniq] of the
    rest without [element].  Hence it keeps exactly the elements of its
    argument, each once, in the order of the argument; an array without
    repetition is returned as it is, and [uniq] applied twice is [uniq]
    applied once. *)
Theorem uniq_spec (array : list PropertyKey) :
  uniq [] = []
  ∧ (∀ element, uniq (element :: array)
                = element :: filter (λ x, x ≠ element) (uniq array))
  ∧ NoDup (uniq array)
  ∧ (∀ x, x ∈ uniq array ↔ x ∈ array)
  ∧ uniq array `sublist_of` array
  ∧ (NoDup array → uniq array = array)
  ∧ uniq (uniq array) = uniq array.
Proof.
  destruct (uniqFrom_spec array ∅) as (Hnd & Hin & Hsub).
  assert (Hid : ∀ l, NoDup l → uniq l = l).
  { intros l Hl. apply uniqFrom_NoDup; [done|]. set_solver. }
  split; [done|]. split.
  { intros element. unfold uniq. simpl.
    rewrite bool_decide_eq_false_2 by set_solver. f_equal. apply uniqFrom_met. }
  repeat split; try done.
  - rewrite (Hin x). tauto.
  - intros H. apply Hin. split; [done|set_solver].
  - by apply Hid.
  - by apply Hid.
Qed.

(** X2.  The [ownKeys] trap lists every key that the shared window or the
    overlay has as an own property, and lists it once. *)
Theorem ownKeys_spec (sb : ProxySandbox) (W : JSObject) :
  NoDup (ownKeys sb W)
  ∧ ∀ p, p ∈ ownKeys sb W
         ↔ is_Some (own W !! p) ∨ is_Some (own (fakeWindow sb) !! p).
Proof.
  unfold ownKeys.
  destruct (uniqFrom_spec (Reflect_ownKeys W ++ Reflect_ownKeys (fakeWindow sb)) ∅)
    as (Hnd & Hin & _).
  split; [done|]. intros p. unfold uniq. rewrite Hin, elem_of_app.
  transitivity (p ∈ Reflect_ownKeys W ∨ p ∈ Reflect_ownKeys (fakeWindow sb));
    [set_solver|].
  assert (Hkeys : ∀ o, p ∈ Reflect_ownKeys o ↔ is_Some (own o !! p)).
  { intros o. unfold Reflect_ownKeys. rewrite list_elem_of_fmap. split.
    - intros [[q d] [-> H]]. apply elem_of_map_to_list in H. eauto.
    - intros [d H]. exists (p, d). split; [done|]. by apply elem_of_map_to_list. }
  by rewrite !Hkeys.
Qed.

(** *** The overlay after a [set] *)

(** The end of the [set] trap, once the overlay has been written. *)
Lemma set_tail h sb (target' W1 : JSObject) p v :
  let o := match (if bool_decide (p ∈ variableWhiteList h)
                  then assignWindow h W1 p v else Normal W1) with
           | Normal rawWindow' =>
               mkOutcome
                 (withLatestSetProp
                    (withUpdatedValueSet (withFakeWindow sb target')
                       ({[p]} ∪ updatedValueSet (withFakeWindow sb target')))
                    (Some p))
                 rawWindow' (Normal true)
           | Throw e => mkOutcome (withFakeWindow sb target') W1 (Throw e)
           end in
  completion o = Normal true →
  sandbox o = withLatestSetProp
                (withUpdatedValueSet (withFakeWindow sb target')
                   ({[p]} ∪ updatedValueSet sb)) (Some p)
  ∧ (if bool_decide (p ∈ variableWhiteList h)
     then assignWindow h W1 p v = Normal (window o) else window o = W1).
Proof.
  destruct (bool_decide (p ∈ variableWhiteList h));
    [destruct (assignWindow h W1 p v) as [W'|e]|]; simpl; done.
Qed.

(** What a [set] that returns in an active sandbox has done: it has
    written the overlay, by a definition that copies the attributes of the
    shared window's property or by an assignment; it has recorded the key;
    and it has written an allow-listed key back to the shared window. *)
Lemma set_Normal h sb W p v :
  sandboxRunning sb = true →
  completion (set h sb W p v) = Normal true →
  let o := set h sb W p v in
  let target := fakeWindow sb in
  ∃ target' W1,
    sandbox o = withLatestSetProp
                  (withUpdatedValueSet (withFakeWindow sb target')
                     ({[p]} ∪ updatedValueSet sb)) (Some p)
    ∧ (if bool_decide (p ∈ variableWhiteList h)
       then assignWindow h W1 p v = Normal (window o) else window o = W1)
    ∧ (call_hasOwnProperty h (RefFakeWindow (ident sb)) target p = Normal false
       ∧ call_hasOwnProperty h RefWindow W p = Normal true
       ∧ W1 = W
       ∧ (∃ d, own W !! p = Some d
               ∧ if writable d
                 then validateAndApply target p
                        {| a_value := Some v; a_writable := Some true;
                           a_enumerable := Some (enumerable d);
                           a_configurable := Some (configurable d) |}
                      = Some target'
                 else target' = target)
       ∨ (call_hasOwnProperty h (RefFakeWindow (ident sb)) target p = Normal true
          ∨ call_hasOwnProperty h (RefFakeWindow (ident sb)) target p = Normal false
            ∧ call_hasOwnProperty h RefWindow W p = Normal false)
         ∧ assignOverlay h (ident sb) target W p v = Normal (target', W1)).
Proof.
  intros Hr. unfold set. rewrite Hr. cbv zeta.
  destruct (call_hasOwnProperty h (RefFakeWindow (ident sb)) (fakeWindow sb) p)
    as [[]|e] eqn:Ht; [| |done].
  - destruct (assignOverlay h (ident sb) (fakeWindow sb) W p v)
      as [[target' W1]|e] eqn:Ha; [|done].
    intros Hc. exists target', W1.
    destruct (set_tail h sb target' W1 p v Hc) as [Hs Hw].
    split; [exact Hs|]. split; [exact Hw|]. right. auto.
  - destruct (call_hasOwnProperty h RefWindow W p) as [[]|e] eqn:HtW; [| |done].
    + unfold JS.getOwnPropertyDescriptor.
      destruct (own W !! p) as [d|] eqn:HW; [|done].
      destruct (writable d) eqn:Hwd.
      * unfold JS.defineProperty.
        destruct (validateAndApply _ _ _) as [target'|] eqn:Hv; [|done].
        intros Hc. exists target', W.
        destruct (set_tail h sb target' W p v Hc) as [Hs Hw].
        split; [exact Hs|]. split; [exact Hw|]. left.
        repeat split; try done. exists d. by rewrite Hwd.
      * intros Hc. exists (fakeWindow sb), W.
        destruct (set_tail h sb (fakeWindow sb) W p v Hc) as [Hs Hw].
        split; [exact Hs|]. split; [exact Hw|]. left.
        repeat split; try done. exists d. by rewrite Hwd.
    + destruct (assignOverlay h (ident sb) (fakeWindow sb) W p v)
        as [[target' W1]|e] eqn:Ha; [|done].
      intros Hc. exists target', W1.
      destruct (set_tail h sb target' W1 p v Hc) as [Hs Hw].
      split; [exact Hs|]. split; [exact Hw|]. right. auto.
Qed.

(** The same where the overlay's [hasOwnProperty] is the built-in function
    and no setter stands behind the key in the overlay: the overlay has
    [p] as a writable data property that holds the value, unless the key
    was copied from a property of the shared window that is not
    writable. *)
Lemma set_plain h sb W p v :
  sandboxRunning sb = true →
  builtinHasOwnProperty (fakeWindow sb) →
  setterOf (fakeWindow sb) p = None →
  completion (set h sb W p v) = Normal true →
  let o := set h sb W p v in
  (own (fakeWindow sb) !! p = None ∧ (∃ d, own W !! p = Some d ∧ writable d = false)
   ∧ fakeWindow (sandbox o) = fakeWindow sb
   ∨ ∃ e c, fakeWindow (sandbox o)
            = withOwn (fakeWindow sb) (<[p := DataDesc v true e c]> (own (fakeWindow sb)))
            ∧ (own (fakeWindow sb) !! p = None →
               match own W !! p with
               | Some d => writable d = true ∧ e = enumerable d ∧ c = configurable d
                           ∨ e = true ∧ c = true
               | None => e = true ∧ c = true
               end))
  ∧ propertiesWithGetter (sandbox o) = propertiesWithGetter sb
  ∧ updatedValueSet (sandbox o) = {[p]} ∪ updatedValueSet sb
  ∧ latestSetProp (sandbox o) = Some p
  ∧ (p ∉ variableWhiteList h → window o = W).
Proof.
  intros Hr Hb Hs Hc o.
  destruct (set_Normal h sb W p v Hr Hc) as (target' & W1 & Hsb & Hw & Hcases).
  fold o in Hsb, Hw. rewrite Hsb. cbn.
  rewrite (call_hasOwnProperty_builtin _ _ _ _ Hb) in Hcases.
  assert (HW1 : W1 = W).
  { destruct Hcases as [(_ & _ & ? & _)|[_ Ha]]; [done|].
    rewrite assignOverlay_no_setter in Ha by done.
    destruct (assignment _ _ _); by simplify_eq. }
  subst W1.
  split; [|repeat split; try done;
           intros Hp; by rewrite (bool_decide_eq_false_2 _ Hp) in Hw].
  destruct Hcases as [(Ht & _ & _ & d & HW & Hd)|[Ht Ha]].
  - injection Ht as Ht. apply hasOwnProperty_false in Ht.
    destruct (writable d) eqn:Hwd.
    + right. unfold validateAndApply in Hd. rewrite Ht in Hd.
      destruct (extensible (fakeWindow sb)); [|done]. simpl in Hd.
      injection Hd as <-. exists (enumerable d), (configurable d).
      split; [done|]. intros _. rewrite HW. by left.
    + left. subst target'. eauto.
  - right. rewrite assignOverlay_no_setter in Ha by done.
    destruct (assignment (fakeWindow sb) p v) as [t| |f] eqn:E; simplify_eq.
    pose proof E as E'.
    apply assignment_Stores in E as (e & c & ->). exists e, c.
    split; [done|]. intros Hown.
    apply (assignment_fresh _ _ _ _ Hown) in E'.
    assert (DataDesc v true e c = DataDesc v true true true) as [= -> ->].
    { apply (f_equal (λ o, own o !! p)) in E'. simpl in E'.
      rewrite !lookup_insert_eq in E'. congruence. }
    destruct (own W !! p); auto.
Qed.

(** X3.  After a [set] that returned in an active sandbox, the [has] trap
    answers [true] for the key. *)
Theorem has_after_set (h : Host) (objectPrototype : gmap PropertyKey PropertyDescriptor)
    (sb : ProxySandbox) (W : JSObject) (p : PropertyKey) (v : Value) :
  sandboxRunning sb = true →
  completion (set h sb W p v) = Normal true →
  has objectPrototype (sandbox (set h sb W p v)) (window (set h sb W p v)) p = true.
Proof.
  intros Hr Hc.
  destruct (set_Normal h sb W p v Hr Hc) as (target' & W1 & Hsb & Hw & Hcases).
  unfold has. rewrite Hsb. cbn [fakeWindow withLatestSetProp withUpdatedValueSet withFakeWindow].
  destruct (hasProperty (unscopables objectPrototype) p); [done|]. simpl.
  destruct Hcases as [(_ & _ & -> & d & HW & _)|[_ Ha]].
  - assert (hasProperty (window (set h sb W p v)) p = true) as ->;
      [|by rewrite orb_true_r].
    destruct (bool_decide (p ∈ variableWhiteList h)).
    + eauto using assignWindow_hasProperty.
    + rewrite Hw. unfold hasProperty. rewrite HW.
      rewrite bool_decide_eq_true_2 by eauto. done.
  - assert (hasProperty target' p = true) as ->; [|done].
    unfold assignOverlay in Ha.
    destruct (assignment (fakeWindow sb) p v) as [t| |f] eqn:E; [| done |].
    + simplify_eq. eauto using assignment_hasProperty.
    + apply assignment_Calls in E. apply setterOf_hasProperty in E.
      destruct (callSetter _ _ _ _ _); by simplify_eq.
Qed.

Lemma has_after_set_witness :
  sandboxRunning sandboxA = true
  ∧ completion (set host sandboxA browserWindow (PString "foo") (VNumber 1))
    = Normal true
  ∧ has objectPrototype
      (sandbox (set host sandboxA browserWindow (PString "foo") (VNumber 1)))
      (window (set host sandboxA browserWindow (PString "foo") (VNumber 1)))
      (PString "foo") = true.
Proof.
  split; [reflexivity|]. split; [vm_compute; reflexivity|].
  apply (has_after_set host objectPrototype sandboxA browserWindow
           (PString "foo") (VNumber 1)); [reflexivity|vm_compute; reflexivity].
Defined.

(** X4.  In an active sandbox whose overlay has the built-in
    [hasOwnProperty] and no setter behind the key, a key that is not
    short-circuited and not getter-backed reads back, after a [set] that
    returned, as the value that was set (handed through [getTargetValue]),
    unless the key was absent from the overlay and not writable on the
    shared window. *)
Theorem get_after_set (h : Host) (sb : ProxySandbox) (W : JSObject)
    (p : PropertyKey) (v : Value) :
  sandboxRunning sb = true →
  builtinHasOwnProperty (fakeWindow sb) →
  setterOf (fakeWindow sb) p = None →
  shortCircuited h p = false →
  p ∉ propertiesWithGetter sb →
  (own (fakeWindow sb) !! p = None → ∀ d, own W !! p = Some d → writable d = true) →
  completion (set h sb W p v) = Normal true →
  get h (sandbox (set h sb W p v)) (window (set h sb W p v)) p
  = getTargetValue h RefWindow v.
Proof.
  intros Hr Hb Hns Hs Hg Hw Hc.
  destruct (set_plain h sb W p v Hr Hb Hns Hc) as (Hov & Hpg & _).
  rewrite get_plain by done. rewrite Hpg.
  rewrite (bool_decide_eq_false_2 _ Hg).
  destruct Hov as [(Hown & (d & HW & Hwd) & _)|(e & c & -> & _)].
  - rewrite (Hw Hown d HW) in Hwd. done.
  - unfold hasProperty, getProp. simpl. rewrite lookup_insert_eq.
    assert (Hsome : is_Some (Some (DataDesc v true e c))) by eauto.
    by rewrite (bool_decide_eq_true_2 _ Hsome).
Qed.

Lemma get_after_set_witness :
  sandboxRunning sandboxA = true
  ∧ builtinHasOwnProperty (fakeWindow sandboxA)
  ∧ setterOf (fakeWindow sandboxA) (PString "title") = None
  ∧ shortCircuited host (PString "title") = false
  ∧ (PString "title" ∉ propertiesWithGetter sandboxA)
  ∧ (own (fakeWindow sandboxA) !! PString "title" = None →
     ∀ d, own browserWindow !! PString "title" = Some d → writable d = true)
  ∧ completion (set host sandboxA browserWindow (PString "title") (VString "app"))
    = Normal true
  ∧ get host
      (sandbox (set host sandboxA browserWindow (PString "title") (VString "app")))
      (window (set host sandboxA browserWindow (PString "title") (VString "app")))
      (PString "title")
    = getTargetValue host RefWindow (VString "app").
Proof.
  assert (Hb : builtinHasOwnProperty (fakeWindow sandboxA))
    by (vm_compute; reflexivity).
  assert (Hns : setterOf (fakeWindow sandboxA) (PString "title") = None)
    by (vm_compute; reflexivity).
  assert (Hg : PString "title" ∉ propertiesWithGetter sandboxA)
    by (apply (bool_decide_unpack _); vm_compute; exact I).
  assert (Hw : own (fakeWindow sandboxA) !! PString "title" = None →
               ∀ d, own browserWindow !! PString "title" = Some d → writable d = true).
  { intros _ d Hd. vm_compute in Hd. by injection Hd as <-. }
  split; [reflexivity|]. split; [exact Hb|]. split; [exact Hns|].
  split; [reflexivity|]. split; [exact Hg|].
  split; [exact Hw|]. split; [vm_compute; reflexivity|].
  apply (get_after_set host sandboxA browserWindow (PString "title") (VString "app"));
    [reflexivity|exact Hb|exact Hns|reflexivity|exact Hg|exact Hw
    |vm_compute; reflexivity].
Defined.

(** The three ways the [deleteProperty] trap ends where the overlay's
    [hasOwnProperty] is the built-in function. *)
Lemma deleteProperty_cases h sb W p :
  builtinHasOwnProperty (fakeWindow sb) →
  let o := deleteProperty h sb W p in
  window o = W
  ∧ propertiesWithGetter (sandbox o) = propertiesWithGetter sb
  ∧ match own (fakeWindow sb) !! p with
    | None => completion o = Normal true ∧ sandbox o = sb
    | Some d =>
        if configurable d
        then completion o = Normal true
             ∧ fakeWindow (sandbox o)
               = withOwn (fakeWindow sb) (delete p (own (fakeWindow sb)))
        else completion o = ThrowTypeError ∧ sandbox o = sb
    end.
Proof.
  intros Hb. unfold deleteProperty.
  rewrite (call_hasOwnProperty_builtin _ _ _ _ Hb).
  unfold deleteProp, hasOwnProperty.
  destruct (own (fakeWindow sb) !! p) as [d|] eqn:E.
  - rewrite bool_decide_eq_true_2 by eauto.
    by destruct (configurable d).
  - rewrite bool_decide_eq_false_2 by (by apply is_Some_None). done.
Qed.

(** What an assignment on the overlay leaves of the shared window. *)
Lemma assignOverlay_window h id target W p v target' W1 :
  assignOverlay h id target W p v = Normal (target', W1) →
  W1 = W ∨ ∃ m, W1 = afterSetter W m.
Proof.
  unfold assignOverlay.
  destruct (assignment target p v) as [t| |f]; [| done |].
  - intros [= _ <-]. by left.
  - destruct (callSetter h f _ v W) as [m|]; [|done].
    intros [= _ <-]. eauto.
Qed.

(** What an assignment to a key the overlay does not have leaves of the
    overlay: the overlay with the key as a configurable property, or, where
    a setter was inherited, the overlay as it was. *)
Lemma assignOverlay_fresh h id target W p v target' W1 :
  own target !! p = None →
  assignOverlay h id target W p v = Normal (target', W1) →
  target' = target
  ∨ target' = withOwn target (<[p := DataDesc v true true true]> (own target)).
Proof.
  intros Hown. unfold assignOverlay.
  destruct (assignment target p v) as [t| |f] eqn:E; [| done |].
  - intros [= <- _]. right. eauto using assignment_fresh.
  - destruct (callSetter h f _ v W) as [m|]; [|done].
    intros [= <- _]. by left.
Qed.

(** X5.  Where the overlay's [hasOwnProperty] is the built-in function, a
    [set] of a key other than [hasOwnProperty] that the overlay did not
    have and behind which it inherits no setter, followed by a delete of
    that key, gives back the overlay as it was before the [set] (provided a
    writable property copied from the shared window is configurable
    there). *)
Theorem delete_after_set (h : Host) (sb : ProxySandbox) (W : JSObject)
    (p : PropertyKey) (v : Value) :
  sandboxRunning sb = true →
  builtinHasOwnProperty (fakeWindow sb) →
  p ≠ PString "hasOwnProperty" →
  own (fakeWindow sb) !! p = None →
  setterOf (fakeWindow sb) p = None →
  (∀ d, own W !! p = Some d → writable d = true → configurable d = true) →
  completion (set h sb W p v) = Normal true →
  let o := set h sb W p v in
  let o' := deleteProperty h (sandbox o) (window o) p in
  completion o' = Normal true
  ∧ fakeWindow (sandbox o') = fakeWindow sb
  ∧ window o' = window o.
Proof.
  intros Hr Hb Hne Hown Hns Hcfg Hc o o'.
  destruct (set_Normal h sb W p v Hr Hc) as (target' & W1 & Hsb & _ & Hcases).
  fold o in Hsb.
  assert (Ht : target' = fakeWindow sb
               ∨ ∃ e, target' = withOwn (fakeWindow sb)
                                  (<[p := DataDesc v true e true]> (own (fakeWindow sb)))).
  { destruct Hcases as [(_ & _ & _ & d & HW & Hd)|[_ Ha]].
    - destruct (writable d) eqn:Hwd; [|by left].
      right. unfold validateAndApply in Hd. rewrite Hown in Hd.
      destruct (extensible (fakeWindow sb)); [|done]. simpl in Hd.
      injection Hd as <-. rewrite (Hcfg d HW Hwd). eauto.
    - apply (assignOverlay_fresh _ _ _ _ _ _ _ _ Hown) in Ha as [->| ->]; eauto. }
  assert (Hf : fakeWindow (sandbox o) = target') by (by rewrite Hsb).
  assert (Hb' : builtinHasOwnProperty (fakeWindow (sandbox o))).
  { rewrite Hf. destruct Ht as [->|[e ->]]; [done|].
    by apply builtinHasOwnProperty_insert. }
  pose proof (deleteProperty_cases h (sandbox o) (window o) p Hb')
    as (Hwin & _ & Hdel).
  fold o' in Hwin, Hdel. rewrite Hf in Hdel.
  destruct Ht as [->|[e ->]].
  - rewrite Hown in Hdel. destruct Hdel as [-> ->]. by rewrite Hf.
  - simpl in Hdel. rewrite lookup_insert_eq in Hdel. simpl in Hdel.
    destruct Hdel as [-> ->]. split; [done|]. split; [|done].
    unfold withOwn. simpl. rewrite delete_insert_eq, delete_id by done.
    by destruct (fakeWindow sb).
Qed.

Lemma delete_after_set_witness :
  sandboxRunning sandboxA = true
  ∧ builtinHasOwnProperty (fakeWindow sandboxA)
  ∧ PString "title" ≠ PString "hasOwnProperty"
  ∧ own (fakeWindow sandboxA) !! PString "title" = None
  ∧ setterOf (fakeWindow sandboxA) (PString "title") = None
  ∧ (∀ d, own browserWindow !! PString "title" = Some d →
          writable d = true → configurable d = true)
  ∧ completion (set host sandboxA browserWindow (PString "title") (VString "app"))
    = Normal true
  ∧ (let o := set host sandboxA browserWindow (PString "title") (VString "app") in
     let o' := deleteProperty host (sandbox o) (window o) (PString "title") in
     completion o' = Normal true
     ∧ fakeWindow (sandbox o') = fakeWindow sandboxA
     ∧ window o' = window o).
Proof.
  assert (Hb : builtinHasOwnProperty (fakeWindow sandboxA))
    by (vm_compute; reflexivity).
  assert (Hne : PString "title" ≠ PString "hasOwnProperty") by discriminate.
  assert (Hcfg : ∀ d, own browserWindow !! PString "title" = Some d →
                      writable d = true → configurable d = true).
  { intros d Hd _. vm_compute in Hd. by injection Hd as <-. }
  split; [reflexivity|]. split; [exact Hb|]. split; [exact Hne|].
  split; [vm_compute; reflexivity|]. split; [vm_compute; reflexivity|].
  split; [exact Hcfg|]. split; [vm_compute; reflexivity|].
  apply (delete_after_set host sandboxA browserWindow (PString "title") (VString "app"));
    [reflexivity|exact Hb|exact Hne|vm_compute; reflexivity|vm_compute; reflexivity
    |exact Hcfg|vm_compute; reflexivity].
Defined.

(** *** A sandbox that has just been constructed *)

Lemma new_overlay h objectPrototype name id W n p :
  own (fakeWindow (new h objectPrototype name id W n).1) !! p
  = own W !! p ≫= fakeDescriptor h p.
Proof. simpl. apply map_lookup_imap. Qed.

Lemma fakeDescriptor_Some h p d d' :
  fakeDescriptor h p d = Some d' →
  isSymbol p = false ∧ configurable d = false
  ∧ read d' = read d ∧ hasGetter d' = hasGetter d
  ∧ (if bool_decide (p ∈ [PString "top"; PString "parent"; PString "self";
                          PString "window"]) || isTestMock h p
     then d' = match d with
               | DataDesc v _ e _ => DataDesc v true e true
               | AccessorDesc g s e _ => AccessorDesc g s e true
               end
     else d' = d).
Proof.
  unfold fakeDescriptor.
  destruct (isSymbol p); [done|]. destruct (configurable d) eqn:Hc; [done|]. simpl.
  assert (bool_decide (p ∈ [PString "top"; PString "parent"; PString "self";
                            PString "window"])
          = bool_decide (p = PString "top") || bool_decide (p = PString "parent")
            || bool_decide (p = PString "self") || bool_decide (p = PString "window"))
    as ->.
  { apply eq_true_iff_eq. rewrite !orb_true_iff, !bool_decide_eq_true.
    rewrite !elem_of_cons, elem_of_nil. tauto. }
  destruct (_ || _); intros [= <-]; [|done].
  destruct d; simpl; done.
Qed.

(** X6.  The overlay of a new sandbox has a key exactly when the shared
    window has it as a non-configurable, string-keyed own property.  The
    copy is the window's descriptor itself, unless the key is one of
    [top], [parent], [self], [window] (or a test mock): then it is that
    descriptor made configurable and, where it is a data descriptor,
    writable.  The overlay is an extensible object literal, and
    [propertiesWithGetter] is exactly the set of the overlay's accessor
    properties. *)
Theorem new_overlay_spec (h : Host)
    (objectPrototype : gmap PropertyKey PropertyDescriptor) (name : string)
    (id : nat) (W : JSObject) (n : Z) (p : PropertyKey) :
  let sb := (new h objectPrototype name id W n).1 in
  (is_Some (own (fakeWindow sb) !! p)
   ↔ ∃ d, own W !! p = Some d ∧ isSymbol p = false ∧ configurable d = false)
  ∧ (∀ d', own (fakeWindow sb) !! p = Some d' →
       ∃ d, own W !! p = Some d
            ∧ if bool_decide (p ∈ [PString "top"; PString "parent"; PString "self";
                                   PString "window"]) || isTestMock h p
              then d' = match d with
                        | DataDesc v _ e _ => DataDesc v true e true
                        | AccessorDesc g s e _ => AccessorDesc g s e true
                        end
              else d' = d)
  ∧ inherited (fakeWindow sb) = objectPrototype
  ∧ extensible (fakeWindow sb) = true
  ∧ (p ∈ propertiesWithGetter sb
     ↔ ∃ d', own (fakeWindow sb) !! p = Some d' ∧ hasGetter d' = true)
  ∧ sandboxRunning sb = true ∧ updatedValueSet sb = ∅ ∧ latestSetProp sb = None.
Proof.
  intros sb. unfold sb. rewrite new_overlay.
  split; [|split; [|split; [done|split; [done|split; [|done]]]]].
  - split.
    + intros [d' H]. apply bind_Some in H as (d & HW & Hf).
      apply fakeDescriptor_Some in Hf as (? & ? & _). eauto.
    + intros (d & HW & Hs & Hc). rewrite HW. simpl.
      unfold fakeDescriptor. rewrite Hs, Hc. simpl. destruct (_ || _); eauto.
  - intros d' H. apply bind_Some in H as (d & HW & Hf).
    apply fakeDescriptor_Some in Hf as (_ & _ & _ & _ & ?). eauto.
  - simpl. rewrite elem_of_dom. split.
    + intros [d H]. apply map_lookup_filter_Some in H as [HW (Hs & Hc & Hg)].
      simpl in *. rewrite HW. simpl.
      unfold fakeDescriptor. rewrite Hs, Hc. simpl.
      destruct (_ || _); [|eauto]. destruct d; simpl in *; eauto.
    + intros (d' & H & Hg). apply bind_Some in H as (d & HW & Hf).
      apply fakeDescriptor_Some in Hf as (Hs & Hc & _ & Hg' & _).
      exists d. apply map_lookup_filter_Some. split; [done|]. simpl.
      repeat split; congruence.
Qed.



(** *** The allow-list *)

Lemma variableWhiteList_plain h p :
  p ∈ variableWhiteList h → shortCircuited h p = false.
Proof.
  unfold variableWhiteList, variableWhiteListInDev. intros H.
  assert (p = PString "System" ∨ p = PString "__cjsWrapper"
          ∨ p = PString "__REACT_ERROR_OVERLAY_GLOBAL_HOOK__") as Hp.
  { destruct (_ || _); set_solver. }
  unfold shortCircuited, isTestMock.
  destruct Hp as [-> | [-> | ->]]; simpl; by rewrite andb_false_r.
Qed.

(** X8.  A [set] of an allow-listed key that returns in an active sandbox
    is written back to the shared window; where no setter stands behind the
    key there, the shared window reads the new value afterwards, and so
    does every other facade whose overlay does not have the key (and for
    which it is not getter-backed). *)
Theorem allow_listed_set_is_shared (h : Host) (A B : ProxySandbox)
    (W : JSObject) (p : PropertyKey) (v : Value) :
  p ∈ variableWhiteList h →
  sandboxRunning A = true →
  setterOf W p = None →
  completion (set h A W p v) = Normal true →
  hasProperty (fakeWindow B) p = false →
  getProp (window (set h A W p v)) p = v
  ∧ get h B (window (set h A W p v)) p = getTargetValue h RefWindow v.
Proof.
  intros Hp Hr Hns Hc HB.
  destruct (set_Normal h A W p v Hr Hc) as (target' & W1 & _ & Hw & Hcases).
  rewrite (bool_decide_eq_true_2 _ Hp) in Hw.
  assert (Hns1 : setterOf W1 p = None).
  { destruct Hcases as [(_ & _ & -> & _)|[_ Ha]]; [done|].
    apply assignOverlay_window in Ha as [->|[m ->]]; [done|].
    by rewrite setterOf_afterSetter. }
  apply (assignWindow_getProp _ _ _ _ _ Hns1) in Hw. split; [done|].
  rewrite get_plain by (by apply variableWhiteList_plain).
  rewrite HB, Hw. by destruct (bool_decide _).
Qed.

Lemma allow_listed_set_is_shared_witness :
  (PString "System" ∈ variableWhiteList host)
  ∧ sandboxRunning sandboxA = true
  ∧ setterOf browserWindow (PString "System") = None
  ∧ completion (set host sandboxA browserWindow (PString "System") (VNumber 1))
    = Normal true
  ∧ hasProperty (fakeWindow sandboxB) (PString "System") = false
  ∧ getProp (window (set host sandboxA browserWindow (PString "System") (VNumber 1)))
      (PString "System") = VNumber 1
  ∧ get host sandboxB
      (window (set host sandboxA browserWindow (PString "System") (VNumber 1)))
      (PString "System")
    = getTargetValue host RefWindow (VNumber 1).
Proof.
  assert (Hp : PString "System" ∈ variableWhiteList host)
    by (apply (bool_decide_unpack _); vm_compute; exact I).
  split; [exact Hp|]. split; [reflexivity|]. split; [vm_compute; reflexivity|].
  split; [vm_compute; reflexivity|]. split; [vm_compute; reflexivity|].
  apply (allow_listed_set_is_shared host sandboxA sandboxB browserWindow
           (PString "System") (VNumber 1));
    [exact Hp|reflexivity|vm_compute; reflexivity|vm_compute; reflexivity
    |vm_compute; reflexivity].
Defined.

(** *** [active] and [inactive] *)

(** Read through the facade, [hasOwnProperty] is the merged closure. *)
Lemma get_hasOwnProperty h sb W :
  get h sb W (PString "hasOwnProperty") = VFunction (RefHasOwnProperty (ident sb)).
Proof. unfold get, isTestMock. simpl. by rewrite andb_false_r. Qed.

(** Where both objects have the built-in [hasOwnProperty], and the Proxy
    lets the merged closure through, [this.proxy.hasOwnProperty(key)]
    answers whether either object has the key. *)
Lemma proxy_hasOwnProperty_builtin h sb W key :
  builtinHasOwnProperty (fakeWindow sb) →
  builtinHasOwnProperty W →
  getInvariant (fakeWindow sb) (PString "hasOwnProperty")
    (VFunction (RefHasOwnProperty (ident sb))) = true →
  proxy_hasOwnProperty h sb W key
  = Normal (hasOwnProperty (fakeWindow sb) key || hasOwnProperty W key).
Proof.
  intros Hb HbW Hi. unfold proxy_hasOwnProperty, mergedHasOwnProperty.
  rewrite get_hasOwnProperty, Hi.
  rewrite !call_hasOwnProperty_builtin by done.
  by destruct (hasOwnProperty (fakeWindow sb) key).
Qed.

Lemma inactive_loop_deletes h (sb : ProxySandbox) (l : list PropertyKey) : ∀ W,
  builtinHasOwnProperty (fakeWindow sb) →
  builtinHasOwnProperty W →
  getInvariant (fakeWindow sb) (PString "hasOwnProperty")
    (VFunction (RefHasOwnProperty (ident sb))) = true →
  PString "hasOwnProperty" ∉ l →
  (∀ p d, p ∈ l → own W !! p = Some d → configurable d = true) →
  ∃ W', forEach (λ p w, match proxy_hasOwnProperty h sb w p with
                        | Normal true => step (deleteProp w p) w
                        | Normal false => (w, Normal ())
                        | Throw e => (w, Throw e)
                        end)
                l W = (W', Normal ())
        ∧ inherited W' = inherited W ∧ extensible W' = extensible W
        ∧ (∀ p, p ∈ l → own W' !! p = None)
        ∧ (∀ q, q ∉ l → own W' !! q = own W !! q).
Proof.
  intros W Hb HbW Hi. revert W HbW.
  induction l as [|p l IH]; intros W HbW Hl Hcfg.
  - exists W. simpl. repeat split; try done.
    intros p Hp. by apply elem_of_nil in Hp.
  - apply not_elem_of_cons in Hl as [Hne Hl].
    assert (∃ W1, match proxy_hasOwnProperty h sb W p with
                  | Normal true => step (deleteProp W p) W
                  | Normal false => (W, Normal ())
                  | Throw e => (W, Throw e)
                  end = (W1, Normal ())
                  ∧ W1 = withOwn W (delete p (own W)))
      as (W1 & Hstep & ->).
    { rewrite proxy_hasOwnProperty_builtin by done.
      destruct (own W !! p) as [d|] eqn:HWp.
      - rewrite (hasOwnProperty_Some W p d HWp), orb_true_r.
        unfold deleteProp. rewrite HWp, (Hcfg p d) by (done || by left).
        simpl. eauto.
      - exists W. rewrite delete_id by done. rewrite withOwn_own. split; [|done].
        destruct (_ || _); [|done].
        unfold deleteProp. by rewrite HWp. }
    destruct (IH (withOwn W (delete p (own W)))) as (W' & Hrun & Hi' & He & Hin & Hout).
    { apply builtinHasOwnProperty_delete; [congruence|done]. }
    { done. }
    { intros q d Hq. simpl.
      destruct (decide (p = q)) as [->|Hpq]; [by rewrite lookup_delete_eq|].
      rewrite lookup_delete_ne by done. apply Hcfg. by right. }
    exists W'. simpl. rewrite Hstep.
    split; [done|]. split; [done|]. split; [done|]. split.
    + intros q Hq.
      destruct (decide (q ∈ l)) as [Hql|Hql]; [by apply Hin|].
      apply elem_of_cons in Hq as [->|Hq]; [|done].
      rewrite Hout by done. simpl. by rewrite lookup_delete_eq.
    + intros q Hq. apply not_elem_of_cons in Hq as [Hqp Hq].
      rewrite Hout by done. simpl. by rewrite lookup_delete_ne.
Qed.

Lemma hasOwnProperty_not_allow_listed h :
  PString "hasOwnProperty" ∉ variableWhiteList h.
Proof.
  unfold variableWhiteList, variableWhiteListInDev.
  destruct (_ || _); intros H;
    repeat (apply elem_of_cons in H as [H|H]; [discriminate H|]);
    by apply elem_of_nil in H.
Qed.

(** X9.  [inactive()] decrements the count of active sandboxes; the
    sandbox stops running when the call returns, and stays as it is when
    the call throws.  While another sandbox stays active the call returns
    and leaves the shared window as it is.  When the count drops to zero,
    where the overlay and the shared window have the built-in
    [hasOwnProperty], the Proxy lets the merged closure through and the
    allow-listed keys on the shared window are configurable, the call
    returns, every allow-listed key is removed from the shared window and
    nothing else of it is touched.  When the count drops to zero and
    [hasOwnProperty] of the overlay has been shadowed by something that is
    not a function, the call throws a TypeError, the sandbox keeps running
    and the shared window is left as it is. *)
Theorem inactive_spec (h : Host) (sb : ProxySandbox) (W : JSObject)
    (activeSandboxCount : Z) :
  let r := inactive h sb W activeSandboxCount in
  r.2 = (activeSandboxCount - 1)%Z
  ∧ (completion r.1 = Normal () → sandbox r.1 = withSandboxRunning sb false)
  ∧ (∀ e, completion r.1 = Throw e → sandbox r.1 = sb)
  ∧ (activeSandboxCount ≠ 1%Z →
     r.1 = mkOutcome (withSandboxRunning sb false) W (Normal ()))
  ∧ (activeSandboxCount = 1%Z →
     builtinHasOwnProperty (fakeWindow sb) →
     builtinHasOwnProperty W →
     getInvariant (fakeWindow sb) (PString "hasOwnProperty")
       (VFunction (RefHasOwnProperty (ident sb))) = true →
     (∀ p d, p ∈ variableWhiteList h → own W !! p = Some d → configurable d = true) →
     completion r.1 = Normal ()
     ∧ inherited (window r.1) = inherited W
     ∧ extensible (window r.1) = extensible W
     ∧ (∀ p, p ∈ variableWhiteList h → own (window r.1) !! p = None)
     ∧ (∀ q, q ∉ variableWhiteList h → own (window r.1) !! q = own W !! q))
  ∧ (activeSandboxCount = 1%Z →
     getInvariant (fakeWindow sb) (PString "hasOwnProperty")
       (VFunction (RefHasOwnProperty (ident sb))) = true →
     (∀ f, getProp (fakeWindow sb) (PString "hasOwnProperty") ≠ VFunction f) →
     r.1 = mkOutcome sb W ThrowTypeError).
Proof.
  intros r. unfold r, inactive.
  split; [by repeat case_match|].
  split; [by repeat case_match; simplify_eq|].
  split; [intros e; by repeat case_match; simplify_eq|].
  split; [|split].
  - intros Hn. rewrite bool_decide_eq_false_2 by lia. done.
  - intros Hn Hb HbW Hi Hcfg.
    destruct (inactive_loop_deletes h sb (variableWhiteList h) W Hb HbW Hi
                (hasOwnProperty_not_allow_listed h) Hcfg)
      as (W' & Hrun & Hinh & Hext & Hin & Hout).
    rewrite bool_decide_eq_true_2 by lia. rewrite Hrun. done.
  - intros Hn Hi Hsh. rewrite bool_decide_eq_true_2 by lia.
    unfold variableWhiteList. cbn [app forEach].
    unfold proxy_hasOwnProperty, mergedHasOwnProperty.
    rewrite get_hasOwnProperty, Hi.
    by rewrite call_hasOwnProperty_shadowed.
Qed.

Lemma inactive_spec_witness :
  let r := inactive host sandboxA windowWithSystem 1 in
  ((1 ≠ 1)%Z → r.1 = mkOutcome (withSandboxRunning sandboxA false) windowWithSystem
                      (Normal ()))
  ∧ (∀ p, p ∈ variableWhiteList host → own (window r.1) !! p = None)
  ∧ completion r.1 = Normal ()
  ∧ own windowWithSystem !! PString "System"
    = Some (DataDesc (VNumber 1) true true true).
Proof.
  intros r.
  assert (Hcfg : ∀ p d, p ∈ variableWhiteList host →
                        own windowWithSystem !! p = Some d → configurable d = true).
  { intros p d Hp Hd.
    assert (p = PString "System" ∨ p = PString "__cjsWrapper") as [-> | ->].
    { change (variableWhiteList host)
        with [PString "System"; PString "__cjsWrapper"] in Hp.
      apply elem_of_cons in Hp as [-> | Hp]; [by left|].
      apply list_elem_of_singleton in Hp. by right. }
    - vm_compute in Hd. by injection Hd as <-.
    - vm_compute in Hd. discriminate. }
  destruct (inactive_spec host sandboxA windowWithSystem 1)
    as (_ & _ & _ & Hne & Heq & _).
  destruct (Heq eq_refl) as (Hc & _ & _ & Hin & _);
    [vm_compute; reflexivity|vm_compute; reflexivity|vm_compute; reflexivity
    |exact Hcfg|].
  split; [exact Hne|]. split; [exact Hin|]. split; [exact Hc|].
  vm_compute; reflexivity.
Defined.

(** X10.  [inactive()] followed by [active()] brings the count of active
    sandboxes back to what it was, whether or not the sandbox was running;
    and [active()] on a running sandbox changes nothing. *)
Theorem inactive_active_count (h : Host) (sb : ProxySandbox) (W : JSObject)
    (activeSandboxCount : Z) :
  (let r := inactive h sb W activeSandboxCount in
   completion r.1 = Normal () →
   active (sandbox r.1) r.2 = (withSandboxRunning sb true, activeSandboxCount))
  ∧ active (active sb activeSandboxCount).1 (active sb activeSandboxCount).2
    = active sb activeSandboxCount.
Proof.
  split.
  - unfold inactive. case_bool_decide.
    + destruct (forEach _ _ _) as [W' [[]|e]]; simpl; try done.
      intros _. unfold active. simpl. f_equal. lia.
    + simpl. intros _. unfold active. simpl. f_equal. lia.
  - unfold active. simpl. done.
Qed.

(** *** Descriptors through the facade *)

(** X11.  The [getOwnPropertyDescriptor] trap records nothing for any
    other key.  Where the overlay has the built-in [hasOwnProperty], and
    the shared window has it too if the overlay does not have the key, the
    trap reports a non-configurable descriptor only for an own property of
    the overlay, and then reports the overlay's descriptor itself; it
    reports nothing exactly when neither the overlay nor the shared window
    has the key, and then records nothing; and it records which of the two
    objects the descriptor came from.  Where [hasOwnProperty] of the
    overlay has been shadowed by something that is not a function, the trap
    throws a TypeError and records nothing; and so it does for a key the
    overlay does not have where [hasOwnProperty] of the shared window has
    been shadowed like that. *)
Theorem getOwnPropertyDescriptor_spec (h : Host) (sb : ProxySandbox) (W : JSObject)
    (m : gmap PropertyKey SymbolTarget) (p : PropertyKey) :
  let r := getOwnPropertyDescriptor h sb W m p in
  (∀ q, q ≠ p → r.2 !! q = m !! q)
  ∧ (builtinHasOwnProperty (fakeWindow sb) →
     (own (fakeWindow sb) !! p = None → builtinHasOwnProperty W) →
     (∀ d, r.1 = Normal (Some d) → configurable d = false →
           own (fakeWindow sb) !! p = Some d)
     ∧ (r.1 = Normal None ↔ own (fakeWindow sb) !! p = None ∧ own W !! p = None)
     ∧ (∀ d, own (fakeWindow sb) !! p = Some d →
             r.1 = Normal (Some d) ∧ r.2 !! p = Some FromTarget)
     ∧ (∀ d, own (fakeWindow sb) !! p = None → own W !! p = Some d →
             r.1 = Normal (Some (withConfigurable d true))
             ∧ r.2 !! p = Some FromRawWindow)
     ∧ (own (fakeWindow sb) !! p = None → own W !! p = None → r.2 = m))
  ∧ ((∀ f, getProp (fakeWindow sb) (PString "hasOwnProperty") ≠ VFunction f) →
     r = (ThrowTypeError, m))
  ∧ (builtinHasOwnProperty (fakeWindow sb) →
     own (fakeWindow sb) !! p = None →
     (∀ f, getProp W (PString "hasOwnProperty") ≠ VFunction f) →
     r = (ThrowTypeError, m)).
Proof.
  intros r. unfold r, getOwnPropertyDescriptor, JS.getOwnPropertyDescriptor.
  split; [|split; [|split]].
  - intros q Hq. repeat case_match; simpl; try done; by rewrite lookup_insert_ne.
  - intros Hb HbW. rewrite (call_hasOwnProperty_builtin _ _ _ _ Hb).
    destruct (own (fakeWindow sb) !! p) as [d0|] eqn:Hown.
    + rewrite (hasOwnProperty_Some _ _ _ Hown). simpl.
      split; [by intros d [= ->]|].
      split; [split; [done|by intros [? ?]]|].
      split; [intros d [= ->]; split; [done|apply lookup_insert_eq]|].
      split; done.
    + rewrite (proj2 (hasOwnProperty_false _ _) Hown).
      rewrite (call_hasOwnProperty_builtin _ _ _ _ (HbW eq_refl)).
      destruct (own W !! p) as [d|] eqn:HW.
      * rewrite (hasOwnProperty_Some _ _ _ HW). simpl.
        assert (Hd : (if negb (configurable d)
                      then Some (withConfigurable d true) else Some d)
                     = Some (withConfigurable d true)).
        { destruct d as [? ? ? []|? ? ? []]; done. }
        rewrite Hd.
        split; [intros d' [= <-]; by destruct d|].
        split; [split; [done|by intros [? ?]]|].
        split; [done|].
        split; [intros d' _ [= ->]; split; [done|apply lookup_insert_eq]|].
        done.
      * rewrite (proj2 (hasOwnProperty_false _ _) HW). simpl.
        repeat split; done.
  - intros Hsh. by rewrite call_hasOwnProperty_shadowed.
  - intros Hb Hown Hsh. rewrite (call_hasOwnProperty_builtin _ _ _ _ Hb).
    rewrite (proj2 (hasOwnProperty_false _ _) Hown).
    by rewrite call_hasOwnProperty_shadowed.
Qed.

Lemma getOwnPropertyDescriptor_spec_witness :
  let r := getOwnPropertyDescriptor host sandboxA browserWindow ∅ (PString "title") in
  r.1 = Normal (Some (DataDesc (VString "host") true true true))
  ∧ r.2 !! PString "title" = Some FromRawWindow
  ∧ getOwnPropertyDescriptor host shadowedSandboxA browserWindow ∅ (PString "title")
    = (ThrowTypeError, ∅).
Proof.
  intros r.
  destruct (getOwnPropertyDescriptor_spec host sandboxA browserWindow ∅
              (PString "title")) as (_ & H & _).
  destruct H as (_ & _ & _ & H & _);
    [vm_compute; reflexivity|intros _; vm_compute; reflexivity|].
  destruct (getOwnPropertyDescriptor_spec host shadowedSandboxA browserWindow ∅
              (PString "title")) as (_ & _ & Hsh & _).
  split; [exact (proj1 (H _ eq_refl eq_refl))|].
  split; [exact (proj2 (H _ eq_refl eq_refl))|].
  apply Hsh. intros f Hf. vm_compute in Hf. discriminate Hf.
Defined.

(** X12.  The [defineProperty] trap never touches [updatedValueSet] or
    [latestSetProp].  It defines the property on the shared window exactly
    when the last descriptor the facade reported for the key came from the
    shared window, and then leaves the overlay alone; in every other case
    the shared window is left as it is and the overlay is what
    [Reflect.defineProperty] makes of it. *)
Theorem defineProperty_spec (sb : ProxySandbox) (W : JSObject)
    (m : gmap PropertyKey SymbolTarget) (p : PropertyKey) (a : Attributes) :
  let o := defineProperty sb W m p a in
  updatedValueSet (sandbox o) = updatedValueSet sb
  ∧ latestSetProp (sandbox o) = latestSetProp sb
  ∧ (if bool_decide (m !! p = Some FromRawWindow)
     then sandbox o = sb
          ∧ window o = (Reflect_defineProperty W p a).1
          ∧ completion o = Normal (Reflect_defineProperty W p a).2
     else window o = W
          ∧ fakeWindow (sandbox o) = (Reflect_defineProperty (fakeWindow sb) p a).1
          ∧ completion o = Normal (Reflect_defineProperty (fakeWindow sb) p a).2).
Proof.
  unfold defineProperty.
  destruct (m !! p) as [[]|] eqn:Hm; simpl;
    destruct (Reflect_defineProperty _ p a); done.
Qed.

(** X13.  Once the facade has reported the descriptor of a key that only
    the shared window has, a [defineProperty] through the facade with
    attributes the window accepts changes the shared window itself, and the
    overlay stays without the key: the definition is not isolated. *)
Theorem defineProperty_after_descriptor (h : Host) (sb : ProxySandbox) (W : JSObject)
    (m : gmap PropertyKey SymbolTarget) (p : PropertyKey) (a : Attributes)
    (W' : JSObject) (reported : PropertyDescriptor) :
  own (fakeWindow sb) !! p = None →
  is_Some (own W !! p) →
  (getOwnPropertyDescriptor h sb W m p).1 = Normal (Some reported) →
  validateAndApply W p a = Some W' →
  let m' := (getOwnPropertyDescriptor h sb W m p).2 in
  let o := defineProperty sb W m' p a in
  window o = W' ∧ sandbox o = sb ∧ completion o = Normal true.
Proof.
  intros Hown [d HW] Hrep Ha m' o.
  assert (Hm : m' !! p = Some FromRawWindow).
  { unfold m'. revert Hrep.
    unfold getOwnPropertyDescriptor, JS.getOwnPropertyDescriptor.
    rewrite Hown.
    destruct (call_hasOwnProperty h (RefFakeWindow (ident sb)) (fakeWindow sb) p)
      as [[]|e]; [done| |done].
    destruct (call_hasOwnProperty h RefWindow W p) as [[]|e]; [|done|done].
    simpl. intros _. apply lookup_insert_eq. }
  unfold o, defineProperty. rewrite Hm.
  unfold Reflect_defineProperty. by rewrite Ha.
Qed.

Lemma defineProperty_after_descriptor_witness :
  let a := {| a_value := Some (VString "app"); a_writable := None;
              a_enumerable := None; a_configurable := None |} in
  own (fakeWindow sandboxA) !! PString "title" = None
  ∧ is_Some (own browserWindow !! PString "title")
  ∧ (getOwnPropertyDescriptor host sandboxA browserWindow ∅ (PString "title")).1
    = Normal (Some (DataDesc (VString "host") true true true))
  ∧ validateAndApply browserWindow (PString "title") a
    = Some (withOwn browserWindow
              (<[PString "title" := DataDesc (VString "app") true true true]>
                 (own browserWindow)))
  ∧ (let m' := (getOwnPropertyDescriptor host sandboxA browserWindow ∅
                  (PString "title")).2 in
     let o := defineProperty sandboxA browserWindow m' (PString "title") a in
     window o = withOwn browserWindow
                  (<[PString "title" := DataDesc (VString "app") true true true]>
                     (own browserWindow))
     ∧ sandbox o = sandboxA ∧ completion o = Normal true).
Proof.
  intros a.
  assert (H1 : own (fakeWindow sandboxA) !! PString "title" = None)
    by (vm_compute; reflexivity).
  assert (H2 : is_Some (own browserWindow !! PString "title"))
    by (vm_compute; eauto).
  assert (H3 : (getOwnPropertyDescriptor host sandboxA browserWindow ∅
                  (PString "title")).1
               = Normal (Some (DataDesc (VString "host") true true true)))
    by (vm_compute; reflexivity).
  assert (H4 : validateAndApply browserWindow (PString "title") a
               = Some (withOwn browserWindow
                         (<[PString "title" := DataDesc (VString "app") true true true]>
                            (own browserWindow))))
    by (vm_compute; reflexivity).
  split; [exact H1|]. split; [exact H2|]. split; [exact H3|]. split; [exact H4|].
  apply (defineProperty_after_descriptor host sandboxA browserWindow ∅
           (PString "title") a _ _ H1 H2 H3 H4).
Defined.

End ProxySandboxMore.

(** ** The engine flag on a facade *)

Module EngineFlagSpec.

Import ProxySandbox ProxySandboxSpec ProxySandboxMore EngineFlag Examples.

Lemma flag_not_allow_listed h : POWERED_BY_QIANKUN ∉ variableWhiteList h.
Proof.
  unfold variableWhiteList, variableWhiteListInDev, POWERED_BY_QIANKUN.
  destruct (_ || _); intros H;
    repeat (apply elem_of_cons in H as [H|H]; [discriminate H|]);
    by apply elem_of_nil in H.
Qed.

Lemma flag_plain h : shortCircuited h POWERED_BY_QIANKUN = false.
Proof. unfold shortCircuited, isTestMock. simpl. by rewrite andb_false_r. Qed.

(** X14.  With the facade of an active sandbox as [global], where the
    overlay and the shared window have the built-in [hasOwnProperty] and
    neither knows the flag: [beforeMount] makes [__POWERED_BY_QIANKUN__]
    read [true] through the facade and leaves the shared window as it is;
    [beforeUnmount] after it gives back the overlay as it was, so that the
    flag reads as on the shared window again. *)
Theorem engine_flag_stays_in_the_overlay (h : Host) (sb : ProxySandbox)
    (W : JSObject) :
  sandboxRunning sb = true →
  builtinHasOwnProperty (fakeWindow sb) →
  builtinHasOwnProperty W →
  extensible (fakeWindow sb) = true →
  hasProperty (fakeWindow sb) POWERED_BY_QIANKUN = false →
  POWERED_BY_QIANKUN ∉ propertiesWithGetter sb →
  own W !! POWERED_BY_QIANKUN = None →
  let mounted := beforeMount h sb W in
  let unmounted := beforeUnmount h (sandbox mounted) (window mounted) in
  completion mounted = Normal ()
  ∧ window mounted = W
  ∧ get h (sandbox mounted) (window mounted) POWERED_BY_QIANKUN
    = getTargetValue h RefWindow (VBool true)
  ∧ completion unmounted = Normal ()
  ∧ window unmounted = W
  ∧ fakeWindow (sandbox unmounted) = fakeWindow sb
  ∧ get h (sandbox unmounted) (window unmounted) POWERED_BY_QIANKUN
    = getTargetValue h RefWindow (getProp W POWERED_BY_QIANKUN).
Proof.
  intros Hr Hb HbW Hext Hhas Hg HW mounted unmounted.
  pose proof Hhas as Hhas'.
  unfold hasProperty in Hhas'. apply orb_false_elim in Hhas' as [Hown Hinh].
  apply bool_decide_eq_false in Hown, Hinh.
  apply eq_None_not_Some in Hown, Hinh.
  set (p := POWERED_BY_QIANKUN) in *.
  assert (Hns : setterOf (fakeWindow sb) p = None).
  { unfold setterOf. by rewrite Hown, Hinh. }
  set (o := set h sb W p (VBool true)).
  assert (Hc : completion o = Normal true).
  { unfold o, set. rewrite Hr. cbv zeta.
    rewrite (call_hasOwnProperty_builtin _ _ _ _ Hb).
    rewrite (call_hasOwnProperty_builtin _ _ _ _ HbW).
    rewrite (proj2 (hasOwnProperty_false _ _) Hown).
    rewrite (proj2 (hasOwnProperty_false _ _) HW).
    rewrite assignOverlay_no_setter by done.
    unfold assignment. rewrite Hown, Hinh, Hext.
    rewrite (bool_decide_eq_false_2 _ (flag_not_allow_listed h)). done. }
  destruct (set_plain h sb W p (VBool true) Hr Hb Hns Hc) as (Hov & Hpg & _ & _ & Hwin).
  fold o in Hov, Hpg, Hwin. specialize (Hwin (flag_not_allow_listed h)).
  destruct Hov as [(_ & (d & Hd & _) & _)|(e & c & Hnew & Hec)];
    [by rewrite HW in Hd|].
  specialize (Hec Hown). rewrite HW in Hec. destruct Hec as [-> ->].
  assert (Hb' : builtinHasOwnProperty (fakeWindow (sandbox o))).
  { rewrite Hnew. by apply builtinHasOwnProperty_insert. }
  pose proof (deleteProperty_cases h (sandbox o) (window o) p Hb')
    as (Hdw & Hdg & Hdel).
  rewrite Hnew in Hdel. simpl in Hdel. rewrite lookup_insert_eq in Hdel.
  simpl in Hdel. destruct Hdel as [Hdc Hdf].
  assert (Hback : fakeWindow (sandbox (deleteProperty h (sandbox o) (window o) p))
                  = fakeWindow sb).
  { rewrite Hdf. unfold withOwn. simpl.
    rewrite delete_insert_eq, delete_id by done. by destruct (fakeWindow sb). }
  unfold unmounted, mounted, beforeMount, assignFlag, beforeUnmount,
    assignThroughProxy, deleteThroughProxy.
  fold p. fold o. cbn [sandbox window completion]. rewrite Hc, Hdc.
  assert (Hsi : setInvariant (fakeWindow (sandbox o)) p (VBool true) = true).
  { rewrite Hnew. unfold setInvariant. simpl. by rewrite lookup_insert_eq. }
  assert (Hdi : deleteInvariant
                  (fakeWindow (sandbox (deleteProperty h (sandbox o) (window o) p))) p
                = true).
  { rewrite Hback. unfold deleteInvariant. by rewrite Hown. }
  rewrite Hsi, Hdi.
  split; [done|]. split; [done|]. split.
  { rewrite get_plain by apply flag_plain. rewrite Hpg.
    rewrite (bool_decide_eq_false_2 _ Hg). rewrite Hnew.
    unfold hasProperty, getProp. simpl. rewrite lookup_insert_eq.
    assert (Hs : is_Some (Some (DataDesc (VBool true) true true true))) by eauto.
    by rewrite (bool_decide_eq_true_2 _ Hs). }
  split; [done|]. split; [by rewrite Hdw|]. split; [done|].
  rewrite get_plain by apply flag_plain. rewrite Hdg, Hpg, Hback, Hdw, Hwin.
  rewrite (bool_decide_eq_false_2 _ Hg). by rewrite Hhas.
Qed.

Lemma engine_flag_stays_in_the_overlay_witness :
  sandboxRunning sandboxA = true
  ∧ builtinHasOwnProperty (fakeWindow sandboxA)
  ∧ builtinHasOwnProperty browserWindow
  ∧ extensible (fakeWindow sandboxA) = true
  ∧ hasProperty (fakeWindow sandboxA) POWERED_BY_QIANKUN = false
  ∧ (POWERED_BY_QIANKUN ∉ propertiesWithGetter sandboxA)
  ∧ own browserWindow !! POWERED_BY_QIANKUN = None
  ∧ (let mounted := beforeMount host sandboxA browserWindow in
     let unmounted := beforeUnmount host (sandbox mounted) (window mounted) in
     completion mounted = Normal ()
     ∧ window mounted = browserWindow
     ∧ get host (sandbox mounted) (window mounted) POWERED_BY_QIANKUN
       = getTargetValue host RefWindow (VBool true)
     ∧ completion unmounted = Normal ()
     ∧ window unmounted = browserWindow
     ∧ fakeWindow (sandbox unmounted) = fakeWindow sandboxA
     ∧ get host (sandbox unmounted) (window unmounted) POWERED_BY_QIANKUN
       = getTargetValue host RefWindow (getProp browserWindow POWERED_BY_QIANKUN)).
Proof.
  assert (Hg : POWERED_BY_QIANKUN ∉ propertiesWithGetter sandboxA)
    by (apply (bool_decide_unpack _); vm_compute; exact I).
  assert (Hb : builtinHasOwnProperty (fakeWindow sandboxA))
    by (vm_compute; reflexivity).
  assert (HbW : builtinHasOwnProperty browserWindow)
    by (vm_compute; reflexivity).
  assert (Hh : hasProperty (fakeWindow sandboxA) POWERED_BY_QIANKUN = false)
    by (vm_compute; reflexivity).
  assert (HW : own browserWindow !! POWERED_BY_QIANKUN = None)
    by (vm_compute; reflexivity).
  split; [reflexivity|]. split; [exact Hb|]. split; [exact HbW|].
  split; [reflexivity|]. split; [exact Hh|].
  split; [exact Hg|]. split; [exact HW|].
  apply (engine_flag_stays_in_the_overlay host sandboxA browserWindow
           eq_refl Hb HbW eq_refl Hh Hg HW).
Defined.

End EngineFlagSpec.

(** ** More on the single-instance sandbox *)

Module SingularProxySandboxMore.

Import SingularProxySandbox SingularProxySandboxSpec SingularProxySandboxCycles Examples.

Lemma Map_get_Map_set (m : JSMap) p v : Map_get (Map_set m p v) p = Some v.
Proof.
  induction m as [|[q w] m IH]; simpl.
  - by rewrite bool_decide_eq_true_2.
  - case_bool_decide as E; simpl.
    + by rewrite bool_decide_eq_true_2.
    + by rewrite bool_decide_eq_false_2.
Qed.

(** X15.  A facade write that returns in an active legacy sandbox reaches
    the shared window: where no setter stands behind the key there, the
    window reads the new value at the key and the facade reads it back (for
    a key other than [top], [parent], [window], [self]); the current-value
    map holds the value, and the key is [latestSetProp]. *)
Theorem legacy_set_reaches_window (h : Host) (sb : SingularProxySandbox)
    (W : JSObject) (p : PropertyKey) (v : Value) :
  sandboxRunning sb = true →
  setterOf W p = None →
  completion (set h sb W p v) = Normal true →
  let o := set h sb W p v in
  getProp (window o) p = v
  ∧ Map_get (currentUpdatedPropsValueMap (sandbox o)) p = Some v
  ∧ latestSetProp (sandbox o) = Some p
  ∧ (p ∉ [PString "top"; PString "parent"; PString "window"; PString "self"] →
     get h (sandbox o) (window o) p = getTargetValue h RefWindow v).
Proof.
  intros Hr Hns. unfold set, setTrap. rewrite Hr.
  destruct (call_hasOwnProperty h RefWindow W p) as [inRawWindow|e]; [|done].
  cbv zeta.
  destruct (assignWindow h W p v) as [W'|e] eqn:Ha; [|done].
  intros _. simpl. apply (assignWindow_getProp _ _ _ _ _ Hns) in Ha.
  split; [done|]. split; [apply Map_get_Map_set|]. split; [done|].
  intros Hp. unfold get.
  rewrite !bool_decide_eq_false_2 by (intros ->; set_solver).
  simpl. by rewrite Ha.
Qed.

Lemma legacy_set_reaches_window_witness :
  sandboxRunning (new "app" 1) = true
  ∧ setterOf browserWindow (PString "title") = None
  ∧ completion (set host (new "app" 1) browserWindow (PString "title") (VString "app"))
    = Normal true
  ∧ (let o := set host (new "app" 1) browserWindow (PString "title") (VString "app") in
     getProp (window o) (PString "title") = VString "app"
     ∧ Map_get (currentUpdatedPropsValueMap (sandbox o)) (PString "title")
       = Some (VString "app")
     ∧ latestSetProp (sandbox o) = Some (PString "title")
     ∧ (PString "title"
        ∉ [PString "top"; PString "parent"; PString "window"; PString "self"] →
        get host (sandbox o) (window o) (PString "title")
        = getTargetValue host RefWindow (VString "app"))).
Proof.
  split; [reflexivity|]. split; [vm_compute; reflexivity|].
  split; [vm_compute; reflexivity|].
  apply (legacy_set_reaches_window host (new "app" 1) browserWindow
           (PString "title") (VString "app"));
    [reflexivity|vm_compute; reflexivity|vm_compute; reflexivity].
Defined.

(** *** Any number of mount cycles *)

Section WithHost.

Context (h : Host).

(** Replaying, with the attributes each key ends with. *)
Lemma replay_loop_shape (l : JSMap) W :
  NoDup l.*1 →
  (∀ p x, (p, x) ∈ l →
     isSymbol p = false
     ∧ ((own W !! p = None ∧ extensible W = true)
        ∨ ∃ v e, own W !! p = Some (DataDesc v true e true))) →
  ∃ W', forEach (λ pv, setWindowProp h pv.1 pv.2 false) l W = (W', Normal ())
        ∧ inherited W' = inherited W ∧ extensible W' = extensible W
        ∧ (∀ q, q ∉ l.*1 → own W' !! q = own W !! q)
        ∧ (∀ q x, (q, x) ∈ l →
             (own W !! q = None ∧ own W' !! q = Some (DataDesc x true false true))
             ∨ ∃ v e, own W !! q = Some (DataDesc v true e true)
                      ∧ own W' !! q = Some (DataDesc x true e true)).
Proof.
  revert W. induction l as [|[p x] l IH]; intros W Hnd Hl.
  - exists W. simpl. repeat split; try done.
    intros q y Hq. by apply elem_of_nil in Hq.
  - simpl in Hnd. apply NoDup_cons in Hnd as [Hp Hnd].
    destruct (Hl p x) as [Hs Hshape]; [by left|].
    assert (∃ e, setWindowProp h p x false W
                 = (withOwn W (<[p := DataDesc x true e true]> (own W)), Normal ())
                 ∧ ((own W !! p = None ∧ e = false)
                    ∨ ∃ v, own W !! p = Some (DataDesc v true e true)))
      as (e & Hstep & He0).
    { destruct Hshape as [[Hn He]|(v & e & Hv)].
      - exists false. split; [by apply setWindowProp_create|]. by left.
      - exists e. split; [by eapply setWindowProp_restore|]. right. eauto. }
    simpl. rewrite Hstep.
    set (W1 := withOwn W (<[p := DataDesc x true e true]> (own W))).
    assert (Hne : ∀ q y, (q, y) ∈ l → p ≠ q).
    { intros q y Hq ->. apply Hp. apply elem_of_keys. eauto. }
    destruct (IH W1 Hnd) as (W' & Hrun & Hi & He & Hout & Hin).
    { intros q y Hq. destruct (Hl q y) as [Hqs Hq']; [by right|].
      split; [done|]. simpl. rewrite lookup_insert_ne by eauto. done. }
    exists W'. split; [done|]. split; [done|]. split; [done|]. split.
    + intros q Hq. simpl in Hq. apply not_elem_of_cons in Hq as [Hneq Hq].
      rewrite Hout by done. simpl. by rewrite lookup_insert_ne.
    + intros q y Hq. apply elem_of_cons in Hq as [[= -> ->]|Hq].
      * rewrite Hout by done. simpl. rewrite lookup_insert_eq.
        destruct He0 as [[Hn ->]|[v Hv]]; [by left|right; eauto].
      * specialize (Hin q y Hq). simpl in Hin.
        rewrite lookup_insert_ne in Hin by eauto. done.
Qed.

(** [inactive()] then [active()] keeps the invariant of a run. *)
Lemma cycle_Inv W0 sb W :
  Inv W0 sb W →
  ∃ W', active h (sandbox (inactive h sb W)) (window (inactive h sb W))
        = mkOutcome (withSandboxRunning sb true) W' (Normal ())
        ∧ Inv W0 (withSandboxRunning sb true) W'.
Proof.
  intros HI. rewrite (inactive_Inv h W0 sb W HI). simpl.
  destruct HI as [Hb Hinh Hext Hrun HndA HndM HndC Hun Htr Hmod Hadd Hpre].
  destruct (replay_loop_shape (currentUpdatedPropsValueMap sb) W0 HndC)
    as (W' & Hrun' & Hi & He & Hout & Hin).
  { intros p x Hpx. destruct (Htr p x Hpx) as (Ha & e & _ & HW0).
    split; [by eapply assignable_string|].
    destruct HW0 as [HW0|(v0 & HW0)]; [left|right; eauto].
    split; [done|]. by apply assignable_absent in Ha as [? _]. }
  exists W'. split.
  - unfold active. simpl. by rewrite Hrun'.
  - split; simpl; try done.
    intros p v Hpv. destruct (Htr p v Hpv) as (Ha & _).
    split; [done|].
    destruct (Hin p v Hpv) as [[HW0 HW']|(v0 & e & HW0 & HW')]; eauto 10.
Qed.

Lemma remounts_Inv W0 rounds : ∀ sb W,
  Inv W0 sb W →
  Forall (Forall (λ pv, assignable W0 pv.1 = true)) rounds →
  completion (remounts h sb W rounds) = Normal ()
  ∧ Inv W0 (sandbox (remounts h sb W rounds)) (window (remounts h sb W rounds)).
Proof.
  induction rounds as [|ws rounds IH]; intros sb W HI Hr; simpl; [done|].
  apply Forall_cons in Hr as [Hws Hr].
  destruct (writes_Inv h W0 ws sb W HI Hws) as [Hc HI1]. rewrite Hc.
  destruct (cycle_Inv W0 _ _ HI1) as (W' & Hon & HI2).
  rewrite (inactive_Inv h W0 _ _ HI1) in Hon |- *. simpl in Hon |- *.
  rewrite Hon. simpl. by apply IH.
Qed.

End WithHost.

(** X16.  However many mount cycles a legacy sandbox has been through on
    a window whose [hasOwnProperty] is the built-in function (facade writes
    to assignable keys, [inactive()], [active()], again and again), the
    writes of the current run return, the next [inactive()] gives back the
    shared window the sandbox was constructed on, and the [active()] after
    it gives every key the value it had when that [inactive()] was
    called. *)
Theorem legacy_cycles_round_trip (h : Host) (name : string) (id : nat)
    (W0 : JSObject) (rounds : list (list (PropertyKey * Value)))
    (ws : list (PropertyKey * Value)) :
  builtinHasOwnProperty W0 →
  Forall (Forall (λ pv, assignable W0 pv.1 = true)) rounds →
  Forall (λ pv, assignable W0 pv.1 = true) ws →
  let before := remounts h (new name id) W0 rounds in
  let run := writes h (sandbox before) (window before) ws in
  let off := inactive h (sandbox run) (window run) in
  let on := active h (sandbox off) (window off) in
  completion before = Normal ()
  ∧ completion run = Normal true
  ∧ completion off = Normal () ∧ window off = W0
  ∧ sandboxRunning (sandbox off) = false
  ∧ completion on = Normal () ∧ sandboxRunning (sandbox on) = true
  ∧ (∀ p, getProp (window on) p = getProp (window run) p).
Proof.
  intros Hb0 Hr Hws before run off on.
  destruct (remounts_Inv h W0 rounds _ _ (Inv_new name id W0 Hb0) Hr) as [Hb HI].
  fold before in Hb, HI.
  destruct (writes_Inv h W0 ws _ _ HI Hws) as [Hc HI1]. fold run in Hc, HI1.
  assert (Hoff : off = mkOutcome (withSandboxRunning (sandbox run) false) W0 (Normal ()))
    by (by apply inactive_Inv).
  destruct (active_Inv h W0 (sandbox run) (window run) HI1) as (W' & Hon & Hget).
  assert (Hon' : on = mkOutcome (withSandboxRunning (sandbox run) true) W' (Normal ())).
  { unfold on. rewrite Hoff. simpl. exact Hon. }
  rewrite Hoff, Hon'. simpl. repeat split; done.
Qed.

Lemma legacy_cycles_round_trip_witness :
  let rounds := [[(PString "title", VString "app"); (PString "foo", VNumber 1)];
                 [(PString "foo", VNumber 2)]] in
  let ws := [(PString "bar", VNumber 3); (PString "title", VString "again")] in
  builtinHasOwnProperty browserWindow
  ∧ Forall (Forall (λ pv, assignable browserWindow pv.1 = true)) rounds
  ∧ Forall (λ pv, assignable browserWindow pv.1 = true) ws
  ∧ (let before := remounts host (new "app" 1) browserWindow rounds in
     let run := writes host (sandbox before) (window before) ws in
     let off := inactive host (sandbox run) (window run) in
     let on := active host (sandbox off) (window off) in
     completion before = Normal ()
     ∧ completion run = Normal true
     ∧ completion off = Normal () ∧ window off = browserWindow
     ∧ sandboxRunning (sandbox off) = false
     ∧ completion on = Normal () ∧ sandboxRunning (sandbox on) = true
     ∧ (∀ p, getProp (window on) p = getProp (window run) p)).
Proof.
  intros rounds ws.
  assert (H0 : builtinHasOwnProperty browserWindow) by (vm_compute; reflexivity).
  assert (H1 : Forall (Forall (λ pv, assignable browserWindow pv.1 = true)) rounds).
  { repeat constructor; vm_compute; reflexivity. }
  assert (H2 : Forall (λ pv, assignable browserWindow pv.1 = true) ws).
  { repeat constructor; vm_compute; reflexivity. }
  split; [exact H0|]. split; [exact H1|]. split; [exact H2|].
  apply (legacy_cycles_round_trip host "app" 1 browserWindow rounds ws H0 H1 H2).
Defined.

End SingularProxySandboxMore.

(** ** More on the sandbox container *)

Module SandboxContainerMore.

Import SandboxContainer.



End SandboxContainerMore.


(** ** More on the strict-sandbox patcher *)

Module StrictSandboxPatcherMore.

Import StrictSandboxPatcher StrictSandboxPatcherSpec.

(** The mount-phase patches less the mount-phase frees of a run. *)
Fixpoint mountingBalance (ops : list Op) : Z :=
  match ops with
  | [] => 0
  | Patch _ _ true _ :: ops' => mountingBalance ops' + 1
  | FreeOp true :: ops' => mountingBalance ops' - 1
  | _ :: ops' => mountingBalance ops'
  end.

Definition counted (s : State) : Prop :=
  (0 ≤ bootstrappingPatchCount s)%Z
  ∧ ((0 < mountingPatchCount s)%Z →
     createElement s = Intercepting ∧ dynamicAppend s = Intercepting).

Lemma patchDocumentCreateElement_rest s :
  let s' := patchDocumentCreateElement s in
  bootstrappingPatchCount s' = bootstrappingPatchCount s
  ∧ mountingPatchCount s' = mountingPatchCount s
  ∧ proxyAttachContainerConfigMap s' = proxyAttachContainerConfigMap s
  ∧ dom s' = dom s.
Proof. unfold patchDocumentCreateElement. by case_bool_decide. Qed.

Lemma patchHTMLDynamicAppendPrototypeFunctions_rest s :
  let s' := patchHTMLDynamicAppendPrototypeFunctions s in
  bootstrappingPatchCount s' = bootstrappingPatchCount s
  ∧ mountingPatchCount s' = mountingPatchCount s
  ∧ proxyAttachContainerConfigMap s' = proxyAttachContainerConfigMap s
  ∧ dom s' = dom s.
Proof. unfold patchHTMLDynamicAppendPrototypeFunctions. by case_bool_decide. Qed.

Lemma patchStrictSandbox_rest a p m c s :
  let s' := patchStrictSandbox a p m c s in
  bootstrappingPatchCount s'
  = (bootstrappingPatchCount s + if m then 0 else 1)%Z
  ∧ mountingPatchCount s' = (mountingPatchCount s + if m then 1 else 0)%Z
  ∧ proxyAttachContainerConfigMap s'
    = match proxyAttachContainerConfigMap s !! p with
      | Some _ => proxyAttachContainerConfigMap s
      | None =>
          <[p := {| appName := a; proxy := p; dynamicStyleSheetElements := [];
                    strictGlobal := true; scopedCSS := c |}]>
            (proxyAttachContainerConfigMap s)
      end
  ∧ dom s' = dom s.
Proof.
  unfold patchStrictSandbox.
  set (s1 := match proxyAttachContainerConfigMap s !! p with
             | Some _ => s
             | None => withConfigMap s _
             end).
  assert (bootstrappingPatchCount s1 = bootstrappingPatchCount s
          ∧ mountingPatchCount s1 = mountingPatchCount s
          ∧ proxyAttachContainerConfigMap s1
            = match proxyAttachContainerConfigMap s !! p with
              | Some _ => proxyAttachContainerConfigMap s
              | None =>
                  <[p := {| appName := a; proxy := p; dynamicStyleSheetElements := [];
                            strictGlobal := true; scopedCSS := c |}]>
                    (proxyAttachContainerConfigMap s)
              end
          ∧ dom s1 = dom s) as (Hb1 & Hm1 & Hc1 & Hd1).
  { unfold s1. by destruct (proxyAttachContainerConfigMap s !! p). }
  destruct (patchDocumentCreateElement_rest s1) as (Hb2 & Hm2 & Hc2 & Hd2).
  destruct (patchHTMLDynamicAppendPrototypeFunctions_rest
              (patchDocumentCreateElement s1)) as (Hb3 & Hm3 & Hc3 & Hd3).
  destruct m; simpl; rewrite ?Hb3, ?Hm3, ?Hc3, ?Hd3, ?Hb2, ?Hm2, ?Hc2, ?Hd2,
    ?Hb1, ?Hm1, ?Hc1, ?Hd1; repeat split; lia.
Qed.

Lemma run_counted s op : counted s → counted (run s op).
Proof.
  unfold counted. intros [Hb Hm]. destruct op as [a p m c|m|g p]; simpl.
  - destruct (patchStrictSandbox_methods a p m c s) as (-> & -> & _).
    split; [|done].
    destruct (patchStrictSandbox_rest a p m c s) as (-> & _).
    destruct m; lia.
  - pose proof (free_methods m s) as (-> & -> & _ & _ & _ & _ & H).
    split.
    + clear H. destruct m; simpl; [done|]. case_bool_decide; lia.
    + intros Hpos. destruct (_ && _) eqn:E.
      * apply andb_true_iff in E as [E _]. apply bool_decide_eq_true in E.
        destruct (free_methods m s) as (_ & Hmc & _). lia.
      * destruct H as (-> & -> & _). apply Hm. destruct m; lia.
  - destruct (rebuild_methods g p s) as (-> & -> & _).
    unfold rebuild. by destruct (_ !! p).
Qed.

Lemma run_mounting s op :
  mountingPatchCount (run s op)
  = (mountingPatchCount s + mountingBalance [op])%Z.
Proof.
  destruct op as [a p m c|m|g p]; simpl.
  - destruct (patchStrictSandbox_rest a p m c s) as (_ & -> & _).
    destruct m; lia.
  - pose proof (free_methods m s) as (_ & -> & _). destruct m; lia.
  - unfold rebuild. destruct (_ !! p); simpl; lia.
Qed.

(** X18.  Whatever patches, frees and rebuilds have run since the module
    was loaded: the bootstrapping patch counter is never negative; the
    mounting patch counter is the number of mount-phase patches less the
    number of mount-phase frees; and while the mounting counter is
    positive, [createElement] and the head/body methods stay intercepted. *)
Theorem counters_spec (d : Dom) (ops : list Op) :
  let s := foldl run (initial d) ops in
  (0 ≤ bootstrappingPatchCount s)%Z
  ∧ mountingPatchCount s = mountingBalance ops
  ∧ ((0 < mountingPatchCount s)%Z →
     createElement s = Intercepting ∧ dynamicAppend s = Intercepting).
Proof.
  intros s.
  assert (Hc : ∀ ops s0, counted s0 → counted (foldl run s0 ops)).
  { clear. induction ops as [|op ops IH]; intros s0 H; simpl; [done|].
    apply IH. by apply run_counted. }
  assert (Hm : ∀ ops s0, mountingPatchCount (foldl run s0 ops)
                         = (mountingPatchCount s0 + mountingBalance ops)%Z).
  { clear. induction ops as [|op ops IH]; intros s0; [simpl; lia|].
    change (foldl run s0 (op :: ops)) with (foldl run (run s0 op) ops).
    rewrite IH, run_mounting.
    destruct op as [a p [] c|[]|g p]; simpl; lia. }
  destruct (Hc ops (initial d)) as [Hb Hi].
  { unfold counted, initial. simpl. split; [lia|]. lia. }
  split; [done|]. split; [|done].
  unfold s. rewrite Hm. simpl. lia.
Qed.

(** The calls one application makes: the bootstrap patch, then for every
    mount cycle the mount patch and, at unmount, the bootstrap Freer and
    the mount Freer. *)
Fixpoint lifecycle (appName : string) (proxy : nat) (scopedCSS : bool)
    (cycles : nat) : list Op :=
  match cycles with
  | 0 => [Patch appName proxy false scopedCSS]
  | Datatypes.S n =>
      lifecycle appName proxy scopedCSS n
      ++ [Patch appName proxy true scopedCSS; FreeOp false; FreeOp true]
  end.

(** X19.  For an application that is alone on the page: after every
    unmount both counters are zero and the original prototype methods are
    back, and every following mount installs the interception again. *)
Theorem alone_on_the_page (d : Dom) (appName : string) (proxy : nat)
    (scopedCSS : bool) (cycles : nat) :
  let unmounted :=
    foldl run (initial d) (lifecycle appName proxy scopedCSS (Datatypes.S cycles)) in
  let mounted := run unmounted (Patch appName proxy true scopedCSS) in
  createElement unmounted = Raw ∧ dynamicAppend unmounted = Raw
  ∧ bootstrappingPatchCount unmounted = 0%Z ∧ mountingPatchCount unmounted = 0%Z
  ∧ createElement mounted = Intercepting ∧ dynamicAppend mounted = Intercepting
  ∧ mountingPatchCount mounted = 1%Z.
Proof.
  intros unmounted mounted.
  assert (Hcycle : ∀ s, (bootstrappingPatchCount s = 0 ∨ bootstrappingPatchCount s = 1)%Z →
            mountingPatchCount s = 0%Z →
            let s' := foldl run s [Patch appName proxy true scopedCSS;
                                   FreeOp false; FreeOp true] in
            createElement s' = Raw ∧ dynamicAppend s' = Raw
            ∧ bootstrappingPatchCount s' = 0%Z ∧ mountingPatchCount s' = 0%Z).
  { intros s Hb Hm. cbn [foldl run].
    set (s1 := patchStrictSandbox appName proxy true scopedCSS s).
    assert (bootstrappingPatchCount s1 = bootstrappingPatchCount s
            ∧ mountingPatchCount s1 = 1%Z) as [Hb1 Hm1].
    { destruct (patchStrictSandbox_rest appName proxy true scopedCSS s)
        as (Hb1 & Hm1 & _). fold s1 in Hb1, Hm1. split; lia. }
    pose proof (free_methods false s1) as (Hb2 & Hm2 & _).
    cbn [negb andb] in Hb2, Hm2.
    assert (bootstrappingPatchCount (free false s1) = 0%Z) as Hz.
    { rewrite Hb2. case_bool_decide; lia. }
    pose proof (free_methods true (free false s1)) as (Hb3 & Hm3 & _ & _ & _ & _ & H).
    cbn [negb andb] in Hb3, Hm3.
    rewrite Hm3, Hm2, Hm1, Hb3, Hz in H.
    rewrite !bool_decide_eq_true_2 in H by lia. cbn [andb] in H.
    destruct H as (-> & -> & _). rewrite Hb3, Hm3, Hm2, Hm1, Hz. done. }
  assert (Hrun : ∀ n, let s := foldl run (initial d)
                                 (lifecycle appName proxy scopedCSS n) in
            (bootstrappingPatchCount s = 0 ∨ bootstrappingPatchCount s = 1)%Z
            ∧ mountingPatchCount s = 0%Z).
  { induction n as [|n IH]; intros s; unfold s.
    - cbn [lifecycle foldl run].
      destruct (patchStrictSandbox_rest appName proxy false scopedCSS (initial d))
        as (-> & -> & _). simpl. split; [by right|done].
    - cbn [lifecycle]. rewrite foldl_app.
      destruct IH as [Hb Hm].
      destruct (Hcycle _ Hb Hm) as (_ & _ & -> & ->). by split; [left|]. }
  assert (Hu : createElement unmounted = Raw ∧ dynamicAppend unmounted = Raw
               ∧ bootstrappingPatchCount unmounted = 0%Z
               ∧ mountingPatchCount unmounted = 0%Z).
  { unfold unmounted. cbn [lifecycle]. rewrite foldl_app.
    destruct (Hrun cycles) as [Hb Hm]. by apply Hcycle. }
  destruct Hu as (Hc & Hd & Hb & Hm).
  destruct (patchStrictSandbox_methods appName proxy true scopedCSS unmounted)
    as (Hc' & Hd' & _).
  pose proof (run_mounting unmounted (Patch appName proxy true scopedCSS)) as Hm'.
  rewrite Hm in Hm'. cbn [mountingBalance] in Hm'.
  change (run unmounted (Patch appName proxy true scopedCSS)) with mounted in Hm'.
  change (patchStrictSandbox appName proxy true scopedCSS unmounted)
    with mounted in Hc', Hd'.
  repeat split; try done.
Qed.

(** X20.  [patchStrictSandbox] creates the container config of a facade
    once: after the call the facade has a config, which is the one it had
    before if it had one, whatever [appName] and [scopedCSS] the call
    brings; the configs of other facades, and the document, are left as
    they are. *)
Theorem patchStrictSandbox_config (appName : string) (proxy : nat)
    (mounting scopedCSS : bool) (s : State) :
  let s' := patchStrictSandbox appName proxy mounting scopedCSS s in
  proxyAttachContainerConfigMap s' !! proxy
  = Some (default {| StrictSandboxPatcher.appName := appName;
                     StrictSandboxPatcher.proxy := proxy;
                     dynamicStyleSheetElements := [];
                     strictGlobal := true;
                     StrictSandboxPatcher.scopedCSS := scopedCSS |}
            (proxyAttachContainerConfigMap s !! proxy))
  ∧ (∀ q, q ≠ proxy →
          proxyAttachContainerConfigMap s' !! q = proxyAttachContainerConfigMap s !! q)
  ∧ dom s' = dom s.
Proof.
  destruct (patchStrictSandbox_rest appName proxy mounting scopedCSS s)
    as (_ & _ & Hc & Hd).
  cbv zeta. rewrite Hc, Hd.
  destruct (proxyAttachContainerConfigMap s !! proxy) as [cfg|] eqn:E; simpl.
  - by rewrite E.
  - rewrite lookup_insert_eq. split; [done|]. split; [|done].
    intros q Hq. by rewrite lookup_insert_ne.
Qed.

End StrictSandboxPatcherMore.


(** ** More on the loader *)

Module LoaderMore.

Import Loader LoaderExports LoaderHooks Examples.

Local Open Scope string_scope.

Lemma wrapperMissing_nonempty (appName appInstanceId : string) :
  wrapperMissing appName appInstanceId ≠ "".
Proof. unfold wrapperMissing. simpl. done. Qed.

(** X21.  Unless legacy render is combined with an isolation flag, an
    invocation of the wrapper getter makes exactly one lookup
    ([document.getElementById] of the wrapper id under legacy render, the
    element getter otherwise); it throws the "Wrapper element ... is not
    existed!" error, naming application and instance, exactly when that
    lookup finds nothing, and otherwise returns the element found, or its
    shadow root under strict style isolation where shadow DOM is
    supported. *)
Theorem wrapper_getter_resolves (env : Env) (appName appInstanceId : string)
    (useLegacyRender strictStyleIsolation scopedCSS : bool)
    (elementGetter : Page → option Element) (page : Page) :
  useLegacyRender && (strictStyleIsolation || scopedCSS) = false →
  getAppWrapperGetter env appName appInstanceId useLegacyRender
    strictStyleIsolation scopedCSS elementGetter page
  = ([if useLegacyRender then GetElementById (getWrapperId env appInstanceId)
      else ElementGetter],
     match (if useLegacyRender
            then getElementById page (getWrapperId env appInstanceId)
            else elementGetter page) with
     | None =>
         Throws (QiankunError
                   ("Wrapper element for " +:+ appName +:+ " with instance "
                    +:+ appInstanceId +:+ " is not existed!"))
     | Some e =>
         Returns (if negb useLegacyRender && strictStyleIsolation
                     && supportShadowDOM env
                  then shadowRoot page e else Some e)
     end).
Proof.
  intros H. unfold getAppWrapperGetter, assertElementExist.
  rewrite (bool_decide_eq_false_2 _ (wrapperMissing_nonempty appName appInstanceId)).
  destruct useLegacyRender.
  - destruct strictStyleIsolation; [done|]. destruct scopedCSS; [done|].
    by destruct (getElementById page _).
  - destruct (elementGetter page) as [e|]; [|done].
    destruct strictStyleIsolation; [|done]. simpl.
    by destruct (supportShadowDOM env).
Qed.

Lemma wrapper_getter_resolves_witness :
  false && (true || false) = false
  ∧ getAppWrapperGetter loaderEnv "app" "app_1" false true false (λ _, None) emptyPage
    = ([ElementGetter],
       Throws (QiankunError
                 "Wrapper element for app with instance app_1 is not existed!")).
Proof.
  split; [reflexivity|].
  exact (wrapper_getter_resolves loaderEnv "app" "app_1" false true false
           (λ _, None) emptyPage eq_refl).
Defined.



(** X23.  [getLifecyclesFromExports] returns the first of three candidates
    that passes [validateExportLifecycle]: the exports of the entry script,
    then the global named by the sandbox's latest set property (when there
    is such a key and it is truthy), then the global named after the
    application; it throws the "You need to export lifecycle functions"
    error, naming the application, exactly when none of them passes.  So
    what it returns always passes the validation. *)
Theorem lifecycles_from_exports (validateExportLifecycle : Value → bool)
    (scriptExports : Value) (appName : string) (get : PropertyKey → Value)
    (globalLatestSetProp : option PropertyKey) :
  let candidates :=
    scriptExports
    :: match globalLatestSetProp with
       | Some p => if truthyKey globalLatestSetProp then [get p] else []
       | None => []
       end
    ++ [get (PString appName)] in
  let result :=
    getLifecyclesFromExports validateExportLifecycle scriptExports appName get
      globalLatestSetProp in
  result
  = match head (filter (λ v, validateExportLifecycle v = true) candidates) with
    | Some v => Returns v
    | None =>
        Throws (QiankunError
                  ("You need to export lifecycle functions in " +:+ appName
                   +:+ " entry"))
    end
  ∧ (∀ v, result = Returns v → validateExportLifecycle v = true).
Proof.
  intros candidates result.
  assert (Hr : result
    = match head (filter (λ v, validateExportLifecycle v = true) candidates) with
      | Some v => Returns v
      | None =>
          Throws (QiankunError
                    ("You need to export lifecycle functions in " +:+ appName
                     +:+ " entry"))
      end).
  { unfold result, candidates, getLifecyclesFromExports.
    rewrite filter_cons.
    destruct (validateExportLifecycle scriptExports) eqn:E1;
      [by rewrite decide_True|rewrite decide_False by done].
    destruct globalLatestSetProp as [p|].
    - destruct (truthyKey (Some p)).
      + cbn [app]. rewrite filter_cons.
        destruct (validateExportLifecycle (get p)) eqn:E2;
          [by rewrite decide_True|rewrite decide_False by done].
        rewrite filter_cons.
        destruct (validateExportLifecycle (get (PString appName))) eqn:E3;
          [by rewrite decide_True|by rewrite decide_False].
      + cbn [app]. rewrite filter_cons.
        destruct (validateExportLifecycle (get (PString appName))) eqn:E3;
          [by rewrite decide_True|by rewrite decide_False].
    - cbn [app]. rewrite filter_cons.
      destruct (validateExportLifecycle (get (PString appName))) eqn:E3;
        [by rewrite decide_True|by rewrite decide_False]. }
  split; [done|].
  intros v Hv. rewrite Hr in Hv.
  destruct (head _) as [v'|] eqn:Eh; [|done].
  injection Hv as ->.
  apply head_Some_elem_of in Eh. by apply list_elem_of_filter in Eh as [? _].
Qed.

(** *** [execHooksChain] *)

(** X24.  [execHooksChain] runs the hooks one after the other in the order
    of the array, each on the world the one before left.  The empty chain
    is fulfilled and leaves the world as it is.  A chain that starts with
    [hook] runs [hook] first, on the world it is given: when [hook] is
    fulfilled the rest of the chain runs on the world [hook] has left, and
    when [hook] rejects nothing else runs and the chain rejects with that
    error.  Hence the chain of [hooks1 ++ hooks2] is the chain of [hooks1]
    followed, when that one is fulfilled, by the chain of [hooks2]. *)
Theorem hooks_chain_in_order {World : Type} (hook : @LifeCycleFn World)
    (hooks1 hooks2 : list (@LifeCycleFn World)) (w : World) :
  execHooksChain [] w = (w, Returns ())
  ∧ execHooksChain (hook :: hooks1) w
    = match (hook w).2 with
      | Returns _ => execHooksChain hooks1 (hook w).1
      | Throws e => ((hook w).1, Throws e)
      end
  ∧ execHooksChain (hooks1 ++ hooks2) w
    = match (execHooksChain hooks1 w).2 with
      | Returns _ => execHooksChain hooks2 (execHooksChain hooks1 w).1
      | Throws e => ((execHooksChain hooks1 w).1, Throws e)
      end.
Proof.
  split; [apply LoaderSpec.LoaderHooks_execHooksChain_nil|].
  split; [apply LoaderSpec.LoaderHooks_execHooksChain_cons|].
  rewrite !LoaderSpec.LoaderHooks_execHooksChain_foldl, foldl_app.
  destruct (foldl andThen (w, Returns ()) hooks1) as [w' [[]|e]]; simpl.
  - done.
  - apply LoaderSpec.LoaderHooks_foldl_Throws.
Qed.

End LoaderMore.

(** ** Registration and start *)

Module ApisSpec.

Import Apis.

Lemma registered_iff (microApps : list RegistrableApp) (app : RegistrableApp) :
  Exists (λ registeredApp, name registeredApp = name app) microApps
  ↔ name app ∈ name <$> microApps.
Proof.
  rewrite Exists_exists, list_elem_of_fmap. naive_solver.
Qed.

Lemma filter_none {A : Type} (P : A → Prop) `{∀ x, Decision (P x)} (l : list A) :
  (∀ x, x ∈ l → ¬ P x) → filter P l = [].
Proof.
  induction l as [|x l IH]; intros Hl; [done|].
  rewrite filter_cons, decide_False by (apply Hl; left).
  apply IH. intros y Hy. apply Hl. by right.
Qed.

(** X25.  [registerMicroApps] appends to [microApps], in the order of the
    batch, exactly the applications of the batch whose name is not yet
    registered, and hands those to [registerApplication]; registering the
    same batch again registers nothing and leaves [microApps] as it is. *)
Theorem register_once (microApps apps : list RegistrableApp) :
  let out := registerMicroApps microApps apps in
  out.1 = microApps ++ out.2
  ∧ out.2 `sublist_of` apps
  ∧ (∀ app, app ∈ out.2 ↔ app ∈ apps ∧ (name app ∉ name <$> microApps))
  ∧ registerMicroApps out.1 apps = (out.1, []).
Proof.
  unfold registerMicroApps. cbn [fst snd].
  set (unregisteredApps := filter _ apps).
  assert (Hin : ∀ app, app ∈ unregisteredApps
                       ↔ app ∈ apps ∧ (name app ∉ name <$> microApps)).
  { intros app. unfold unregisteredApps.
    rewrite list_elem_of_filter, registered_iff. tauto. }
  split; [done|]. split; [apply sublist_filter|]. split; [done|].
  rewrite filter_none; [by rewrite app_nil_r|].
  intros app Happ Hno. apply Hno. apply registered_iff.
  rewrite fmap_app, elem_of_app.
  destruct (decide (name app ∈ name <$> microApps)) as [|Hn]; [by left|].
  right. apply list_elem_of_fmap. exists app. split; [done|].
  apply Hin. done.
Qed.

(** X26.  When the registered names are pairwise distinct and so are the
    names of the batch, the registered names are pairwise distinct after
    [registerMicroApps]. *)
Theorem register_keeps_names_distinct (microApps apps : list RegistrableApp) :
  NoDup (name <$> microApps) →
  NoDup (name <$> apps) →
  NoDup (name <$> (registerMicroApps microApps apps).1).
Proof.
  intros Hm Ha. unfold registerMicroApps. cbn [fst].
  rewrite fmap_app. apply NoDup_app. split; [done|]. split.
  - intros x Hx Hx'. apply list_elem_of_fmap in Hx' as (app & -> & Happ).
    apply list_elem_of_filter in Happ as [Hno _].
    apply Hno. by apply registered_iff.
  - eapply sublist_NoDup; [exact Ha|]. apply fmap_sublist, sublist_filter.
Qed.

Lemma register_keeps_names_distinct_witness :
  let microApps := [mkApp "a" "//a" "#a" "/a"] in
  let apps := [mkApp "a" "//a2" "#a" "/a"; mkApp "b" "//b" "#b" "/b"] in
  NoDup (name <$> microApps) ∧ NoDup (name <$> apps)
  ∧ NoDup (name <$> (registerMicroApps microApps apps).1).
Proof.
  intros microApps apps.
  assert (Hm : NoDup (name <$> microApps)).
  { apply (bool_decide_unpack _). vm_compute. exact I. }
  assert (Ha : NoDup (name <$> apps)).
  { apply (bool_decide_unpack _). vm_compute. exact I. }
  split; [exact Hm|]. split; [exact Ha|].
  exact (register_keeps_names_distinct microApps apps Hm Ha).
Defined.

(** X27.  [start] fills in the defaults of [prefetch], [singular] and
    [sandbox] and keeps what the caller gave.  It changes the [sandbox]
    option only on a browser without [window.Proxy] and with the sandbox
    enabled; then the option becomes an object with [loose] set that keeps
    the style-isolation flag, so that [loadApp] sees a loose sandbox.  The
    sandbox is enabled afterwards exactly when it was before. *)
Theorem start_spec (hasProxy : bool) (opts : FrameworkConfiguration) :
  let before := withDefaults opts in
  let after := start hasProxy opts in
  prefetch after = Some (default (Prefetch.StrategyBool true) (prefetch opts))
  ∧ singular after = Some (default (SingularFlag true) (singular opts))
  ∧ urlRerouteOnly after = urlRerouteOnly opts
  ∧ sandboxEnabled (sandbox after) = sandboxEnabled (sandbox before)
  ∧ strictStyleIsolation after = strictStyleIsolation before
  ∧ useLooseSandbox after
    = useLooseSandbox before || (sandboxEnabled (sandbox before) && negb hasProxy)
  ∧ (hasProxy = true ∨ sandboxEnabled (sandbox before) = false → after = before).
Proof.
  destruct opts as [p s [[[]|[[]|] [[]|] [[]|]]|] u], hasProxy;
    cbv; repeat split; try done; intros [?|?]; done.
Qed.

End ApisSpec.


(** ** Prefetching *)

Module PrefetchSpec.

Import Prefetch.

(** X28.  Whatever the strategy, [doPrefetchStrategy] schedules only
    registered applications, in the order of their registration.  A list
    of names schedules, after the first mount, exactly the registered
    applications whose name is listed; [false], and any string other than
    ['all'], schedule nothing. *)
Theorem prefetch_only_registered (apps : list AppMetadata)
    (prefetchStrategy : PrefetchStrategy) :
  Forall (λ a, scheduled a `sublist_of` apps)
    (doPrefetchStrategy apps prefetchStrategy)
  ∧ (∀ names, ∃ l,
       doPrefetchStrategy apps (StrategyNames names) = [prefetchAfterFirstMounted l]
       ∧ ∀ app, app ∈ l ↔ app ∈ apps ∧ name app ∈ names)
  ∧ doPrefetchStrategy apps (StrategyBool false) = []
  ∧ (∀ s, s ≠ "all"%string → doPrefetchStrategy apps (StrategyString s) = []).
Proof.
  split; [|split; [|split]].
  - destruct prefetchStrategy as [[]|s|names|f]; simpl.
    + by repeat constructor.
    + constructor.
    + case_bool_decide; by repeat constructor.
    + repeat constructor. apply sublist_filter.
    + destruct (f apps) as [c m]. repeat constructor; apply sublist_filter.
  - intros names. eexists. split; [done|].
    intros app. unfold appsName2Apps. rewrite list_elem_of_filter. tauto.
  - done.
  - intros s Hs. simpl. by rewrite bool_decide_eq_false_2.
Qed.

(** X29.  The [timeRemaining()] of the [requestIdleCallback] shim is never
    negative, does not grow as time passes, is zero exactly from 50 ms after
    the request on, and is at most 50 as long as the clock has not gone
    back behind the time of the request. *)
Theorem timeRemaining_spec (start now now' : Z) :
  (0 ≤ timeRemaining start now)%Z
  ∧ (timeRemaining start now = 0 ↔ start + 50 ≤ now)%Z
  ∧ ((now ≤ now')%Z → (timeRemaining start now' ≤ timeRemaining start now)%Z)
  ∧ ((start ≤ now)%Z → (timeRemaining start now ≤ 50)%Z).
Proof. unfold timeRemaining. lia. Qed.

End PrefetchSpec.


(** ** The [defineProperty] trap of the legacy sandbox *)

Module SingularProxySandboxDefine.

Import SingularProxySandbox Examples.




Section WithHost.

Context (h : Host).





End WithHost.




End SingularProxySandboxDefine.
